(** * Pix2Vid proxy model (pix2vid.py): shallow embedding and properties

    The development follows the layout of the Python file:
    - [Tensor]: n-dimensional arrays as a shape and an index function;
    - [Keras], [Model]: the layers, the custom [SqueezeExcite] layer and the
      graph built by [encoder_layer], [recurrent_decoder] and [make_model];
    - [Numpy], [DataLoading], [Noise], [MinMaxScaler], [ProcessData]:
      [load_data], [apply_noise] and [process_data];
    - [Instance]: the constructor as Python executes it on an instance
      dictionary;
    - [Loss]: the training criterion.
    Definitions come first, the properties after them.

    Floating point numbers are modelled by exact numbers: reals where the
    code evaluates transcendental functions (sigmoid), rationals where it
    only uses field operations (min-max scaling). *)

From stdpp Require Import base strings gmap list pretty.
From Stdlib Require Import ZArith QArith Qround Reals Lia Psatz List.
Import ListNotations.
Open Scope nat_scope.

(** ** Python exceptions and results *)

Inductive exn : Type :=
| AttributeError (name : string)
| FileNotFoundError (path : string)
| IndexError
| ZeroDivisionError
| ValueError (msg : string)
| TypeError (msg : string).

Inductive result (A : Type) : Type :=
| Ok (a : A)
| Err (e : exn).
Arguments Ok {A} a.
Arguments Err {A} e.

Definition is_ok {A} (r : result A) : bool :=
  match r with Ok _ => true | Err _ => false end.

Definition rbind {A B} (r : result A) (k : A -> result B) : result B :=
  match r with Ok a => k a | Err e => Err e end.

Notation "'do' x <- c 'in' k" := (rbind c (fun x => k))
  (at level 10, x name, c at level 100, k at level 200).

(** A [for] loop over a range, stopping at the first exception. *)
Fixpoint for_each {S} (body : S -> nat -> result S) (range : list nat) (s : S)
  : result S :=
  match range with
  | [] => Ok s
  | i :: rest => do s' <- body s i in for_each body rest s'
  end.

(** ** Arrays *)

Module Tensor.

(** An array is its shape and the value stored at every index; only the
    indices inside the shape are meaningful. *)
Record tensor (V : Type) : Type := mk { shape : list nat; val : list nat -> V }.
Arguments mk {V} shape val.
Arguments shape {V} t.
Arguments val {V} t idx.

Definition rank {V} (t : tensor V) : nat := length (shape t).

Fixpoint in_bounds (idx shp : list nat) : Prop :=
  match idx, shp with
  | [], [] => True
  | i :: idx', d :: shp' => i < d /\ in_bounds idx' shp'
  | _, _ => False
  end.

(** numpy / Keras broadcasting of an index: an axis of extent 1 is read at
    position 0 whatever the index asks for. *)
Fixpoint bcast_index (shp idx : list nat) : list nat :=
  match shp, idx with
  | d :: shp', i :: idx' => (if d =? 1 then 0 else i) :: bcast_index shp' idx'
  | _, _ => []
  end.

(** Shape of an elementwise operation on two arrays of the same rank. *)
Fixpoint bcast_shape (s1 s2 : list nat) : option (list nat) :=
  match s1, s2 with
  | [], [] => Some []
  | a :: s1', b :: s2' =>
      match bcast_shape s1' s2' with
      | None => None
      | Some s =>
          if a =? b then Some (a :: s)
          else if a =? 1 then Some (b :: s)
          else if b =? 1 then Some (a :: s)
          else None
      end
  | _, _ => None
  end.

Fixpoint shape_eqb (s1 s2 : list nat) : bool :=
  match s1, s2 with
  | [], [] => true
  | a :: s1', b :: s2' => (a =? b) && shape_eqb s1' s2'
  | _, _ => false
  end.

(** A negative axis counts from the end, as in numpy. *)
Definition norm_axis (ax : Z) (rk : nat) : nat :=
  if (ax <? 0)%Z then Z.to_nat (Z.of_nat rk + ax) else Z.to_nat ax.

(** Shapes agree everywhere but on axis [ax]. *)
Fixpoint same_but (ax : nat) (s1 s2 : list nat) : bool :=
  match s1, s2 with
  | [], [] => true
  | a :: s1', b :: s2' =>
      match ax with
      | 0 => shape_eqb s1' s2'
      | S ax' => (a =? b) && same_but ax' s1' s2'
      end
  | _, _ => false
  end.

Definition axis_extent (ax : nat) (shp : list nat) : nat := nth ax shp 0.

(** Values of the concatenation of [a] and [b] along axis [ax]. *)
Definition concat_val {V} (ax : nat) (a b : tensor V) (idx : list nat) : V :=
  let i := nth ax idx 0 in
  let da := axis_extent ax (shape a) in
  if i <? da then val a idx else val b (<[ax := i - da]> idx).

Definition concat_shape (ax : nat) (s1 s2 : list nat) : list nat :=
  <[ax := axis_extent ax s1 + axis_extent ax s2]> s1.

(** [expand_dims t ax]: a new axis of extent 1 at position [ax]. *)
Definition expand_shape (ax : nat) (shp : list nat) : list nat :=
  firstn ax shp ++ 1 :: skipn ax shp.

Definition drop_axis (ax : nat) (idx : list nat) : list nat :=
  firstn ax idx ++ skipn (S ax) idx.

(** Row-major position of an index, and back: what reshaping preserves. *)
Fixpoint ravel (shp idx : list nat) : nat :=
  match shp, idx with
  | _ :: s, i :: r => i * fold_right Nat.mul 1 s + ravel s r
  | _, _ => 0
  end.

Fixpoint unravel (shp : list nat) (flat : nat) : list nat :=
  match shp with
  | [] => []
  | d :: s =>
      let sz := fold_right Nat.mul 1 s in
      (flat / sz) mod d :: unravel s (flat mod sz)
  end.

End Tensor.
Import Tensor.

(** ** Real-valued helpers *)

Definition sigmoid (x : R) : R := (1 / (1 + exp (- x)))%R.

Definition relu (x : R) : R := Rmax 0 x.

(** Sum of [f 0 .. f (n-1)]. *)
Fixpoint rsum (n : nat) (f : nat -> R) : R :=
  match n with
  | 0 => 0%R
  | S k => (rsum k f + f k)%R
  end.

(** ** The layer graph (MODEL ARCHITECTURE) *)

Module Keras.

Inductive padding : Type := same | valid.

(** The layers the file instantiates, with the arguments it passes.  The
    graph under construction is the list of layers created so far, in
    creation order (Keras' [model.layers]); a layer's position in it names
    its weights. *)
Inductive layer : Type :=
| InputLayer (shp : list nat)
| SeparableConv2D_ (filters kern : nat) (pad : padding)
| SqueezeExcite_ (ratio channels excite1_units excite2_units : nat)
| GroupNormalization_ (groups : Z)
| PReLU_
| MaxPooling2D_
| SpatialDropout2D_ (rate : Q)
| ConvLSTM2D_ (filters kern : nat) (pad : padding)
| LeakyReLU_ (slope : Q)
| Conv2DTranspose_ (filters kern : nat) (pad : padding) (strides : nat)
| Concatenate_ (axis : Z)
| Conv2D_ (filters kern : nat) (pad : padding)
| Activation_ (name : string)
| ExpandDims_ (axis : nat).

(** What training decides: the function computed by every layer with
    learned weights or batch statistics, and the kernels and biases of the
    dense layers inside [SqueezeExcite].  Nothing is assumed about them. *)
Record weights : Type := {
  layer_fn : nat -> layer -> tensor R -> list nat -> R;
  dense_kernel : nat -> nat -> nat -> nat -> R;
  dense_bias : nat -> nat -> nat -> R
}.

(** Graph construction: a state monad over the layer list, with errors. *)
Definition build (A : Type) : Type := list layer -> result (A * list layer).

Definition ret {A} (a : A) : build A := fun g => Ok (a, g).

Definition bind {A B} (c : build A) (k : A -> build B) : build B :=
  fun g => match c g with
           | Ok (a, g') => k a g'
           | Err e => Err e
           end.

Definition raise {A} (e : exn) : build A := fun _ => Err e.

Notation "'let*' x ':=' c 'in' k" := (bind c (fun x => k))
  (at level 10, x name, c at level 100, k at level 200).

(** Python list indexing [l[i]] for [i >= 0]. *)
Definition index {A} (l : list A) (i : nat) : build A :=
  match nth_error l i with
  | Some a => ret a
  | None => raise IndexError
  end.

Section Layers.
Variable W : weights.

(** A layer whose output values come from its weights: the shape is
    inferred, the values are [layer_fn] of this layer instance. *)
Definition weighted (l : layer) (out_shape : list nat) (inp : tensor R)
  : build (tensor R) :=
  fun g => Ok (Tensor.mk out_shape (layer_fn W (length g) l inp), g ++ [l]).

(** A layer without weights: shape and values are given. *)
Definition stateless (l : layer) (out : tensor R) : build (tensor R) :=
  fun g => Ok (out, g ++ [l]).

Definition conv_extent (pad : padding) (kern h : nat) : nat :=
  match pad with same => h | valid => h - kern + 1 end.

Definition Input (shp : list nat) (x : tensor R) : build (tensor R) :=
  match shape x with
  | _ :: s =>
      if shape_eqb s shp then stateless (InputLayer shp) x
      else raise (ValueError "input shape")
  | [] => raise (ValueError "input shape")
  end.

Definition SeparableConv2D (filt kern : nat) (pad : padding) (inp : tensor R)
  : build (tensor R) :=
  match shape inp with
  | [n; h; w; _] =>
      weighted (SeparableConv2D_ filt kern pad)
        [n; conv_extent pad kern h; conv_extent pad kern w; filt] inp
  | _ => raise (ValueError "expected ndim=4")
  end.

Definition Conv2D (filt kern : nat) (pad : padding) (inp : tensor R)
  : build (tensor R) :=
  match shape inp with
  | [n; h; w; _] =>
      weighted (Conv2D_ filt kern pad)
        [n; conv_extent pad kern h; conv_extent pad kern w; filt] inp
  | _ => raise (ValueError "expected ndim=4")
  end.

(** [padding='same']: the output extent is the input extent times the
    stride. *)
Definition Conv2DTranspose (filt kern : nat) (pad : padding) (strides : nat)
  (inp : tensor R) : build (tensor R) :=
  match shape inp, pad with
  | [n; h; w; _], same =>
      weighted (Conv2DTranspose_ filt kern pad strides)
        [n; h * strides; w * strides; filt] inp
  | [n; h; w; _], valid =>
      weighted (Conv2DTranspose_ filt kern pad strides)
        [n; h * strides + (kern - strides); w * strides + (kern - strides); filt] inp
  | _, _ => raise (ValueError "expected ndim=4")
  end.

(** [return_sequences] keeps its default [False]: the time axis is consumed. *)
Definition ConvLSTM2D (filt kern : nat) (pad : padding) (inp : tensor R)
  : build (tensor R) :=
  match shape inp with
  | [n; _; h; w; _] =>
      weighted (ConvLSTM2D_ filt kern pad)
        [n; conv_extent pad kern h; conv_extent pad kern w; filt] inp
  | _ => raise (ValueError "expected ndim=5")
  end.

Definition GroupNormalization (groups : Z) (inp : tensor R) : build (tensor R) :=
  weighted (GroupNormalization_ groups) (shape inp) inp.

Definition PReLU (inp : tensor R) : build (tensor R) :=
  weighted PReLU_ (shape inp) inp.

(** Dropout is the identity at inference and random in training; both are
    covered by leaving its values to [layer_fn]. *)
Definition SpatialDropout2D (rate : Q) (inp : tensor R) : build (tensor R) :=
  match shape inp with
  | [_; _; _; _] => weighted (SpatialDropout2D_ rate) (shape inp) inp
  | _ => raise (ValueError "expected ndim=4")
  end.

Definition LeakyReLU (slope : Q) (inp : tensor R) : build (tensor R) :=
  stateless (LeakyReLU_ slope)
    (Tensor.mk (shape inp)
       (fun idx => let v := val inp idx in
                   if Rle_dec 0 v then v else (Q2R slope * v)%R)).

(** Default pool size 2, stride 2, [padding='valid']. *)
Definition MaxPooling2D (inp : tensor R) : build (tensor R) :=
  match shape inp with
  | [n; h; w; c] =>
      if (2 <=? h) && (2 <=? w) then
        stateless MaxPooling2D_
          (Tensor.mk [n; (h - 2) / 2 + 1; (w - 2) / 2 + 1; c]
             (fun idx =>
                match idx with
                | [b; i; j; k] =>
                    Rmax (Rmax (val inp [b; 2 * i; 2 * j; k])
                               (val inp [b; 2 * i; 2 * j + 1; k]))
                         (Rmax (val inp [b; 2 * i + 1; 2 * j; k])
                               (val inp [b; 2 * i + 1; 2 * j + 1; k]))
                | _ => 0%R
                end))
      else raise (ValueError "negative dimension size")
  | _ => raise (ValueError "expected ndim=4")
  end.

Definition Activation (name : string) (inp : tensor R) : build (tensor R) :=
  if String.eqb name "sigmoid" then
    stateless (Activation_ name)
      (Tensor.mk (shape inp) (fun idx => sigmoid (val inp idx)))
  else if String.eqb name "relu" then
    stateless (Activation_ name)
      (Tensor.mk (shape inp) (fun idx => relu (val inp idx)))
  else raise (ValueError "unknown activation").

Definition Concatenate (axis : Z) (a b : tensor R) : build (tensor R) :=
  let ax := norm_axis axis (rank a) in
  if same_but ax (shape a) (shape b) && (ax <? rank a) then
    stateless (Concatenate_ axis)
      (Tensor.mk (concat_shape ax (shape a) (shape b)) (concat_val ax a b))
  else raise (ValueError "Concatenate: mismatched shapes").

Definition expand_dims (inp : tensor R) (ax : nat) : build (tensor R) :=
  if ax <=? rank inp then
    stateless (ExpandDims_ ax)
      (Tensor.mk (expand_shape ax (shape inp))
         (fun idx => val inp (drop_axis ax idx)))
  else raise (ValueError "expand_dims: axis out of range").

(** *** class SqueezeExcite(Layer) *)

Definition lift {A} (r : result A) : build A :=
  fun g => match r with Ok a => Ok (a, g) | Err e => Err e end.

(** The mean over the two spatial axes.  Keras rejects an input whose
    height or width is zero. *)
Definition GlobalAveragePooling2D (x : tensor R) : result (tensor R) :=
  match shape x with
  | [n; h; w; c] =>
      if (h =? 0) || (w =? 0) then Err (ValueError "zero spatial extent")
      else
        Ok (Tensor.mk [n; c]
              (fun idx =>
                 match idx with
                 | [b; k] =>
                     (rsum h (fun i => rsum w (fun j => val x [b; i; j; k]))
                      / INR (h * w))%R
                 | _ => 0%R
                 end))
  | _ => Err (ValueError "expected ndim=4")
  end.

(** [Dense(units, activation)] applied to a batch of vectors; [id] and
    [slot] name the layer's kernel and bias. *)
Definition Dense (id slot units : nat) (act : R -> R) (x : tensor R)
  : result (tensor R) :=
  match shape x with
  | [n; cin] =>
      Ok (Tensor.mk [n; units]
            (fun idx =>
               match idx with
               | [b; j] =>
                   act (rsum cin (fun k => val x [b; k] * dense_kernel W id slot k j)
                        + dense_bias W id slot j)%R
               | _ => 0%R
               end))
  | _ => Err (ValueError "Dense: expected ndim=2")
  end.

(** [Reshape(target)]: the batch axis is kept, the rest is re-read in
    row-major order; the element counts must agree. *)
Definition Reshape (target : list nat) (x : tensor R) : result (tensor R) :=
  match shape x with
  | n :: s =>
      if fold_right Nat.mul 1 s =? fold_right Nat.mul 1 target then
        Ok (Tensor.mk (n :: target)
              (fun idx =>
                 match idx with
                 | b :: r => val x (b :: unravel s (ravel target r))
                 | [] => 0%R
                 end))
      else Err (ValueError "Reshape: size mismatch")
  | [] => Err (ValueError "Reshape: size mismatch")
  end.

Definition elementwise (op : R -> R -> R) (a b : tensor R) : result (tensor R) :=
  match bcast_shape (shape a) (shape b) with
  | Some s =>
      Ok (Tensor.mk s
            (fun idx => op (val a (bcast_index (shape a) idx))
                           (val b (bcast_index (shape b) idx))))
  | None => Err (ValueError "incompatible shapes")
  end.

Definition Multiply (a b : tensor R) : result (tensor R) := elementwise Rmult a b.

Definition Add (a b : tensor R) : result (tensor R) := elementwise Rplus a b.

Definition lift_last (shp : list nat) : result nat :=
  match last (map Some shp) None with
  | Some d => Ok d
  | None => Err IndexError
  end.

(** The attributes [__init__] and [build] set. *)
Record SqueezeExcite_obj : Type := {
  ratio : nat;
  excite1_units : nat;
  excite2_units : nat
}.

(** [build]: [channels = input_shape[-1]]; the two dense layers have
    [channels // ratio] and [channels] units. *)
Definition SqueezeExcite_build (ratio : nat) (input_shape : list nat)
  : result SqueezeExcite_obj :=
  match last (map Some input_shape) None with
  | None => Err IndexError
  | Some channels =>
      if ratio =? 0 then Err ZeroDivisionError
      else Ok {| ratio := ratio;
                 excite1_units := channels / ratio;
                 excite2_units := channels |}
  end.

Definition SqueezeExcite_call (id : nat) (l : SqueezeExcite_obj) (inputs : tensor R)
  : result (tensor R) :=
  rbind (GlobalAveragePooling2D inputs) (fun se_tensor =>
  rbind (Dense id 1 (excite1_units l) relu se_tensor) (fun se_tensor =>
  rbind (Dense id 2 (excite2_units l) sigmoid se_tensor) (fun se_tensor =>
  rbind (lift_last (shape se_tensor)) (fun c =>
  rbind (Reshape [1; 1; c] se_tensor) (fun se_tensor =>
  rbind (Multiply inputs se_tensor) (fun scaled_inputs =>
  Add inputs scaled_inputs)))))).

(** [SqueezeExcite(ratio)(inputs)]: build on first call, then call. *)
Definition SqueezeExcite (ratio : nat) (inputs : tensor R) : build (tensor R) :=
  fun g =>
    match SqueezeExcite_build ratio (shape inputs) with
    | Err e => Err e
    | Ok l =>
        match SqueezeExcite_call (length g) l inputs with
        | Err e => Err e
        | Ok out =>
            Ok (out, g ++ [SqueezeExcite_ ratio (excite2_units l)
                             (excite1_units l) (excite2_units l)])
        end
    end.

End Layers.

(** Every entry of the array is the sigmoid of some pre-activation. *)
Definition sigmoid_valued (t : tensor R) : Prop :=
  forall idx, exists a, val t idx = sigmoid a.

(** Every entry of the array lies in the closed unit interval. *)
Definition unit_valued (t : tensor R) : Prop :=
  forall idx, (0 <= val t idx <= 1)%R.

(** The layers [encoder_layer] appends to the graph, in creation order. *)
Definition encoder_layers (filt : nat) (drop : Q) : list layer :=
  [SeparableConv2D_ filt 3 same;
   SqueezeExcite_ filt filt (filt / filt) filt;
   GroupNormalization_ (-1);
   PReLU_;
   MaxPooling2D_;
   SpatialDropout2D_ drop].

End Keras.
Import Keras.

(** ** class SpatiotemporalCO2: the attributes the methods read *)

Record SpatiotemporalCO2 : Type := {
  input_features_dir : string;
  output_targets_dir : string;
  n_samples : nat;
  x_channels : nat;
  y_channels : nat;
  timesteps : nat;
  dim : nat;
  test_size : Q;
  t_samples : list Z;
  cnn_filters : list nat;
  rnn_filters : list nat;
  rnn_dropout : Q;
  L1L2_split : Q;
  ridge_alpha : Q;
  leaky_slope : Q;
  save_model : bool;
  X_train_shape : list nat
}.

(** The values [__init__] assigns (lines 52-83); [X_train] is set later by
    [process_data], so its shape is an argument here. *)
Definition defaults (X_train_shape : list nat) : SpatiotemporalCO2 := {|
  input_features_dir := "simulations2D/input_features";
  output_targets_dir := "simulations2D/output_targets";
  n_samples := 1000;
  x_channels := 4;
  y_channels := 2;
  timesteps := 60;
  dim := 64;
  test_size := 25 # 100;
  t_samples := [0; 6; 12; 18; 24; 30; 36; 42; 48; 54; 60]%Z;
  cnn_filters := [64; 128; 256];
  rnn_filters := [256; 128; 64];
  rnn_dropout := 5 # 100;
  L1L2_split := 33 # 100;
  ridge_alpha := 66 # 100;
  leaky_slope := 25 # 100;
  save_model := true;
  X_train_shape := X_train_shape
|}.

Module Model.
Section Methods.
Variable W : weights.
Variable self : SpatiotemporalCO2.

Definition encoder_layer (inp : tensor R) (filt : nat) : build (tensor R) :=
  let kern := 3 in
  let pad := same in
  let* x := SeparableConv2D W filt kern pad inp in
  let* x := SqueezeExcite W filt x in
  let* x := GroupNormalization W (-1) x in
  let* x := PReLU W x in
  let* x := MaxPooling2D x in
  let* x := SpatialDropout2D W (rnn_dropout self) x in
  ret x.

Definition recurrent_step (inp : tensor R) (filt : nat) (res : tensor R)
  : build (tensor R) :=
  let kern := 3 in
  let pad := same in
  let drop := rnn_dropout self in
  let* y := ConvLSTM2D W filt kern pad inp in
  let* y := GroupNormalization W (-1) y in
  let* y := LeakyReLU (leaky_slope self) y in
  let* y := Conv2DTranspose W filt kern pad 2 y in
  let* y := SpatialDropout2D W drop y in
  let* y := Concatenate (-1) y res in
  let* y := Conv2D W filt kern pad y in
  let* y := Activation "sigmoid" y in
  let* y := expand_dims y 1 in
  ret y.

Definition recurrent_last (inp : tensor R) (filt : nat) : build (tensor R) :=
  let kern := 3 in
  let pad := same in
  let drop := rnn_dropout self in
  let* y := ConvLSTM2D W filt kern pad inp in
  let* y := GroupNormalization W (-1) y in
  let* y := LeakyReLU (leaky_slope self) y in
  let* y := Conv2DTranspose W filt kern pad 2 y in
  let* y := SpatialDropout2D W drop y in
  let* y := Conv2D W (y_channels self) kern pad y in
  let* y := Activation "sigmoid" y in
  let* y := expand_dims y 1 in
  ret y.

Definition recurrent_decoder (z_input : tensor R) (residuals : list (tensor R))
  (previous_timestep : option (tensor R)) : build (tensor R) :=
  let* x := expand_dims z_input 1 in
  let* f0 := index (rnn_filters self) 0 in
  let* r0 := index residuals 0 in
  let* x := recurrent_step x f0 r0 in
  let* f1 := index (rnn_filters self) 1 in
  let* r1 := index residuals 1 in
  let* x := recurrent_step x f1 r1 in
  let* f2 := index (rnn_filters self) 2 in
  let* x := recurrent_last x f2 in
  match previous_timestep with
  | Some prev => Concatenate 1 prev x
  | None => ret x
  end.

(** What [make_model] stores: the outputs of [latent1], [latent2],
    [encoder] and [model] on the batch fed to the input layer. *)
Record models : Type := {
  latent1 : tensor R;
  latent2 : tensor R;
  encoder : tensor R;
  model : tensor R
}.

Definition make_model (x : tensor R) : build models :=
  let* inp := Input (tl (X_train_shape self)) x in
  let* c0 := index (cnn_filters self) 0 in
  let* z1 := encoder_layer inp c0 in
  let* c1 := index (cnn_filters self) 1 in
  let* z2 := encoder_layer z1 c1 in
  let* c2 := index (cnn_filters self) 2 in
  let* z3 := encoder_layer z2 c2 in
  let* t0 := recurrent_decoder z3 [z2; z1] None in
  let* t1 := recurrent_decoder z3 [z2; z1] (Some t0) in
  let* t2 := recurrent_decoder z3 [z2; z1] (Some t1) in
  let* t3 := recurrent_decoder z3 [z2; z1] (Some t2) in
  let* t4 := recurrent_decoder z3 [z2; z1] (Some t3) in
  let* t5 := recurrent_decoder z3 [z2; z1] (Some t4) in
  let* t6 := recurrent_decoder z3 [z2; z1] (Some t5) in
  let* t7 := recurrent_decoder z3 [z2; z1] (Some t6) in
  let* t8 := recurrent_decoder z3 [z2; z1] (Some t7) in
  let* t9 := recurrent_decoder z3 [z2; z1] (Some t8) in
  let* t10 := recurrent_decoder z3 [z2; z1] (Some t9) in
  ret {| latent1 := z1; latent2 := z2; encoder := z3; model := t10 |}.

End Methods.
End Model.

(** ** Concrete instances for the examples *)

Module Examples.

(** Untrained weights, all zero. *)
Definition zero_weights : weights := {|
  layer_fn := fun _ _ _ _ => 0%R;
  dense_kernel := fun _ _ _ _ => 0%R;
  dense_bias := fun _ _ _ => 0%R
|}.

(** An array of the given shape filled with ones. *)
Definition ones (shp : list nat) : tensor R := Tensor.mk shp (fun _ => 1%R).

Definition feature_map : tensor R := ones [1; 2; 2; 8].

Definition batch3 : tensor R := ones [3; 64; 64; 4].


Definition batch60 : tensor R := ones [2; 60; 60; 4].

(** A bottleneck latent, its two skip residuals and three earlier frames. *)
Definition latent3 : tensor R := ones [1; 1; 1; 8].

Definition latent2 : tensor R := ones [1; 2; 2; 4].

Definition latent1 : tensor R := ones [1; 4; 4; 2].

Definition frames3 : tensor R := ones [1; 3; 8; 8; 2].

End Examples.

(** ** numpy operations used by the data pipeline *)

Module Numpy.
Section Ops.
Context {V : Type}.

(** [np.flip(m, ax)] *)
Definition flip (m : tensor V) (ax : nat) : tensor V :=
  Tensor.mk (shape m)
    (fun idx => val m (<[ax := axis_extent ax (shape m) - 1 - nth ax idx 0]> idx)).

Definition swap {A} (a1 a2 : nat) (d : A) (l : list A) : list A :=
  <[a1 := nth a2 l d]> (<[a2 := nth a1 l d]> l).

(** [np.transpose(m, axes)] for the permutation exchanging two axes. *)
Definition transpose (m : tensor V) (a1 a2 : nat) : tensor V :=
  Tensor.mk (swap a1 a2 0 (shape m)) (fun idx => val m (swap a1 a2 0 idx)).

(** [np.rot90(m, k, axes=(a1,a2))], following numpy's case analysis on
    [k % 4]. *)
Definition rot90 (m : tensor V) (k : Z) (a1 a2 : nat) : result (tensor V) :=
  if (a1 =? a2) || negb (a1 <? rank m) || negb (a2 <? rank m) then
    Err (ValueError "rot90: axes")
  else
    let k := (k mod 4)%Z in
    if (k =? 0)%Z then Ok m
    else if (k =? 2)%Z then Ok (flip (flip m a1) a2)
    else if (k =? 1)%Z then Ok (transpose (flip m a2) a1 a2)
    else Ok (flip (transpose m a1 a2) a2).

(** [np.concatenate([a, b], axis=0)] *)
Definition concatenate0 (a b : tensor V) : result (tensor V) :=
  if same_but 0 (shape a) (shape b) && (0 <? rank a) then
    Ok (Tensor.mk (concat_shape 0 (shape a) (shape b)) (concat_val 0 a b))
  else Err (ValueError "concatenate: dimensions must match").

Definition size (shp : list nat) : nat := fold_right Nat.mul 1 shp.

(** [m.reshape(new_shape)]: same row-major order of the elements. *)
Definition reshape (m : tensor V) (new_shape : list nat) : result (tensor V) :=
  if size (shape m) =? size new_shape then
    Ok (Tensor.mk new_shape
          (fun idx => val m (unravel (shape m) (ravel new_shape idx))))
  else Err (ValueError "cannot reshape array").

(** [m.reshape(rows, -1)]: the second extent is inferred. *)
Definition reshape_rows (m : tensor V) (rows : nat) : result (tensor V) :=
  if (rows =? 0) || negb (size (shape m) mod rows =? 0) then
    Err (ValueError "cannot reshape array")
  else reshape m [rows; size (shape m) / rows].

Definition remove_at {A} (i : nat) (l : list A) : list A :=
  firstn i l ++ skipn (S i) l.

Definition insert_at {A} (i : nat) (a : A) (l : list A) : list A :=
  firstn i l ++ a :: skipn i l.

(** [np.moveaxis(m, src, dst)] *)
Definition moveaxis (m : tensor V) (src : nat) (dst : Z) : result (tensor V) :=
  let d := norm_axis dst (rank m) in
  if (src <? rank m) && (d <? rank m) then
    Ok (Tensor.mk (insert_at d (nth src (shape m) 0) (remove_at src (shape m)))
          (fun idx => val m (insert_at src (nth d idx 0) (remove_at d idx))))
  else Err (ValueError "moveaxis: axis out of bounds").

(** Broadcasting in an assignment [target[...] = src]: leading axes of
    extent 1 in excess are dropped, then the shapes are matched from the
    right, an extent of 1 stretching. *)
Fixpoint strip_ones (k : nat) (s : list nat) : list nat :=
  match k, s with
  | S k', 1 :: s' => strip_ones k' s'
  | _, _ => s
  end.

Fixpoint compat_rev (target src : list nat) : bool :=
  match src, target with
  | [], _ => true
  | d :: src', e :: target' => ((d =? e) || (d =? 1)) && compat_rev target' src'
  | _ :: _, [] => false
  end.

Definition assignable (target src : list nat) : bool :=
  compat_rev (rev target) (rev (strip_ones (length src - length target) src)).

(** The element of [src] that lands at position [idx] of the target. *)
Definition assigned (target : list nat) (src : tensor V) (idx : list nat) : V :=
  let k := length (shape src) - length target in
  let s := strip_ones k (shape src) in
  let lead := length (shape src) - length s in
  val src (repeat 0 lead ++ bcast_index s (skipn (length idx - length s) idx)).

End Ops.
End Numpy.

(** ** DATA LOADING *)

Module DataLoading.

(** [np.load]: a missing file raises. *)
Definition np_load (fs : gmap string (tensor Q)) (path : string)
  : result (tensor Q) :=
  match fs !! path with
  | Some a => Ok a
  | None => Err (FileNotFoundError path)
  end.

Definition zeros (shp : list nat) : tensor Q := Tensor.mk shp (fun _ => 0%Q).

(** [t[i] = src] *)
Definition setitem0 (t : tensor Q) (i : nat) (src : tensor Q) : result (tensor Q) :=
  match shape t with
  | n :: s =>
      if i <? n then
        if Numpy.assignable s (shape src) then
          Ok (Tensor.mk (shape t)
                (fun idx =>
                   match idx with
                   | j :: r => if j =? i then Numpy.assigned s src r else val t idx
                   | [] => val t idx
                   end))
        else Err (ValueError "could not broadcast input array")
      else Err IndexError
  | [] => Err IndexError
  end.

Definition X_path (self : SpatiotemporalCO2) (i : nat) : string :=
  input_features_dir self +:+ "/X_data_" +:+ pretty i +:+ ".npy".

Definition y_path (self : SpatiotemporalCO2) (i : nat) : string :=
  output_targets_dir self +:+ "/y_data_" +:+ pretty i +:+ ".npy".

(** One iteration of the loop over the samples. *)
Definition load_sample (self : SpatiotemporalCO2) (fs : gmap string (tensor Q))
  (acc : tensor Q * tensor Q) (i : nat) : result (tensor Q * tensor Q) :=
  do a <- np_load fs (X_path self i) in
  do X_data <- setitem0 (fst acc) i a in
  do b <- np_load fs (y_path self i) in
  do y_data <- setitem0 (snd acc) i b in
  Ok (X_data, y_data).

(** Returns [(self.X_data, self.y_data)]. *)
Definition load_data (self : SpatiotemporalCO2) (fs : gmap string (tensor Q))
  : result (tensor Q * tensor Q) :=
  let X_data := zeros [n_samples self; x_channels self; dim self; dim self] in
  let y_data := zeros [n_samples self; timesteps self; y_channels self;
                       dim self; dim self] in
  do acc <- for_each (load_sample self fs) (seq 0 (n_samples self)) (X_data, y_data) in
  do X <- Numpy.moveaxis (fst acc) 1 (-1) in
  do y <- Numpy.moveaxis (snd acc) 2 (-1) in
  Ok (X, y).

End DataLoading.

(** ** apply_noise *)

Module Noise.

(** The modes of [skimage.util.random_noise]. *)
Inductive noise_mode : Type :=
| gaussian | localvar | poisson | salt | pepper | s_and_p | speckle.

Section ApplyNoise.
Context {V : Type}.
Variable zero : V.
Variable rng : Type.

(** [random_noise(image, mode=..., var=...)]: draws from the generator
    state and returns the noisy image; [var] is passed or left out. *)
Variable random_noise : noise_mode -> option Q -> rng -> tensor V -> rng * tensor V.

(** [image_array[i,:,:,c]] *)
Definition slice (image : tensor V) (h w i c : nat) : tensor V :=
  Tensor.mk [h; w]
    (fun idx => match idx with
                | [a; b] => val image [i; a; b; c]
                | _ => zero
                end).

(** [noisy_array[i,:,:,c] = src] *)
Definition set_slice (noisy : tensor V) (h w i c : nat) (src : tensor V)
  : result (tensor V) :=
  if Numpy.assignable [h; w] (shape src) then
    Ok (Tensor.mk (shape noisy)
          (fun idx =>
             match idx with
             | [i'; a; b; c'] =>
                 if (i' =? i) && (c' =? c) then Numpy.assigned [h; w] src [a; b]
                 else val noisy idx
             | _ => val noisy idx
             end))
  else Err (ValueError "could not broadcast input array").

(** [noisy_array[...,-1] = image_array[...,-1]] *)
Definition set_last (noisy image : tensor V) (ch : nat) : result (tensor V) :=
  if ch =? 0 then Err IndexError
  else
    Ok (Tensor.mk (shape noisy)
          (fun idx =>
             match idx with
             | [i; a; b; c] => if c =? ch - 1 then val image idx else val noisy idx
             | _ => val noisy idx
             end)).

Definition noise_call (noise_type : noise_mode) (var : Q) (s : rng) (img : tensor V)
  : rng * tensor V :=
  match noise_type with
  | gaussian | speckle => random_noise noise_type (Some var) s img
  | _ => random_noise noise_type None s img
  end.

Definition channel_body (image : tensor V) (h w : nat) (noise_type : noise_mode)
  (var : Q) (i : nat) (st : rng * tensor V) (c : nat) : result (rng * tensor V) :=
  let r := noise_call noise_type var (fst st) (slice image h w i c) in
  do noisy <- set_slice (snd st) h w i c (snd r) in
  Ok (fst r, noisy).

Definition sample_body (image : tensor V) (h w ch : nat) (noise_type : noise_mode)
  (var : Q) (st : rng * tensor V) (i : nat) : result (rng * tensor V) :=
  do st' <- for_each (channel_body image h w noise_type var i) (seq 0 (ch - 1)) st in
  do noisy <- set_last (snd st') image ch in
  Ok (fst st', noisy).

Definition zeros_like (image : tensor V) : tensor V :=
  Tensor.mk (shape image) (fun _ => zero).

(** [process_data] calls it on a 4-d array; the generator state is threaded
    through the calls of [random_noise] in loop order. *)
Definition apply_noise (image_array : tensor V) (noise_type : noise_mode) (var : Q)
  (s : rng) : result (rng * tensor V) :=
  match shape image_array with
  | [n; h; w; ch] =>
      for_each (sample_body image_array h w ch noise_type var) (seq 0 n)
        (s, zeros_like image_array)
  | _ => Err IndexError
  end.

(** *** The calls of [random_noise], one by one

    What the loops are compared with.  With [m] noisy channels per sample,
    call number [k] (counting from 0, samples outermost) is made on channel
    [k mod m] of sample [k / m]; it receives [var] for the modes gaussian
    and speckle only, and the generator state the call before it left. *)

Definition var_passed (noise_type : noise_mode) (var : Q) : option Q :=
  match noise_type with
  | gaussian => Some var
  | speckle => Some var
  | localvar | poisson | salt | pepper | s_and_p => None
  end.

(** Channel [c] of sample [i] as an [h] by [w] image of its own. *)
Definition sample_channel (image : tensor V) (h w i c : nat) : tensor V :=
  Tensor.mk [h; w]
    (fun idx => match idx with
                | [a; b] => val image [i; a; b; c]
                | _ => zero
                end).

(** The generator state before call number [k], starting from [s]. *)
Fixpoint generator_before (image : tensor V) (h w m : nat)
  (noise_type : noise_mode) (var : Q) (s : rng) (k : nat) : rng :=
  match k with
  | 0 => s
  | S k' =>
      fst (random_noise noise_type (var_passed noise_type var)
             (generator_before image h w m noise_type var s k')
             (sample_channel image h w (k' / m) (k' mod m)))
  end.

End ApplyNoise.

(** The positions a loop over the channels below [m] of sample [i] writes. *)
Definition written (i m : nat) (idx : list nat) : Prop :=
  exists a b c, idx = [i; a; b; c] /\ c < m.

End Noise.

(** ** process_data *)

(** [sklearn.preprocessing.MinMaxScaler()] with its default feature range
    (0, 1), on a 2-d array: every column is scaled by its own minimum and
    maximum over the rows; a column whose range is below ten machine
    epsilons counts as constant and is scaled by 1.  The arithmetic is the
    exact one of the rationals, not the rounded one of float64. *)
Module MinMaxScaler.

(** [np.finfo(np.float64).eps], two to the power -52. *)
Definition eps : Q := 1 # 4503599627370496.

Definition qmin (a b : Q) : Q := if Qle_bool a b then a else b.

Definition qmax (a b : Q) : Q := if Qle_bool a b then b else a.

Definition data_min (m : tensor Q) (rows c : nat) : Q :=
  fold_left (fun acc r => qmin acc (val m [r; c])) (seq 1 (rows - 1)) (val m [0; c]).

Definition data_max (m : tensor Q) (rows c : nat) : Q :=
  fold_left (fun acc r => qmax acc (val m [r; c])) (seq 1 (rows - 1)) (val m [0; c]).

(** [_handle_zeros_in_scale]: [scale[scale < 10 * eps] = 1.0] *)
Definition handle_zeros_in_scale (scale : Q) : Q :=
  if Qle_bool (10 * eps) scale then scale else 1%Q.

Definition scale_ (m : tensor Q) (rows c : nat) : Q :=
  ((1 - 0) / handle_zeros_in_scale (data_max m rows c - data_min m rows c))%Q.

Definition min_ (m : tensor Q) (rows c : nat) : Q :=
  (0 - data_min m rows c * scale_ m rows c)%Q.

Definition fit_transform (m : tensor Q) : result (tensor Q) :=
  match shape m with
  | [rows; cols] =>
      if (rows =? 0) || (cols =? 0) then Err (ValueError "Found array with 0 sample(s)")
      else
        Ok (Tensor.mk [rows; cols]
              (fun idx =>
                 match idx with
                 | [r; c] => (val m [r; c] * scale_ m rows c + min_ m rows c)%Q
                 | _ => 0%Q
                 end))
  | _ => Err (ValueError "Expected 2D array")
  end.

End MinMaxScaler.

Module ProcessData.

(** numpy's default integer: 64 bits, two's complement. *)
Definition wrap64 (z : Z) : Z := ((z + 2 ^ 63) mod 2 ^ 64 - 2 ^ 63)%Z.

(** [ts = np.array(self.t_samples); ts[1:] -= 1] for a list of integers
    that fit 64 bits, of which [np.array] makes an array of 64-bit
    integers.  From an empty list it makes an empty array of floats, which
    the subtraction leaves as it is and [take_frames] below refuses. *)
Definition adjust_timesteps (t_samples : list Z) : list Z :=
  match t_samples with
  | [] => []
  | t0 :: rest => t0 :: map (fun t => wrap64 (t - 1)) rest
  end.

(** A position along an axis of extent [n]; negative positions count from
    the end, anything else outside raises. *)
Definition position (n : nat) (i : Z) : result nat :=
  if (0 <=? i)%Z && (i <? Z.of_nat n)%Z then Ok (Z.to_nat i)
  else if (- Z.of_nat n <=? i)%Z && (i <? 0)%Z then Ok (Z.to_nat (i + Z.of_nat n))
  else Err IndexError.

Fixpoint positions (n : nat) (ts : list Z) : result (list nat) :=
  match ts with
  | [] => Ok []
  | t :: rest =>
      do p <- position n t in
      do ps <- positions n rest in
      Ok (p :: ps)
  end.

(** The positions numpy accepts along an axis of extent [T]. *)
Definition frame_in_range (T : nat) (t : Z) : Prop :=
  (- Z.of_nat T <= t < Z.of_nat T)%Z.

(** [y[:, ts]] where [ts] was made by [np.array] from a list of integers.
    From an empty list [np.array] makes an array of floats, which numpy
    refuses as an index. *)
Definition take_frames {V} (y : tensor V) (ts : list Z) : result (tensor V) :=
  match shape y with
  | n :: t :: s =>
      match ts with
      | [] => Err IndexError
      | _ :: _ =>
          do ps <- positions t ts in
          Ok (Tensor.mk (n :: length ps :: s)
                (fun idx =>
                   match idx with
                   | b :: j :: r => val y (b :: nth j ps 0 :: r)
                   | _ => val y idx
                   end))
      end
  | _ => Err IndexError
  end.

(** The data augmentation block (lines 193-201). *)
Definition augment_data {V} (X_data y_data : tensor V) (augment : bool)
  (rotations : Z) : result (tensor V * tensor V) :=
  if augment then
    do xrot <- Numpy.rot90 X_data rotations 1 2 in
    do yrot <- Numpy.rot90 y_data rotations 2 3 in
    do x <- Numpy.concatenate0 X_data xrot in
    do y <- Numpy.concatenate0 y_data yrot in
    Ok (x, y)
  else Ok (X_data, y_data).

(** The pixel of the original image that a rotation by [k] quarter turns
    puts at row [h], column [w] of a [d] by [d] image. *)
Definition rot_source (k : Z) (d h w : nat) : nat * nat :=
  let k := (k mod 4)%Z in
  if (k =? 0)%Z then (h, w)
  else if (k =? 1)%Z then (w, d - 1 - h)
  else if (k =? 2)%Z then (d - 1 - h, d - 1 - w)
  else (d - 1 - w, h).

(** Feature processing (lines 203-204). *)
Definition normalize_features (x : tensor Q) : result (tensor Q) :=
  match shape x with
  | [num; height; width; channels] =>
      do m <- Numpy.reshape x [num * height * width; channels] in
      do s <- MinMaxScaler.fit_transform m in
      Numpy.reshape s (shape x)
  | _ => Err (ValueError "not enough values to unpack")
  end.

(** Target processing (lines 210-211). *)
Definition normalize_targets (y : tensor Q) : result (tensor Q) :=
  match shape y with
  | [num; tsteps; height; width; channels] =>
      do m <- Numpy.reshape_rows y (num * tsteps) in
      do s <- MinMaxScaler.fit_transform m in
      Numpy.reshape s (shape y)
  | _ => Err (ValueError "not enough values to unpack")
  end.

(** The 2-d arrays the two scalers are fitted on: the features with one row
    per sample and pixel and one column per channel, the targets with one
    row per leading index and one column per trailing index. *)
Definition feature_rows (x : tensor Q) (n h w c : nat) : tensor Q :=
  Tensor.mk [n * h * w; c]
    (fun idx => val x (unravel [n; h; w; c] (ravel [n * h * w; c] idx))).

Definition target_rows (y : tensor Q) (lead tail : list nat) : tensor Q :=
  Tensor.mk [Numpy.size lead; Numpy.size tail]
    (fun idx =>
       val y (unravel (lead ++ tail) (ravel [Numpy.size lead; Numpy.size tail] idx))).

(** [a[idx]] for an array of integers [idx]: the rows of [a] at the
    positions listed, in the order listed. *)
Definition take_rows {V} (a : tensor V) (idx : list nat) : result (tensor V) :=
  match shape a with
  | n :: s =>
      if forallb (fun i => i <? n) idx then
        Ok (Tensor.mk (length idx :: s)
              (fun ix =>
                 match ix with
                 | j :: r => val a (nth j idx 0 :: r)
                 | [] => val a []
                 end))
      else Err IndexError
  | [] => Err IndexError
  end.

(** [sklearn.model_selection._split._validate_shuffle_split] for a float
    [test_size] and no [train_size]: the sizes of the train and the test
    part.  The product is the exact one; in float64 it is exact as well for
    a [test_size] such as 0.25. *)
Definition validate_shuffle_split (n_samples : nat) (test_size : Q)
  : result (nat * nat) :=
  if Qle_bool test_size 0 || Qle_bool 1 test_size then
    Err (ValueError "test_size should be in the (0, 1) range")
  else
    let n_test := Z.to_nat (Qceiling (test_size * inject_Z (Z.of_nat n_samples))) in
    let n_train := n_samples - n_test in
    if n_train =? 0 then Err (ValueError "the resulting train set will be empty")
    else Ok (n_train, n_test).

(** What [process_data] leaves on the instance, and the archive it writes
    to [xy_data.npz] when [save_model] is set. *)
Record processed : Type := {
  X_norm : tensor Q;
  y_norm : tensor Q;
  X_train : tensor Q;
  X_test : tensor Q;
  y_train : tensor Q;
  y_test : tensor Q;
  xy_data_npz : option (gmap string (tensor Q))
}.

Section Process.
Variable rng : Type.
Variable random_noise :
  Noise.noise_mode -> option Q -> rng -> tensor Q -> rng * tensor Q.

(** [np.random.choice(range(n), k, replace=False)] for [k <= n]. *)
Variable choice : rng -> nat -> nat -> rng * list nat.

(** [rng.permutation(n)], as [ShuffleSplit] draws it. *)
Variable permutation : rng -> nat -> rng * list nat.

(** [train_test_split(X, y, test_size=test_size)]: one shuffled split; the
    first [n_test] entries of the permutation make the test part, the next
    [n_train] the train part. *)
Definition train_test_split (X y : tensor Q) (test_size : Q) (s : rng)
  : result (rng * (tensor Q * tensor Q * tensor Q * tensor Q)) :=
  match shape X, shape y with
  | n_samples :: _, ny :: _ =>
      if n_samples =? ny then
        do sizes <- validate_shuffle_split n_samples test_size in
        let n_train := fst sizes in
        let n_test := snd sizes in
        let p := permutation s n_samples in
        let ind_test := firstn n_test (snd p) in
        let ind_train := firstn n_train (skipn n_test (snd p)) in
        do X_train <- take_rows X ind_train in
        do X_test <- take_rows X ind_test in
        do y_train <- take_rows y ind_train in
        do y_test <- take_rows y ind_test in
        Ok (fst p, (X_train, X_test, y_train, y_test))
      else Err (ValueError "Found input variables with inconsistent numbers of samples")
  | _, _ => Err (TypeError "Singleton array cannot be considered a valid collection")
  end.

(** [process_data(n_subsample, augment, rotations, add_noise)] on the
    arrays [load_data] stored; the state of the random sources goes in and
    comes out. *)
Definition process_data (self : SpatiotemporalCO2) (X_data y_data : tensor Q)
  (n_subsample : option nat) (augment : bool) (rotations : Z) (add_noise : bool)
  (s : rng) : result (rng * processed) :=
  do xy <- augment_data X_data y_data augment rotations in
  do xn <- normalize_features (fst xy) in
  do noisy <- (if add_noise then
                 Noise.apply_noise 0%Q rng random_noise xn
                   Noise.gaussian (1 # 1000000) s
               else Ok (s, xn)) in
  let X_norm := snd noisy in
  do y_norm <- normalize_targets (snd xy) in
  let ts := adjust_timesteps (t_samples self) in
  do split <-
    match n_subsample with
    | Some k =>
        match shape X_norm with
        | n :: _ =>
            if n <? k then
              Err (ValueError "Cannot take a larger sample than population")
            else
              let idx := choice (fst noisy) n k in
              do X_sub <- take_rows X_norm (snd idx) in
              do y_sub <- take_rows y_norm (snd idx) in
              do y_frames <- take_frames y_sub ts in
              train_test_split X_sub y_frames (test_size self) (fst idx)
        | [] => Err IndexError
        end
    | None =>
        do y_frames <- take_frames y_norm ts in
        train_test_split X_norm y_frames (test_size self) (fst noisy)
    end in
  let '(s', (X_train, X_test, y_train, y_test)) := split in
  Ok (s',
      {| X_norm := X_norm; y_norm := y_norm;
         X_train := X_train; X_test := X_test;
         y_train := y_train; y_test := y_test;
         xy_data_npz :=
           if save_model self then
             Some (<["y_test" := y_test]> (<["y_train" := y_train]>
                   (<["X_test" := X_test]> (<["X_train" := X_train]> ∅))))
           else None |}).

End Process.

(** Per-channel min-max scaling as the specification words it: one minimum
    and one maximum per channel, taken over every sample, frame and pixel. *)
Section PerChannelSpec.

(** All index tuples of a shape, in row-major order. *)
Fixpoint indices (shp : list nat) : list (list nat) :=
  match shp with
  | [] => [[]]
  | d :: s => flat_map (fun i => map (cons i) (indices s)) (seq 0 d)
  end.

Definition channel_values (y : tensor Q) (lead : list nat) (c : nat) : list Q :=
  map (fun idx => val y (idx ++ [c])) (indices lead).

Definition list_min (l : list Q) : Q :=
  match l with
  | [] => 0%Q
  | a :: r => fold_left MinMaxScaler.qmin r a
  end.

Definition list_max (l : list Q) : Q :=
  match l with
  | [] => 0%Q
  | a :: r => fold_left MinMaxScaler.qmax r a
  end.

Definition per_channel_minmax_spec (y : tensor Q) : tensor Q :=
  let lead := removelast (shape y) in
  Tensor.mk (shape y)
    (fun idx =>
       let c := last idx 0 in
       let mn := list_min (channel_values y lead c) in
       let mx := list_max (channel_values y lead c) in
       ((val y idx - mn) / MinMaxScaler.handle_zeros_in_scale (mx - mn))%Q).

(** Per-position scaling: one minimum and one maximum for every pixel and
    channel, taken over the samples and frames only. *)
Definition position_values (y : tensor Q) (lead tail : list nat) : list Q :=
  map (fun idx => val y (idx ++ tail)) (indices lead).

Definition per_position_minmax (y : tensor Q) : tensor Q :=
  let lead := firstn 2 (shape y) in
  Tensor.mk (shape y)
    (fun idx =>
       let tail := skipn 2 idx in
       let mn := list_min (position_values y lead tail) in
       let mx := list_max (position_values y lead tail) in
       ((val y idx - mn) / MinMaxScaler.handle_zeros_in_scale (mx - mn))%Q).

End PerChannelSpec.

End ProcessData.

(** ** SpatiotemporalCO2.__init__ as executed by Python *)

Module Instance.

Inductive value : Type :=
| VStr (s : string)
| VInt (z : Z)
| VFloat (q : Q)
| VBool (b : bool)
| VStrs (l : list string)
| VInts (l : list Z)
| VObject (cls : string)
| VMethod (name : string).

(** Every [def] in the body of [class SpatiotemporalCO2], in source order. *)
Definition class_methods : list string :=
  ["__init__"; "check_tf"; "encoder_layer"; "recurrent_decoder"; "make_model";
   "load_data"; "apply_noise"; "process_data"; "load_preprocessed_xy_train_test";
   "plot_features"; "plot_targets"; "plot_data"; "plot_single_results";
   "latent_space"; "feature_map_animation"; "cumulative_co2"].

(** [self.name]: the instance dictionary first, then the class, which has
    no base other than [object] and no [__getattr__]. *)
Definition getattr (self : gmap string value) (name : string) : result value :=
  match self !! name with
  | Some v => Ok v
  | None =>
      if existsb (String.eqb name) class_methods then Ok (VMethod name)
      else Err (AttributeError name)
  end.

Inductive expr : Type :=
| Const (v : value)
| SelfAttr (name : string).

Definition eval (self : gmap string value) (e : expr) : result value :=
  match e with
  | Const v => Ok v
  | SelfAttr name => getattr self name
  end.

(** [self.attr = rhs] *)
Definition assign (self : gmap string value) (attr : string) (rhs : expr)
  : result (gmap string value) :=
  do v <- eval self rhs in Ok (<[attr := v]> self).

Fixpoint exec (body : list (string * expr)) (self : gmap string value)
  : result (gmap string value) :=
  match body with
  | [] => Ok self
  | (attr, rhs) :: rest => do self' <- assign self attr rhs in exec rest self'
  end.

(** The assignments of [__init__], lines 52-88, in order.  Calls into Keras
    ([K.clear_session], [AdamW], [regularizers.l1]) return objects. *)
Definition init_body : list (string * expr) :=
  [("input_features_dir", Const (VStr "simulations2D/input_features"));
   ("output_targets_dir", Const (VStr "simulations2D/output_targets"));
   ("x_data_labels", Const (VStrs ["Poro"; "LogPerm"; "Facies"; "Wells"]));
   ("y_data_labels", Const (VStrs ["Pressure"; "Saturation"]));
   ("x_cmaps", Const (VStrs ["jet"; "jet"; "viridis"; "binary"]));
   ("y_cmaps", Const (VStrs ["jet"; "jet"]));
   ("err_cmap", Const (VStr "binary"));
   ("latent_cmap", Const (VStrs ["afmhot_r"; "gray"]));
   ("return_data", Const (VBool false));
   ("save_model", Const (VBool true));
   ("n_samples", Const (VInt 1000));
   ("x_channels", Const (VInt 4));
   ("y_channels", Const (VInt 2));
   ("timesteps", Const (VInt 60));
   ("dim", Const (VInt 64));
   ("test_size", Const (VFloat (25 # 100)));
   ("t_samples", Const (VInts [0; 6; 12; 18; 24; 30; 36; 42; 48; 54; 60]%Z));
   ("cnn_filters", Const (VInts [64; 128; 256]%Z));
   ("rnn_filters", Const (VInts [256; 128; 64]%Z));
   ("conv_groups", Const (VInt 1));
   ("rnn_dropout", Const (VFloat (5 # 100)));
   ("up_interp", Const (VStr "nearest"));
   ("optimizer", Const (VObject "AdamW"));
   ("criterion", SelfAttr "custom_loss");
   ("L1L2_split", Const (VFloat (33 # 100)));
   ("ridge_alpha", Const (VFloat (66 # 100)));
   ("regular", Const (VObject "L1"));
   ("leaky_slope", Const (VFloat (25 # 100)));
   ("valid_split", Const (VFloat (20 # 100)));
   ("num_epochs", Const (VInt 100));
   ("batch_size", Const (VInt 50));
   ("lr_decay", Const (VInt 20));
   ("verbose", Const (VInt 0))].

Definition __init__ (self : gmap string value) : result (gmap string value) :=
  exec init_body self.

(** [SpatiotemporalCO2()]: a fresh object, then [__init__]. *)
Definition construct : result (gmap string value) := __init__ ∅.

(** [SpatiotemporalCO2().name]: looking a method up on a new instance. *)
Definition method_of_new_instance (name : string) : result value :=
  do self <- construct in getattr self name.

End Instance.

(** ** The training criterion *)

Module Loss.

Definition mean (l : list R) : R := (fold_right Rplus 0 l / INR (length l))%R.

Definition mean_absolute_error (true pred : list R) : R :=
  mean (map (fun tp => Rabs (fst tp - snd tp)) (combine true pred)).

Definition mean_squared_error (true pred : list R) : R :=
  mean (map (fun tp => ((fst tp - snd tp) * (fst tp - snd tp))%R) (combine true pred)).

Definition l2_penalty (alpha : R) (wts : list R) : R :=
  (alpha * fold_right Rplus 0 (map (fun w => w * w) wts))%R.

(** Modelled from the spec: [custom_loss], the method [__init__] stores in
    [self.criterion]; its body is not part of pix2vid.py.  Section 4.4: a
    convex blend of mean-absolute-error and mean-squared-error with a
    configurable blend fraction ([L1L2_split]), optionally augmented with an
    L2 weight penalty with a coefficient ([ridge_alpha]). *)
Definition custom_loss (L1L2_split : R) (ridge : option (R * list R))
  (true pred : list R) : R :=
  let blend := (L1L2_split * mean_absolute_error true pred
                + (1 - L1L2_split) * mean_squared_error true pred)%R in
  match ridge with
  | None => blend
  | Some (alpha, wts) => (blend + l2_penalty alpha wts)%R
  end.

End Loss.

(** ** Small datasets for the examples *)

Module Datasets.

(** One realization, two frames of 2 by 2 pixels, one channel: the left
    column of pixels holds 0 then 4, the right column 10 then 30. *)
Definition targets : tensor Q :=
  Tensor.mk [1; 2; 2; 2; 1]
    (fun idx =>
       match idx with
       | [_; t; _; w; _] =>
           match t, w with
           | 0, 0 => 0%Q
           | 0, _ => 10%Q
           | _, 0 => 4%Q
           | _, _ => 30%Q
           end
       | _ => 0%Q
       end).

(** One realization, two identical frames: every pixel is constant in time
    but the left column holds 1 and the right column 2. *)
Definition still_targets : tensor Q :=
  Tensor.mk [1; 2; 2; 2; 1]
    (fun idx =>
       match idx with
       | [_; _; _; w; _] => match w with 0 => 1%Q | _ => 2%Q end
       | _ => 0%Q
       end).

(** Two realizations of 1 by 2 pixels with two channels. *)
Definition features : tensor Q :=
  Tensor.mk [2; 1; 2; 2]
    (fun idx =>
       match idx with
       | [n; _; w; c] => inject_Z (Z.of_nat (n * 7 + w * 3 + c * 10))
       | _ => 0%Q
       end).

(** Three 2 by 2 images with three channels, the last one the wells. *)
Definition images : tensor nat :=
  Tensor.mk [3; 2; 2; 3]
    (fun idx =>
       match idx with
       | [i; a; b; c] => 100 * i + 10 * (2 * a + b) + c
       | _ => 0
       end).

(** A counter as generator state; the "noise" adds the counter. *)
Definition counting_noise (m : Noise.noise_mode) (v : option Q) (s : nat)
  (img : tensor nat) : nat * tensor nat :=
  (S s, Tensor.mk (shape img) (fun idx => val img idx + S s)).

(** The same on rational images. *)
Definition counting_noise_Q (m : Noise.noise_mode) (v : option Q) (s : nat)
  (img : tensor Q) : nat * tensor Q :=
  (S s, Tensor.mk (shape img) (fun idx => (val img idx + inject_Z (Z.of_nat (S s)))%Q)).

(** Random sources that count their draws: the permutation is the
    reversed order, the choice the first indices. *)
Definition reversed_order (s k : nat) : nat * list nat := (S s, rev (seq 0 k)).

Definition first_indices (s n k : nat) : nat * list nat := (S s, seq 0 k).

(** One 2 by 2 image with one channel and its two-frame target. *)
Definition X_small : tensor nat :=
  Tensor.mk [1; 2; 2; 1]
    (fun idx => match idx with [_; h; w; _] => 1 + 2 * h + w | _ => 0 end).

Definition y_small : tensor nat :=
  Tensor.mk [1; 2; 2; 2; 1]
    (fun idx => match idx with [_; f; h; w; _] => 10 * f + 1 + 2 * h + w | _ => 0 end).

(** A target with sixty frames, frame [t] holding the number [t]. *)
Definition y_sixty : tensor nat :=
  Tensor.mk [1; 60; 1; 1; 1]
    (fun idx => match idx with [_; t; _; _; _] => t | _ => 0 end).

(** A directory tree holding sample 0 only. *)
Definition one_sample_fs : gmap string (tensor Q) :=
  <["simulations2D/input_features/X_data_0.npy" :=
      Tensor.mk [4; 64; 64] (fun _ => 1%Q)]>
  (<["simulations2D/output_targets/y_data_0.npy" :=
      Tensor.mk [60; 2; 64; 64] (fun _ => 2%Q)]> ∅).

(** A two-sample configuration with 1 by 1 images and two frames. *)
Definition tiny_config : SpatiotemporalCO2 := {|
  input_features_dir := "in";
  output_targets_dir := "out";
  n_samples := 2;
  x_channels := 2;
  y_channels := 1;
  timesteps := 2;
  dim := 1;
  test_size := 25 # 100;
  t_samples := [0; 2]%Z;
  cnn_filters := [64; 128; 256];
  rnn_filters := [256; 128; 64];
  rnn_dropout := 5 # 100;
  L1L2_split := 33 # 100;
  ridge_alpha := 66 # 100;
  leaky_slope := 25 # 100;
  save_model := true;
  X_train_shape := []
|}.

Definition constant_file (shp : list nat) (q : Q) : tensor Q :=
  Tensor.mk shp (fun _ => q).

Definition tiny_fs : gmap string (tensor Q) :=
  <["in/X_data_0.npy" := Tensor.mk [2; 1; 1]
      (fun idx => match idx with [c; _; _] => inject_Z (Z.of_nat (5 + c)) | _ => 0%Q end)]>
  (<["out/y_data_0.npy" := constant_file [2; 1; 1; 1] 7%Q]>
  (<["in/X_data_1.npy" := constant_file [2; 1; 1] 8%Q]>
  (<["out/y_data_1.npy" := constant_file [2; 1; 1; 1] 9%Q]> ∅))).

(** A tree whose first feature file holds a single channel plane. *)
Definition plane_fs : gmap string (tensor Q) :=
  <["in/X_data_0.npy" := constant_file [1; 1; 1] 4%Q]>
  (<["out/y_data_0.npy" := constant_file [2; 1; 1; 1] 7%Q]> ∅).

Definition loaded_entries (r : result (tensor Q * tensor Q))
  : option (list nat * list Q * (list nat * list Q)) :=
  match r with
  | Ok (X, y) =>
      Some (shape X, map (val X) (ProcessData.indices (shape X)),
            (shape y, map (val y) (ProcessData.indices (shape y))))
  | Err _ => None
  end.

(** Two 2 by 2 images with the wells channel only, and one with no channel. *)
Definition wells_only : tensor nat :=
  Tensor.mk [2; 2; 2; 1]
    (fun idx => match idx with [i; a; b; _] => 10 * i + 2 * a + b | _ => 0 end).

Definition no_channels : tensor nat := Tensor.mk [1; 2; 2; 0] (fun _ => 0).

(** One 2 by 3 image and its one-frame target. *)
Definition wide : tensor nat :=
  Tensor.mk [1; 2; 3; 1]
    (fun idx => match idx with [_; h; w; _] => 3 * h + w | _ => 0 end).

Definition wide_targets : tensor nat :=
  Tensor.mk [1; 1; 2; 3; 1]
    (fun idx => match idx with [_; _; h; w; _] => 3 * h + w | _ => 0 end).

(** A single column holding 2, 5 and 3. *)
Definition column : tensor Q :=
  Tensor.mk [3; 1]
    (fun idx => match idx with
                | [0; _] => 2%Q
                | [1; _] => 5%Q
                | _ => 3%Q
                end).

(** One 2 by 2 image with one channel, matching [targets]. *)
Definition square_features : tensor Q :=
  Tensor.mk [1; 2; 2; 1]
    (fun idx => match idx with
                | [_; h; w; _] => inject_Z (Z.of_nat (2 * h + w))
                | _ => 0%Q
                end).

(** The files of [tiny_fs], by sample. *)
Definition tiny_X (i : nat) : tensor Q :=
  match i with
  | 0 => Tensor.mk [2; 1; 1]
           (fun idx => match idx with
                       | [c; _; _] => inject_Z (Z.of_nat (5 + c))
                       | _ => 0%Q
                       end)
  | _ => constant_file [2; 1; 1] 8%Q
  end.

Definition tiny_y (i : nat) : tensor Q :=
  match i with
  | 0 => constant_file [2; 1; 1; 1] 7%Q
  | _ => constant_file [2; 1; 1; 1] 9%Q
  end.

(** The entries of an array in row-major order, in lowest terms. *)
Definition entries (t : tensor Q) : list Q :=
  map (fun idx => Qred (val t idx)) (ProcessData.indices (shape t)).

Definition entries_of (r : result (tensor Q)) : option (list Q) :=
  match r with
  | Ok t => Some (entries t)
  | Err _ => None
  end.

End Datasets.

(** ** cumulative_co2 *)

Module CumulativeCO2.

(** The entries of sample [i], in row-major order: [t[i]] flattened. *)
Definition sample_entries (t : tensor Q) (i : nat) : list Q :=
  map (fun idx => val t (i :: idx)) (ProcessData.indices (tl (shape t))).

(** [a[np.where(a > thresh)]] *)
Definition above (thresh : Q) (l : list Q) : list Q :=
  filter (fun v => negb (Qle_bool v thresh)) l.

Definition qsum (l : list Q) : Q := fold_right Qplus 0%Q l.

(** [t[i][np.where(t[i] > thresh)].sum()] *)
Definition co2_of (t : tensor Q) (thresh : Q) (i : nat) : Q :=
  qsum (above thresh (sample_entries t i)).

(** One iteration of the loop: both dictionaries receive key [i].  An
    entry of a 1-d array is a scalar, which cannot be indexed by the result
    of [np.where]; indexing [pred] past its first extent raises as well. *)
Definition co2_body (true pred : tensor Q) (thresh : Q)
  (acc : list Q * list Q) (i : nat) : result (list Q * list Q) :=
  match shape true, shape pred with
  | _ :: _ :: _, np :: _ :: _ =>
      if i <? np then
        Ok (fst acc ++ [co2_of true thresh i], snd acc ++ [co2_of pred thresh i])
      else Err IndexError
  | _, _ => Err IndexError
  end.

(** [compare_cumulative_co2(true, pred, thresh)]: the dictionaries' values
    are listed in insertion order, which is the order of the samples. *)
Definition compare_cumulative_co2 (true pred : tensor Q) (thresh : Q)
  : result (list Q * list Q) :=
  match shape true with
  | n :: _ => for_each (co2_body true pred thresh) (seq 0 n) ([], [])
  | [] => Err IndexError
  end.

End CumulativeCO2.

(** ** The script under [if __name__ == '__main__'] *)

Module Main.

(** The methods the script calls on [proxy], in order (lines 442-456). *)
Definition main_calls : list string :=
  ["check_tensorflow_gpu"; "load_data"; "process_data"; "plot_data";
   "plot_features"; "plot_targets"; "make_model"; "training"; "predictions";
   "plot_single_results"; "cumulative_co2"].

(** Whether looking each of them up on [self] succeeds. *)
Definition resolves (self : gmap string Instance.value) : list (string * bool) :=
  map (fun name => (name, is_ok (Instance.getattr self name))) main_calls.

End Main.

(** * Properties *)

(** ** Arrays and real-valued helpers *)

Lemma sigmoid_bounds (x : R) : (0 < sigmoid x < 1)%R.
Proof.
  unfold sigmoid.
  pose proof (exp_pos (- x)) as He.
  split.
  - apply Rdiv_lt_0_compat; lra.
  - apply (Rmult_lt_reg_r (1 + exp (- x))); [lra|].
    unfold Rdiv. rewrite Rmult_assoc, Rinv_l by lra. lra.
Qed.

Lemma sigmoid_bounds_le (x : R) : (0 <= sigmoid x <= 1)%R.
Proof. pose proof (sigmoid_bounds x). lra. Qed.

Lemma bcast_index_in_bounds (shp idx : list nat) :
  in_bounds idx shp -> bcast_index shp idx = idx.
Proof.
  revert idx. induction shp as [|d shp IH]; intros [|i idx]; simpl; try tauto.
  intros [Hi Hr]. rewrite IH by assumption.
  destruct (Nat.eqb_spec d 1); [f_equal; lia | reflexivity].
Qed.

Lemma bcast_shape_refl (s : list nat) : bcast_shape s s = Some s.
Proof.
  induction s as [|a s IH]; simpl; [reflexivity|].
  rewrite IH, Nat.eqb_refl. reflexivity.
Qed.

(** Broadcasting a per-channel [(n,1,1,c)] array against [(n,h,w,c)]. *)
Lemma bcast_shape_gate (n h w c : nat) :
  bcast_shape [n; h; w; c] [n; 1; 1; c] = Some [n; h; w; c].
Proof.
  simpl. rewrite !Nat.eqb_refl.
  destruct (Nat.eqb_spec h 1), (Nat.eqb_spec w 1); subst; reflexivity.
Qed.

Lemma bcast_index_gate (n h w c b i j k : nat) :
  in_bounds [b; i; j; k] [n; h; w; c] ->
  bcast_index [n; 1; 1; c] [b; i; j; k] = [b; 0; 0; k].
Proof.
  simpl. intros (Hb & _ & _ & Hk & _).
  destruct (Nat.eqb_spec n 1), (Nat.eqb_spec c 1); repeat f_equal; lia.
Qed.

(** ** SqueezeExcite *)

Section SqueezeExciteFacts.
Variable W : weights.

Lemma last_shape4 (n h w c : nat) : last (map Some [n; h; w; c]) None = Some c.
Proof. reflexivity. Qed.

Lemma extents_nonzero (h w : nat) : 0 < h -> 0 < w -> (h =? 0) || (w =? 0) = false.
Proof.
  intros Hh Hw.
  destruct (Nat.eqb_spec h 0); [lia|]. destruct (Nat.eqb_spec w 0); [lia|].
  reflexivity.
Qed.

(** C6. For an input of shape (n,h,w,c) with a non-zero height and width
    and a non-zero ratio the layer succeeds, keeps the shape, and computes
    [input + gate * input] where [gate] depends on the sample and the
    channel only and is a sigmoid activation, hence inside [0,1]: the input
    is always added back, the output is never [gate * input] alone. *)
Theorem SqueezeExcite_additive_residual
  (r n h w c : nat) (inputs : tensor R) (g : list layer) :
  shape inputs = [n; h; w; c] ->
  0 < h -> 0 < w ->
  r <> 0 ->
  exists (out : tensor R) (g' : list layer) (gate : nat -> nat -> R),
    SqueezeExcite W r inputs g = Ok (out, g') /\
    shape out = shape inputs /\
    (forall b k, exists a, gate b k = sigmoid a) /\
    (forall b k, (0 <= gate b k <= 1)%R) /\
    (forall b i j k, in_bounds [b; i; j; k] (shape inputs) ->
       val out [b; i; j; k]
       = (val inputs [b; i; j; k] + gate b k * val inputs [b; i; j; k])%R /\
       (val out [b; i; j; k] - gate b k * val inputs [b; i; j; k]
        = val inputs [b; i; j; k])%R).
Proof.
  intros Hs Hh Hw Hr.
  unfold SqueezeExcite, SqueezeExcite_build.
  rewrite Hs, last_shape4.
  destruct (Nat.eqb_spec r 0) as [->|_]; [congruence|].
  unfold SqueezeExcite_call, GlobalAveragePooling2D.
  rewrite Hs, (extents_nonzero h w Hh Hw).
  cbn [rbind Dense shape excite1_units excite2_units lift_last last map Reshape
       fold_right].
  replace (c * 1 =? 1 * (1 * (c * 1))) with true
    by (symmetry; apply Nat.eqb_eq; lia).
  unfold Multiply, Add, elementwise. cbn [rbind shape].
  rewrite Hs, bcast_shape_gate. cbn [rbind shape].
  rewrite ?Hs, bcast_shape_refl.
  eexists _, _, (fun b k => sigmoid _).
  split; [reflexivity|]. cbn [shape val].
  split; [reflexivity|].
  split; [intros b k; eexists; reflexivity|].
  split; [intros b k; apply sigmoid_bounds_le|].
  intros b i j k Hb.
  rewrite !(bcast_index_in_bounds _ _ Hb).
  rewrite (bcast_index_gate _ _ _ _ _ _ _ _ Hb).
  cbn [ravel unravel fold_right].
  destruct Hb as (_ & _ & _ & Hk & _).
  replace ((0 * (1 * (c * 1)) + (0 * (c * 1) + (k * 1 + 0))) / 1 mod c) with k.
  2:{ rewrite Nat.div_1_r.
      replace (0 * (1 * (c * 1)) + (0 * (c * 1) + (k * 1 + 0))) with k by lia.
      symmetry; apply Nat.mod_small; exact Hk. }
  split.
  - rewrite (Rmult_comm (val inputs _) (sigmoid _)). reflexivity.
  - ring.
Qed.

End SqueezeExciteFacts.

(** ** Running the graph builder *)

Section BuilderFacts.
Variable W : weights.

Lemma bind_ok {A B} (c : build A) (k : A -> build B) g a g' :
  c g = Ok (a, g') -> bind c k g = k a g'.
Proof. unfold bind. intros ->. reflexivity. Qed.

Lemma sigmoid_valued_unit (t : tensor R) : sigmoid_valued t -> unit_valued t.
Proof. intros H idx. destruct (H idx) as [a ->]. apply sigmoid_bounds_le. Qed.

Lemma shape_eqb_refl (s : list nat) : shape_eqb s s = true.
Proof. induction s as [|a s IH]; simpl; [|rewrite Nat.eqb_refl]; auto. Qed.

Lemma shape_eqb_eq (s1 s2 : list nat) : shape_eqb s1 s2 = true -> s1 = s2.
Proof.
  revert s2. induction s1 as [|a s1 IH]; intros [|b s2]; simpl; try easy.
  intros H. apply andb_prop in H as [Hab Hs]. apply Nat.eqb_eq in Hab.
  f_equal; auto.
Qed.

Lemma SqueezeExcite_run (r n h w c : nat) (inputs : tensor R) (g : list layer) :
  shape inputs = [n; h; w; c] ->
  0 < h -> 0 < w ->
  r <> 0 ->
  exists out,
    SqueezeExcite W r inputs g = Ok (out, g ++ [SqueezeExcite_ r c (c / r) c]) /\
    shape out = [n; h; w; c].
Proof.
  intros Hs Hh Hw Hr.
  unfold SqueezeExcite, SqueezeExcite_build.
  rewrite Hs, last_shape4.
  destruct (Nat.eqb_spec r 0) as [->|_]; [congruence|].
  unfold SqueezeExcite_call, GlobalAveragePooling2D.
  rewrite Hs, (extents_nonzero h w Hh Hw).
  cbn [rbind Dense shape excite1_units excite2_units lift_last last map Reshape
       fold_right].
  replace (c * 1 =? 1 * (1 * (c * 1))) with true
    by (symmetry; apply Nat.eqb_eq; lia).
  unfold Multiply, Add, elementwise. cbn [rbind shape].
  rewrite Hs, bcast_shape_gate. cbn [rbind shape].
  rewrite ?Hs, bcast_shape_refl.
  eexists. split; reflexivity.
Qed.

Lemma MaxPooling2D_run (n h w c : nat) (inp : tensor R) (g : list layer) :
  shape inp = [n; h; w; c] -> 2 <= h -> 2 <= w ->
  exists out,
    MaxPooling2D inp g = Ok (out, g ++ [MaxPooling2D_]) /\
    shape out = [n; (h - 2) / 2 + 1; (w - 2) / 2 + 1; c].
Proof.
  intros Hs Hh Hw. unfold MaxPooling2D. rewrite Hs.
  apply Nat.leb_le in Hh, Hw. rewrite Hh, Hw. cbn.
  eexists. split; reflexivity.
Qed.

(** Shape and layers of one encoder stage. *)
Lemma encoder_layer_run (self : SpatiotemporalCO2) (n h w c filt : nat)
  (inp : tensor R) (g : list layer) :
  shape inp = [n; h; w; c] -> 2 <= h -> 2 <= w -> 0 < filt ->
  exists out,
    Model.encoder_layer W self inp filt g
    = Ok (out, g ++ encoder_layers filt (rnn_dropout self)) /\
    shape out = [n; (h - 2) / 2 + 1; (w - 2) / 2 + 1; filt].
Proof.
  intros Hs Hh Hw Hf. unfold Model.encoder_layer.
  assert (E1 : SeparableConv2D W filt 3 same inp g
               = Ok (Tensor.mk [n; h; w; filt]
                       (layer_fn W (length g) (SeparableConv2D_ filt 3 same) inp),
                     g ++ [SeparableConv2D_ filt 3 same])).
  { unfold SeparableConv2D. rewrite Hs. reflexivity. }
  rewrite (bind_ok _ _ _ _ _ E1).
  destruct (SqueezeExcite_run filt n h w filt (Tensor.mk [n; h; w; filt]
              (layer_fn W (length g) (SeparableConv2D_ filt 3 same) inp))
              (g ++ [SeparableConv2D_ filt 3 same]) eq_refl ltac:(lia) ltac:(lia)
              ltac:(lia))
    as (x2 & E2 & S2).
  rewrite (bind_ok _ _ _ _ _ E2).
  unfold GroupNormalization at 1. unfold bind at 1. unfold weighted at 1.
  unfold PReLU at 1. unfold bind at 1. unfold weighted at 1. cbn [shape].
  rewrite S2.
  match goal with
  | |- context [bind MaxPooling2D ?x ?k ?g0] => idtac
  | |- context [bind (MaxPooling2D ?x) ?k ?g0] =>
      destruct (MaxPooling2D_run n h w filt x g0 eq_refl Hh Hw) as (x5 & E5 & S5);
      rewrite (bind_ok _ _ _ _ _ E5)
  end.
  unfold SpatialDropout2D, bind, weighted, ret. rewrite S5.
  eexists. split.
  - unfold encoder_layers. rewrite <- !app_assoc. reflexivity.
  - reflexivity.
Qed.

End BuilderFacts.

Section LayerFacts.
Variable W : weights.

Lemma ConvLSTM2D_run (filt n t h w c : nat) (inp : tensor R) (g : list layer) :
  shape inp = [n; t; h; w; c] ->
  exists out,
    ConvLSTM2D W filt 3 same inp g = Ok (out, g ++ [ConvLSTM2D_ filt 3 same]) /\
    shape out = [n; h; w; filt].
Proof.
  intros Hs. unfold ConvLSTM2D. rewrite Hs. eexists. split; reflexivity.
Qed.

Lemma GroupNormalization_run (groups : Z) (inp : tensor R) (g : list layer) :
  exists out,
    GroupNormalization W groups inp g = Ok (out, g ++ [GroupNormalization_ groups]) /\
    shape out = shape inp.
Proof. eexists. split; reflexivity. Qed.

Lemma LeakyReLU_run (slope : Q) (inp : tensor R) (g : list layer) :
  exists out,
    LeakyReLU slope inp g = Ok (out, g ++ [LeakyReLU_ slope]) /\
    shape out = shape inp.
Proof. eexists. split; reflexivity. Qed.

Lemma Conv2DTranspose_run (filt strides n h w c : nat) (inp : tensor R)
  (g : list layer) :
  shape inp = [n; h; w; c] ->
  exists out,
    Conv2DTranspose W filt 3 same strides inp g
    = Ok (out, g ++ [Conv2DTranspose_ filt 3 same strides]) /\
    shape out = [n; h * strides; w * strides; filt].
Proof.
  intros Hs. unfold Conv2DTranspose. rewrite Hs. eexists. split; reflexivity.
Qed.

Lemma SpatialDropout2D_run (rate : Q) (n h w c : nat) (inp : tensor R)
  (g : list layer) :
  shape inp = [n; h; w; c] ->
  exists out,
    SpatialDropout2D W rate inp g = Ok (out, g ++ [SpatialDropout2D_ rate]) /\
    shape out = [n; h; w; c].
Proof.
  intros Hs. unfold SpatialDropout2D. rewrite Hs. eexists.
  split; reflexivity.
Qed.

Lemma Conv2D_run (filt n h w c : nat) (inp : tensor R) (g : list layer) :
  shape inp = [n; h; w; c] ->
  exists out,
    Conv2D W filt 3 same inp g = Ok (out, g ++ [Conv2D_ filt 3 same]) /\
    shape out = [n; h; w; filt].
Proof.
  intros Hs. unfold Conv2D. rewrite Hs. eexists. split; reflexivity.
Qed.

Lemma Activation_sigmoid_run (inp : tensor R) (g : list layer) :
  exists out,
    Activation "sigmoid" inp g = Ok (out, g ++ [Activation_ "sigmoid"]) /\
    shape out = shape inp /\ sigmoid_valued out.
Proof.
  eexists. split; [reflexivity|]. split; [reflexivity|].
  intros idx. eexists. reflexivity.
Qed.

(** [Concatenate()] joins along the last axis. *)
Lemma Concatenate_channels_run (n h w c1 c2 : nat) (a b : tensor R)
  (g : list layer) :
  shape a = [n; h; w; c1] -> shape b = [n; h; w; c2] ->
  exists out,
    Concatenate (-1) a b g = Ok (out, g ++ [Concatenate_ (-1)]) /\
    shape out = [n; h; w; c1 + c2].
Proof.
  intros Ha Hb. unfold Concatenate, rank. rewrite Ha, Hb.
  cbn [length]. change (norm_axis (-1) 4) with 3.
  cbn [same_but shape_eqb]. rewrite !Nat.eqb_refl. cbn [andb Nat.ltb Nat.leb].
  eexists. split; reflexivity.
Qed.

(** [Concatenate(axis=1)] appends one frame to a sequence of [k] frames; a
    property of all entries of both arguments holds of all entries of the
    result. *)
Lemma Concatenate_time_run (P : R -> Prop) (n k h w c : nat) (a b : tensor R)
  (g : list layer) :
  shape a = [n; k; h; w; c] -> shape b = [n; 1; h; w; c] ->
  (forall idx, P (val a idx)) -> (forall idx, P (val b idx)) ->
  exists out,
    Concatenate 1 a b g = Ok (out, g ++ [Concatenate_ 1]) /\
    shape out = [n; k + 1; h; w; c] /\
    (forall idx, P (val out idx)).
Proof.
  intros Ha Hb Pa Pb. unfold Concatenate, rank. rewrite Ha, Hb.
  cbn [length]. change (norm_axis 1 5) with 1.
  cbn [same_but shape_eqb]. rewrite !Nat.eqb_refl. cbn [andb Nat.ltb Nat.leb].
  eexists. split; [reflexivity|]. split; [reflexivity|].
  intros idx. cbn [val]. unfold concat_val.
  destruct (_ <? _); [apply Pa | apply Pb].
Qed.

Lemma expand_dims_run (P : R -> Prop) (n : nat) (s : list nat) (inp : tensor R)
  (g : list layer) :
  shape inp = n :: s ->
  (forall idx, P (val inp idx)) ->
  exists out,
    expand_dims inp 1 g = Ok (out, g ++ [ExpandDims_ 1]) /\
    shape out = n :: 1 :: s /\
    (forall idx, P (val out idx)).
Proof.
  intros Hs HP. unfold expand_dims, rank. rewrite Hs. cbn [length Nat.leb].
  eexists. split; [reflexivity|]. split; [reflexivity|].
  intros idx. apply HP.
Qed.

End LayerFacts.

(** ** The recurrent decoder *)

Section DecoderFacts.
Variable W : weights.
Variable self : SpatiotemporalCO2.

Ltac chain lem :=
  let x := fresh "y" in
  let E := fresh "E" in
  let S := fresh "S" in
  destruct lem as (x & E & S);
  rewrite (bind_ok _ _ _ _ _ E); clear E.

Lemma recurrent_step_run (n t h w c cr filt : nat) (inp res : tensor R)
  (g : list layer) :
  shape inp = [n; t; h; w; c] ->
  shape res = [n; h * 2; w * 2; cr] ->
  exists out g',
    Model.recurrent_step W self inp filt res g = Ok (out, g') /\
    shape out = [n; 1; h * 2; w * 2; filt] /\
    sigmoid_valued out.
Proof.
  intros Hs Hr. unfold Model.recurrent_step.
  chain (ConvLSTM2D_run W filt n t h w c inp g Hs).
  chain (GroupNormalization_run W (-1) y (g ++ [ConvLSTM2D_ filt 3 same])).
  rewrite S in S0.
  match goal with |- context [bind (LeakyReLU ?s ?x) _ ?g0] =>
    chain (LeakyReLU_run s x g0) end.
  rewrite S0 in S1.
  match goal with |- context [bind (Conv2DTranspose _ _ _ _ _ ?x) _ ?g0] =>
    chain (Conv2DTranspose_run W filt 2 n h w filt x g0 S1) end.
  match goal with |- context [bind (SpatialDropout2D _ ?r ?x) _ ?g0] =>
    chain (SpatialDropout2D_run W r _ _ _ _ x g0 S2) end.
  match goal with |- context [bind (Concatenate _ ?x _) _ ?g0] =>
    chain (Concatenate_channels_run _ _ _ _ _ x res g0 S3 Hr) end.
  match goal with |- context [bind (Conv2D _ _ _ _ ?x) _ ?g0] =>
    chain (Conv2D_run W filt _ _ _ _ x g0 S4) end.
  match goal with |- context [bind (Activation _ ?x) _ ?g0] =>
    destruct (Activation_sigmoid_run x g0) as (y7 & E7 & S7 & V7);
    rewrite (bind_ok _ _ _ _ _ E7); clear E7 end.
  rewrite S5 in S7.
  match goal with |- context [bind (expand_dims ?x 1) _ ?g0] =>
    destruct (expand_dims_run (fun v => exists a, v = sigmoid a) _ _ x g0 S7 V7)
      as (y8 & E8 & S8 & V8);
    rewrite (bind_ok _ _ _ _ _ E8); clear E8 end.
  unfold ret. eexists _, _. split; [reflexivity|]. split; assumption.
Qed.

Lemma recurrent_last_run (n t h w c filt : nat) (inp : tensor R) (g : list layer) :
  shape inp = [n; t; h; w; c] ->
  exists out g',
    Model.recurrent_last W self inp filt g = Ok (out, g') /\
    shape out = [n; 1; h * 2; w * 2; y_channels self] /\
    sigmoid_valued out.
Proof.
  intros Hs. unfold Model.recurrent_last.
  chain (ConvLSTM2D_run W filt n t h w c inp g Hs).
  chain (GroupNormalization_run W (-1) y (g ++ [ConvLSTM2D_ filt 3 same])).
  rewrite S in S0.
  match goal with |- context [bind (LeakyReLU ?s ?x) _ ?g0] =>
    chain (LeakyReLU_run s x g0) end.
  rewrite S0 in S1.
  match goal with |- context [bind (Conv2DTranspose _ _ _ _ _ ?x) _ ?g0] =>
    chain (Conv2DTranspose_run W filt 2 n h w filt x g0 S1) end.
  match goal with |- context [bind (SpatialDropout2D _ ?r ?x) _ ?g0] =>
    chain (SpatialDropout2D_run W r _ _ _ _ x g0 S2) end.
  match goal with |- context [bind (Conv2D _ ?f _ _ ?x) _ ?g0] =>
    chain (Conv2D_run W f _ _ _ _ x g0 S3) end.
  match goal with |- context [bind (Activation _ ?x) _ ?g0] =>
    destruct (Activation_sigmoid_run x g0) as (y7 & E7 & S7 & V7);
    rewrite (bind_ok _ _ _ _ _ E7); clear E7 end.
  rewrite S4 in S7.
  match goal with |- context [bind (expand_dims ?x 1) _ ?g0] =>
    destruct (expand_dims_run (fun v => exists a, v = sigmoid a) _ _ x g0 S7 V7)
      as (y8 & E8 & S8 & V8);
    rewrite (bind_ok _ _ _ _ _ E8); clear E8 end.
  unfold ret. eexists _, _. split; [reflexivity|]. split; assumption.
Qed.

(** One decoder invocation: from the bottleneck latent and the two skip
    residuals it emits one frame of twice-twice-twice the latent's spatial
    extent, appended to the previous frames when there are any. *)
Lemma recurrent_decoder_run (n h w c c2 c1 f0 f1 f2 k : nat)
  (z3 z2 z1 : tensor R) (prev : option (tensor R)) (g : list layer) :
  rnn_filters self = [f0; f1; f2] ->
  shape z3 = [n; h; w; c] ->
  shape z2 = [n; h * 2; w * 2; c2] ->
  shape z1 = [n; h * 2 * 2; w * 2 * 2; c1] ->
  match prev with
  | None => k = 0
  | Some p => shape p = [n; k; h * 2 * 2 * 2; w * 2 * 2 * 2; y_channels self]
              /\ sigmoid_valued p
  end ->
  exists out g',
    Model.recurrent_decoder W self z3 [z2; z1] prev g = Ok (out, g') /\
    shape out = [n; k + 1; h * 2 * 2 * 2; w * 2 * 2 * 2; y_channels self] /\
    sigmoid_valued out.
Proof.
  intros Hf H3 H2 H1 Hp. unfold Model.recurrent_decoder.
  destruct (expand_dims_run (fun _ => True) n [h; w; c] z3 g H3 (fun _ => I))
    as (x0 & E0 & S0 & _).
  rewrite (bind_ok _ _ _ _ _ E0); clear E0.
  rewrite Hf. unfold index at 1 2. cbn [nth_error].
  unfold bind at 1 2. unfold ret at 1 2. cbn beta iota.
  match goal with |- context [bind (Model.recurrent_step _ _ ?x ?f ?r) _ ?g0] =>
    destruct (recurrent_step_run n 1 h w c c2 f x r g0 S0 H2)
      as (x1 & g1 & E1 & S1 & _);
    rewrite (bind_ok _ _ _ _ _ E1); clear E1 end.
  unfold index at 1 2. cbn [nth_error].
  unfold bind at 1 2. unfold ret at 1 2. cbn beta iota.
  match goal with |- context [bind (Model.recurrent_step _ _ ?x ?f ?r) _ ?g0] =>
    destruct (recurrent_step_run n 1 (h * 2) (w * 2) f0 c1 f x r g0 S1 H1)
      as (x2 & g2 & E2 & S2 & _);
    rewrite (bind_ok _ _ _ _ _ E2); clear E2 end.
  unfold index at 1. cbn [nth_error].
  unfold bind at 1. unfold ret at 1. cbn beta iota.
  match goal with |- context [bind (Model.recurrent_last _ _ ?x ?f) _ ?g0] =>
    destruct (recurrent_last_run n 1 (h * 2 * 2) (w * 2 * 2) f1 f x g0 S2)
      as (x3 & g3 & E3 & S3 & V3);
    rewrite (bind_ok _ _ _ _ _ E3); clear E3 end.
  destruct prev as [p|].
  - destruct Hp as [Sp Vp].
    destruct (Concatenate_time_run (fun v => exists a, v = sigmoid a)
                _ _ _ _ _ p x3 g3 Sp S3 Vp V3) as (out & E & S & V).
    eexists _, _. split; [exact E|]. split; assumption.
  - subst k. unfold ret. eexists _, _. split; [reflexivity|]. split; assumption.
Qed.

End DecoderFacts.

(** ** The composite model *)

Section ModelFacts.
Variable W : weights.

Ltac enc_stage n h c f Hs :=
  unfold index at 1; cbn [nth_error cnn_filters defaults];
  unfold bind at 1; unfold ret at 1; cbn beta iota;
  match goal with |- context [bind (Model.encoder_layer _ ?self ?x _) _ ?g0] =>
    let z := fresh "z" in
    let E := fresh "E" in
    let S := fresh "Sz" in
    destruct (encoder_layer_run W self n h h c f x g0 Hs
                ltac:(lia) ltac:(lia) ltac:(lia)) as (z & E & S);
    rewrite (bind_ok _ _ _ _ _ E); clear E;
    cbn in S
  end.

Ltac dec_stage k z3 z2 z1 H3 H2 H1 Hp :=
  match goal with
  | |- context [bind (Model.recurrent_decoder _ ?self _ _ ?prev) _ ?g0] =>
      let t := fresh "t" in
      let g := fresh "g" in
      let E := fresh "E" in
      let S := fresh "St" in
      let V := fresh "Vt" in
      destruct (recurrent_decoder_run W self _ 8 8 256 128 64 256 128 64 k
                  z3 z2 z1 prev g0 eq_refl H3 H2 H1 Hp) as (t & g & E & S & V);
      rewrite (bind_ok _ _ _ _ _ E); clear E;
      cbn in S
  end.

(** C1. With the attributes set by the constructor and training inputs of
    shape (M,64,64,4), the model built by [make_model] maps every batch of
    shape (N,64,64,4), whatever the weights, to an array of shape
    (N,11,64,64,2) each of whose entries is a sigmoid activation and hence
    lies in [0,1]. *)
Theorem make_model_output_shape_and_range (M N : nat) (x : tensor R) :
  shape x = [N; 64; 64; 4] ->
  exists (ms : Model.models) (g' : list layer),
    Model.make_model W (defaults [M; 64; 64; 4]) x [] = Ok (ms, g') /\
    shape (Model.model ms) = [N; 11; 64; 64; 2] /\
    sigmoid_valued (Model.model ms) /\
    unit_valued (Model.model ms).
Proof.
  intros Hx. unfold Model.make_model.
  assert (E0 : Input [64; 64; 4] x [] = Ok (x, [InputLayer [64; 64; 4]])).
  { unfold Input. rewrite Hx. reflexivity. }
  cbn [X_train_shape defaults tl].
  rewrite (bind_ok _ _ _ _ _ E0); clear E0.
  enc_stage N 64 4 64 Hx.
  enc_stage N 32 64 128 Sz.
  enc_stage N 16 128 256 Sz0.
  dec_stage 0 z1 z0 z Sz1 Sz0 Sz (eq_refl 0).
  dec_stage 1 z1 z0 z Sz1 Sz0 Sz (conj St Vt).
  dec_stage 2 z1 z0 z Sz1 Sz0 Sz (conj St0 Vt0).
  dec_stage 3 z1 z0 z Sz1 Sz0 Sz (conj St1 Vt1).
  dec_stage 4 z1 z0 z Sz1 Sz0 Sz (conj St2 Vt2).
  dec_stage 5 z1 z0 z Sz1 Sz0 Sz (conj St3 Vt3).
  dec_stage 6 z1 z0 z Sz1 Sz0 Sz (conj St4 Vt4).
  dec_stage 7 z1 z0 z Sz1 Sz0 Sz (conj St5 Vt5).
  dec_stage 8 z1 z0 z Sz1 Sz0 Sz (conj St6 Vt6).
  dec_stage 9 z1 z0 z Sz1 Sz0 Sz (conj St7 Vt7).
  dec_stage 10 z1 z0 z Sz1 Sz0 Sz (conj St8 Vt8).
  unfold ret. eexists _, _. split; [reflexivity|]. cbn [Model.model].
  split; [exact St9|]. split; [exact Vt9|].
  apply sigmoid_valued_unit, Vt9.
Qed.

End ModelFacts.

(** ** The encoder stage and its squeeze-excite bottleneck *)

Section EncoderFacts.
Variable W : weights.
Variable self : SpatiotemporalCO2.

(** C10. [encoder_layer] hands the stage's filter count to [SqueezeExcite]
    as its ratio while the incoming array has that many channels, so for
    every positive filter count the layer is built with
    [channels // ratio = filt // filt = 1] units in its first dense layer,
    and that is the layer the stage adds to the graph right after the
    separable convolution. *)
Theorem encoder_layer_excite_bottleneck_one (n h w c filt : nat)
  (inp : tensor R) (g : list layer) :
  shape inp = [n; h; w; c] -> 2 <= h -> 2 <= w -> 0 < filt ->
  SqueezeExcite_build filt [n; h; w; filt]
  = Ok {| ratio := filt; excite1_units := 1; excite2_units := filt |} /\
  exists out g',
    Model.encoder_layer W self inp filt g = Ok (out, g') /\
    nth_error g' (length g) = Some (SeparableConv2D_ filt 3 same) /\
    nth_error g' (length g + 1) = Some (SqueezeExcite_ filt filt 1 filt).
Proof.
  intros Hs Hh Hw Hf.
  assert (Hd : filt / filt = 1) by (apply Nat.div_same; lia).
  split.
  - unfold SqueezeExcite_build. rewrite last_shape4.
    destruct (Nat.eqb_spec filt 0); [lia|]. rewrite Hd. reflexivity.
  - destruct (encoder_layer_run W self n h w c filt inp g Hs Hh Hw Hf)
      as (out & E & _).
    exists out, (g ++ encoder_layers filt (rnn_dropout self)).
    split; [exact E|]. unfold encoder_layers. rewrite Hd.
    split.
    + rewrite nth_error_app2 by lia. rewrite Nat.sub_diag. reflexivity.
    + rewrite nth_error_app2 by lia.
      replace (length g + 1 - length g) with 1 by lia. reflexivity.
Qed.

End EncoderFacts.

(** ** Examples on concrete inputs *)

Lemma SqueezeExcite_additive_residual_example :
  exists (out : tensor R) (g' : list layer) (gate : nat -> nat -> R),
    SqueezeExcite Examples.zero_weights 4 Examples.feature_map []
    = Ok (out, g') /\
    shape out = shape Examples.feature_map /\
    (forall b k, exists a, gate b k = sigmoid a) /\
    (forall b k, (0 <= gate b k <= 1)%R) /\
    (forall b i j k, in_bounds [b; i; j; k] (shape Examples.feature_map) ->
       val out [b; i; j; k]
       = (val Examples.feature_map [b; i; j; k]
          + gate b k * val Examples.feature_map [b; i; j; k])%R /\
       (val out [b; i; j; k]
        - gate b k * val Examples.feature_map [b; i; j; k]
        = val Examples.feature_map [b; i; j; k])%R).
Proof.
  apply (SqueezeExcite_additive_residual Examples.zero_weights 4 1 2 2 8
           Examples.feature_map []); [reflexivity | lia | lia | discriminate].
Defined.

Lemma make_model_output_example :
  exists (ms : Model.models) (g' : list layer),
    Model.make_model Examples.zero_weights (defaults [750; 64; 64; 4])
      Examples.batch3 [] = Ok (ms, g') /\
    shape (Model.model ms) = [3; 11; 64; 64; 2] /\
    sigmoid_valued (Model.model ms) /\
    unit_valued (Model.model ms).
Proof.
  apply (make_model_output_shape_and_range Examples.zero_weights 750 3
           Examples.batch3); reflexivity.
Defined.

Lemma encoder_layer_excite_bottleneck_example :
  SqueezeExcite_build 64 [3; 64; 64; 64]
  = Ok {| ratio := 64; excite1_units := 1; excite2_units := 64 |} /\
  exists out g',
    Model.encoder_layer Examples.zero_weights (defaults [750; 64; 64; 4])
      Examples.batch3 64 [] = Ok (out, g') /\
    nth_error g' (length (@nil layer)) = Some (SeparableConv2D_ 64 3 same) /\
    nth_error g' (length (@nil layer) + 1) = Some (SqueezeExcite_ 64 64 1 64).
Proof.
  apply (encoder_layer_excite_bottleneck_one Examples.zero_weights
           (defaults [750; 64; 64; 4]) 3 64 64 4 64
           Examples.batch3 []); [reflexivity | lia | lia | lia].
Defined.

(** ** The constructor *)

Section InstanceFacts.
Import Instance.

(** C9. The class defines no [custom_loss]; the twenty-three assignments
    before [self.criterion = self.custom_loss] succeed, that one raises
    [AttributeError], so [SpatiotemporalCO2()] never yields an instance and
    no method can be looked up on one. *)
Theorem constructor_raises_AttributeError :
  ~ In "custom_loss" class_methods /\
  nth_error init_body 23 = Some ("criterion", SelfAttr "custom_loss") /\
  (exists self23,
     exec (firstn 23 init_body) ∅ = Ok self23 /\
     self23 !! "custom_loss" = None /\
     getattr self23 "custom_loss" = Err (AttributeError "custom_loss")) /\
  construct = Err (AttributeError "custom_loss") /\
  (forall self, construct <> Ok self) /\
  (forall name, method_of_new_instance name = Err (AttributeError "custom_loss")).
Proof.
  assert (Hc : construct = Err (AttributeError "custom_loss"))
    by (vm_compute; reflexivity).
  split.
  { cbn. intros H. repeat (destruct H as [H|H]; [discriminate H|]). exact H. }
  split; [reflexivity|].
  split.
  { eexists. split; [cbn [firstn init_body exec assign eval rbind]; reflexivity|].
    split; vm_compute; reflexivity. }
  split; [exact Hc|].
  split.
  - intros self. rewrite Hc. discriminate.
  - intros name. unfold method_of_new_instance. rewrite Hc. reflexivity.
Qed.

End InstanceFacts.

(** ** Timestep subsampling *)

Section TimestepFacts.
Import ProcessData.

Lemma wrap64_small (z : Z) : (- 2 ^ 63 <= z < 2 ^ 63)%Z -> wrap64 z = z.
Proof.
  intros H. unfold wrap64. rewrite Z.mod_small by lia. lia.
Qed.

Lemma adjust_timesteps_rule (t0 : Z) (rest : list Z) :
  Forall (fun t => (- 2 ^ 63 < t < 2 ^ 63)%Z) rest ->
  adjust_timesteps (t0 :: rest) = t0 :: map (fun t => (t - 1)%Z) rest.
Proof.
  intros H. simpl. f_equal. apply map_ext_in. intros t Ht.
  rewrite Forall_forall in H. apply wrap64_small.
  specialize (H t Ht). lia.
Qed.

(** C2. The first index is kept and every later one is decreased by one
    (for indices that fit numpy's 64-bit integers); the configured list
    [0,6,...,60] becomes [0,5,11,...,59], and on targets with 60 frames
    these are the frames [y[:, ts]] selects, in this order. *)
Theorem timestep_indices_shifted {V} (t0 : Z) (rest : list Z) (s : list nat)
  (y : tensor V) (n h w c : nat) :
  Forall (fun t => (- 2 ^ 63 < t < 2 ^ 63)%Z) rest ->
  shape y = [n; 60; h; w; c] ->
  adjust_timesteps (t0 :: rest) = t0 :: map (fun t => (t - 1)%Z) rest /\
  adjust_timesteps (t_samples (defaults s))
  = [0; 5; 11; 17; 23; 29; 35; 41; 47; 53; 59]%Z /\
  exists out,
    take_frames y (adjust_timesteps (t_samples (defaults s))) = Ok out /\
    shape out = [n; 11; h; w; c] /\
    forall b j i k l,
      val out [b; j; i; k; l]
      = val y [b; nth j [0; 5; 11; 17; 23; 29; 35; 41; 47; 53; 59] 0; i; k; l].
Proof.
  intros Hr Hs. split; [apply adjust_timesteps_rule, Hr|].
  split; [reflexivity|].
  unfold take_frames. rewrite Hs.
  change (adjust_timesteps (t_samples (defaults s)))
    with [0; 5; 11; 17; 23; 29; 35; 41; 47; 53; 59]%Z.
  cbv iota.
  change (positions 60 [0; 5; 11; 17; 23; 29; 35; 41; 47; 53; 59]%Z)
    with (@Ok (list nat) [0; 5; 11; 17; 23; 29; 35; 41; 47; 53; 59]).
  cbn [rbind]. eexists. split; [reflexivity|]. split; reflexivity.
Qed.

End TimestepFacts.

(** ** The training criterion *)

Section LossFacts.
Import Loss.
Open Scope R_scope.

(** C5. For a blend fraction in [0,1] the criterion is a real number equal
    to [a * MAE + (1 - a) * MSE], a convex combination (it lies between the
    two errors); with the optional penalty it is that blend plus the
    coefficient times the sum of squared weights.  The configured fraction
    0.33 is in [0,1]. *)
Theorem custom_loss_convex_blend (a alpha : R) (wts true pred : list R)
  (s : list nat) :
  0 <= a <= 1 ->
  custom_loss a None true pred
  = a * mean_absolute_error true pred + (1 - a) * mean_squared_error true pred /\
  Rmin (mean_absolute_error true pred) (mean_squared_error true pred)
  <= custom_loss a None true pred
  <= Rmax (mean_absolute_error true pred) (mean_squared_error true pred) /\
  custom_loss a (Some (alpha, wts)) true pred
  = custom_loss a None true pred
    + alpha * fold_right Rplus 0 (map (fun w => w * w) wts) /\
  0 <= Q2R (L1L2_split (defaults s)) <= 1.
Proof.
  intros Ha. unfold custom_loss, l2_penalty.
  set (mae := mean_absolute_error true pred).
  set (mse := mean_squared_error true pred).
  split; [reflexivity|]. split.
  - unfold Rmin, Rmax. destruct (Rle_dec mae mse); split; nra.
  - split; [reflexivity|].
    cbn [L1L2_split defaults]. unfold Q2R. cbn. lra.
Qed.

End LossFacts.

(** ** Loading the dataset *)

Section LoadingFacts.
Import DataLoading.

Lemma for_each_app {S} (body : S -> nat -> result S) (l1 l2 : list nat) (s : S) :
  for_each body (l1 ++ l2) s = do s' <- for_each body l1 s in for_each body l2 s'.
Proof.
  revert s. induction l1 as [|i l1 IH]; intros s; simpl; [reflexivity|].
  destruct (body s i); simpl; auto.
Qed.

Lemma seq_split_at (i n : nat) :
  i < n -> seq 0 n = seq 0 i ++ i :: seq (S i) (n - S i).
Proof.
  intros H. replace n with (i + S (n - S i)) at 1 by lia.
  rewrite seq_app. reflexivity.
Qed.

(** A sample with a missing file makes its loop iteration raise. *)
Lemma load_sample_missing (self : SpatiotemporalCO2) (fs : gmap string (tensor Q))
  (acc : tensor Q * tensor Q) (i : nat) :
  fs !! X_path self i = None \/ fs !! y_path self i = None ->
  exists e, load_sample self fs acc i = Err e /\
            (fs !! X_path self i = None -> e = FileNotFoundError (X_path self i)).
Proof.
  intros H. unfold load_sample, np_load.
  destruct (fs !! X_path self i) as [a|] eqn:EX.
  - destruct H as [H|H]; [discriminate|]. rewrite H. cbn [rbind].
    destruct (setitem0 (fst acc) i a); cbn [rbind]; eexists; split;
      try reflexivity; discriminate.
  - cbn [rbind]. eexists. split; reflexivity.
Qed.

(** C8. When the feature file or the target file of some sample index below
    [n_samples] is absent, [load_data] raises: it returns no arrays at all,
    so no zero-filled sample is handed on.  If the samples before it loaded
    and it is the feature file that is absent, the exception is
    [FileNotFoundError] for that path. *)
Theorem load_data_missing_file_raises (self : SpatiotemporalCO2)
  (fs : gmap string (tensor Q)) (i : nat) :
  i < n_samples self ->
  fs !! X_path self i = None \/ fs !! y_path self i = None ->
  exists e,
    load_data self fs = Err e /\
    is_ok (load_data self fs) = false /\
    (forall acc,
       for_each (load_sample self fs) (seq 0 i)
         (zeros [n_samples self; x_channels self; dim self; dim self],
          zeros [n_samples self; timesteps self; y_channels self; dim self; dim self])
       = Ok acc ->
       fs !! X_path self i = None ->
       e = FileNotFoundError (X_path self i)).
Proof.
  intros Hi Hm. unfold load_data.
  rewrite (seq_split_at i (n_samples self) Hi), for_each_app.
  destruct (for_each (load_sample self fs) (seq 0 i) _) as [acc|e] eqn:E.
  - cbn [rbind for_each].
    destruct (load_sample_missing self fs acc i Hm) as (e & He & Hx).
    rewrite He. cbn [rbind is_ok]. exists e. split; [reflexivity|].
    split; [reflexivity|]. intros acc' [= <-] HX. auto.
  - cbn [rbind is_ok]. exists e. split; [reflexivity|].
    split; [reflexivity|]. intros acc' H. discriminate H.
Qed.

(** With every file in place the arrays hold the files' contents, channels
    moved last. *)
Example load_data_tiny :
  Datasets.loaded_entries (load_data Datasets.tiny_config Datasets.tiny_fs)
  = Some ([2; 1; 1; 2], [5; 6; 8; 8]%Q, ([2; 2; 1; 1; 1], [7; 7; 9; 9]%Q)).
Proof. vm_compute. reflexivity. Qed.

Example load_data_second_sample_missing :
  load_data (defaults []) Datasets.one_sample_fs
  = Err (FileNotFoundError "simulations2D/input_features/X_data_1.npy").
Proof. vm_compute. reflexivity. Qed.

End LoadingFacts.

(** ** Data augmentation *)

Section AugmentFacts.
Import ProcessData Numpy.
Context {V : Type}.

Lemma concat0_run (a b : tensor V) (n m : nat) (s : list nat) :
  shape a = n :: s -> shape b = m :: s ->
  exists out,
    concatenate0 a b = Ok out /\
    shape out = (n + m) :: s /\
    (forall i r, i < n -> val out (i :: r) = val a (i :: r)) /\
    (forall i r, val out ((n + i) :: r) = val b (i :: r)).
Proof.
  intros Ha Hb. unfold concatenate0, rank. rewrite Ha, Hb.
  cbn [same_but length Nat.ltb Nat.leb]. rewrite shape_eqb_refl. cbn [andb].
  eexists. split; [reflexivity|]. split; [reflexivity|].
  cbn [val]. unfold concat_val, axis_extent. rewrite Ha. cbn [nth].
  split.
  - intros i r Hi. apply Nat.ltb_lt in Hi. rewrite Hi. reflexivity.
  - intros i r. destruct (Nat.ltb_spec (n + i) n); [lia|].
    cbn. replace (n + i - n) with i by lia. reflexivity.
Qed.

Lemma mod4_cases (k : Z) :
  ((k mod 4 = 0) \/ (k mod 4 = 1) \/ (k mod 4 = 2) \/ (k mod 4 = 3))%Z.
Proof. pose proof (Z.mod_pos_bound k 4). lia. Qed.

(** Rotating the two spatial axes of a batch of square images. *)
Lemma rot90_features (X : tensor V) (n d c : nat) (k : Z) :
  shape X = [n; d; d; c] ->
  exists r,
    rot90 X k 1 2 = Ok r /\ shape r = [n; d; d; c] /\
    forall i h w ch,
      val r [i; h; w; ch]
      = val X [i; fst (rot_source k d h w); snd (rot_source k d h w); ch].
Proof.
  intros Hs. unfold rot90, rot_source, rank. rewrite Hs. cbn [length].
  cbn [Nat.eqb Nat.ltb Nat.leb negb orb].
  destruct (mod4_cases k) as [E|[E|[E|E]]]; rewrite E; cbn [Z.eqb Pos.eqb];
    eexists; (split; [reflexivity|]);
    unfold flip, transpose, swap, axis_extent; cbn [shape val]; rewrite ?Hs;
    (split; [reflexivity|]); intros i h w ch; reflexivity.
Qed.

(** Rotating the two spatial axes of a batch of sequences of frames. *)
Lemma rot90_targets (Y : tensor V) (n t d c : nat) (k : Z) :
  shape Y = [n; t; d; d; c] ->
  exists r,
    rot90 Y k 2 3 = Ok r /\ shape r = [n; t; d; d; c] /\
    forall i f h w ch,
      val r [i; f; h; w; ch]
      = val Y [i; f; fst (rot_source k d h w); snd (rot_source k d h w); ch].
Proof.
  intros Hs. unfold rot90, rot_source, rank. rewrite Hs. cbn [length].
  cbn [Nat.eqb Nat.ltb Nat.leb negb orb].
  destruct (mod4_cases k) as [E|[E|[E|E]]]; rewrite E; cbn [Z.eqb Pos.eqb];
    eexists; (split; [reflexivity|]);
    unfold flip, transpose, swap, axis_extent; cbn [shape val]; rewrite ?Hs;
    (split; [reflexivity|]); intros i f h w ch; reflexivity.
Qed.

(** C7. With augmentation on, a corpus of [n] square samples becomes one of
    [2 * n]: the originals, followed by one copy of each whose pixel (h,w)
    is the original's pixel [rot_source k d h w], the same source position
    for the input image and for every frame of its target. *)
Theorem augmentation_doubles_with_matching_rotation
  (X_data y_data : tensor V) (n d c t cy : nat) (k : Z) :
  shape X_data = [n; d; d; c] ->
  shape y_data = [n; t; d; d; cy] ->
  exists x y,
    augment_data X_data y_data true k = Ok (x, y) /\
    shape x = [2 * n; d; d; c] /\
    shape y = [2 * n; t; d; d; cy] /\
    (forall i r, i < n -> val x (i :: r) = val X_data (i :: r) /\
                          val y (i :: r) = val y_data (i :: r)) /\
    (forall i h w ch,
       val x [n + i; h; w; ch]
       = val X_data [i; fst (rot_source k d h w); snd (rot_source k d h w); ch]) /\
    (forall i f h w ch,
       val y [n + i; f; h; w; ch]
       = val y_data [i; f; fst (rot_source k d h w); snd (rot_source k d h w); ch]).
Proof.
  intros HX HY. unfold augment_data.
  destruct (rot90_features X_data n d c k HX) as (xrot & -> & Sx & Vx).
  destruct (rot90_targets y_data n t d cy k HY) as (yrot & -> & Sy & Vy).
  cbn [rbind].
  destruct (concat0_run X_data xrot n n _ HX Sx) as (x & -> & Sx' & Ox & Rx).
  destruct (concat0_run y_data yrot n n _ HY Sy) as (y & -> & Sy' & Oy & Ry).
  cbn [rbind]. exists x, y. split; [reflexivity|].
  replace (2 * n) with (n + n) by lia.
  split; [exact Sx'|]. split; [exact Sy'|].
  split; [intros i r Hi; split; [apply Ox | apply Oy]; exact Hi|].
  split.
  - intros i h w ch. rewrite Rx. apply Vx.
  - intros i f h w ch. rewrite Ry. apply Vy.
Qed.

End AugmentFacts.

(** ** Noise injection *)

Section NoiseFacts.
Import Noise.
Context {V : Type}.
Variable zero : V.
Variable rng : Type.
Variable random_noise : noise_mode -> option Q -> rng -> tensor V -> rng * tensor V.

(** [random_noise] returns an image of the shape it was given. *)
Hypothesis random_noise_shape :
  forall m v s img, shape (snd (random_noise m v s img)) = shape img.

Lemma noise_call_passes_var (mode : noise_mode) (var : Q) (st : rng)
  (img : tensor V) :
  noise_call rng random_noise mode var st img
  = random_noise mode (var_passed mode var) st img.
Proof. destruct mode; reflexivity. Qed.

Lemma call_index (i m c : nat) : c < m -> (i * m + c) / m = i /\ (i * m + c) mod m = c.
Proof.
  intros Hc. split.
  - rewrite Nat.div_add_l by lia. rewrite Nat.div_small by lia. lia.
  - rewrite Nat.add_comm, Nat.Div0.mod_add. apply Nat.mod_small; exact Hc.
Qed.

(** One call moves the generator from the state before it to the state
    before the next one. *)
Lemma generator_step (image : tensor V) (h w m : nat) (mode : noise_mode) (var : Q)
  (s : rng) (i c : nat) :
  c < m ->
  generator_before zero rng random_noise image h w m mode var s (S (i * m + c))
  = fst (random_noise mode (var_passed mode var)
           (generator_before zero rng random_noise image h w m mode var s (i * m + c))
           (sample_channel zero image h w i c)).
Proof.
  intros Hc. cbn [generator_before].
  destruct (call_index i m c Hc) as [-> ->]. reflexivity.
Qed.

Lemma assignable_same (h w : nat) : Numpy.assignable [h; w] [h; w] = true.
Proof.
  unfold Numpy.assignable. cbn. rewrite !Nat.eqb_refl. reflexivity.
Qed.

Lemma assigned_same (h w a b : nat) (src : tensor V) :
  shape src = [h; w] -> a < h -> b < w ->
  Numpy.assigned [h; w] src [a; b] = val src [a; b].
Proof.
  intros Hs Ha Hb. unfold Numpy.assigned. rewrite Hs. cbn.
  destruct (Nat.eqb_spec h 1), (Nat.eqb_spec w 1); repeat f_equal; lia.
Qed.

Section Loops.
Variable image : tensor V.
Variables h w ch' : nat.
Variable mode : noise_mode.
Variable var : Q.
Variable s : rng.

(** The inner loop over the first [m] channels of sample [i]. *)
Lemma channel_loop (i m : nat) (noisy : tensor V) :
  m <= ch' ->
  exists noisy',
    for_each (channel_body zero rng random_noise image h w mode var i) (seq 0 m)
      (generator_before zero rng random_noise image h w ch' mode var s (i * ch'),
       noisy)
    = Ok (generator_before zero rng random_noise image h w ch' mode var s
            (i * ch' + m),
          noisy') /\
    shape noisy' = shape noisy /\
    (forall a b c, a < h -> b < w -> c < m ->
       val noisy' [i; a; b; c]
       = val (snd (random_noise mode (var_passed mode var)
                     (generator_before zero rng random_noise image h w ch'
                        mode var s (i * ch' + c))
                     (sample_channel zero image h w i c)))
           [a; b]) /\
    (forall idx, ~ written i m idx -> val noisy' idx = val noisy idx).
Proof using random_noise_shape.
  induction m as [|m IH]; intros Hm.
  - exists noisy. cbn [seq for_each]. rewrite Nat.add_0_r.
    split; [reflexivity|]. split; [reflexivity|].
    split; [intros; lia | reflexivity].
  - destruct IH as (n1 & E1 & S1 & N1 & F1); [lia|].
    rewrite seq_S, for_each_app, E1. cbn [rbind for_each Nat.add].
    unfold channel_body at 1. cbn [fst snd].
    rewrite noise_call_passes_var.
    change (slice zero image h w i m) with (sample_channel zero image h w i m).
    unfold set_slice. rewrite random_noise_shape.
    cbn [sample_channel shape]. rewrite assignable_same. cbn [rbind].
    replace (i * ch' + S m) with (S (i * ch' + m)) by lia.
    rewrite generator_step by lia.
    eexists. split; [reflexivity|]. cbn [shape val].
    split; [exact S1|]. split.
    + intros a b c Ha Hb Hc. rewrite Nat.eqb_refl. cbn [andb].
      destruct (Nat.eqb_spec c m) as [->|Hne].
      * apply assigned_same; [apply random_noise_shape | lia | lia].
      * apply N1; lia.
    + intros idx Hw.
      assert (Hw1 : ~ written i m idx).
      { intros (a & b & c & -> & Hc). apply Hw. exists a, b, c. split; [reflexivity|lia]. }
      destruct idx as [|i' [|a [|b [|c [|]]]]]; try (apply F1; exact Hw1).
      destruct (Nat.eqb_spec i' i) as [->|]; cbn [andb]; [|apply F1; exact Hw1].
      destruct (Nat.eqb_spec c m) as [->|]; [|apply F1; exact Hw1].
      exfalso. apply Hw. exists a, b, m. split; [reflexivity|lia].
Qed.

(** The outer loop over the first [k] samples. *)
Lemma sample_loop (k : nat) (noisy : tensor V) :
  exists noisy',
    for_each (sample_body zero rng random_noise image h w (S ch') mode var) (seq 0 k)
      (s, noisy)
    = Ok (generator_before zero rng random_noise image h w ch' mode var s (k * ch'),
          noisy') /\
    shape noisy' = shape noisy /\
    (0 < k -> forall i a b, val noisy' [i; a; b; ch'] = val image [i; a; b; ch']) /\
    (forall i a b c, i < k -> a < h -> b < w -> c < ch' ->
       val noisy' [i; a; b; c]
       = val (snd (random_noise mode (var_passed mode var)
                     (generator_before zero rng random_noise image h w ch'
                        mode var s (i * ch' + c))
                     (sample_channel zero image h w i c)))
           [a; b]).
Proof using random_noise_shape.
  induction k as [|k IH].
  - exists noisy. cbn. split; [reflexivity|]. split; [reflexivity|].
    split; intros; lia.
  - destruct IH as (n1 & E1 & S1 & L1 & N1).
    rewrite seq_S, for_each_app, E1. cbn [rbind for_each Nat.add].
    unfold sample_body at 1. cbn [fst snd].
    replace (S ch' - 1) with ch' by lia.
    destruct (channel_loop k ch' n1 (le_n _)) as (n2 & E2 & S2 & N2 & F2).
    rewrite E2. cbn [rbind fst snd]. unfold set_last. cbn [Nat.eqb rbind].
    replace (k * ch' + ch') with (S k * ch') by lia.
    eexists. split; [reflexivity|]. cbn [shape val].
    split; [congruence|]. split.
    + intros _ i a b. replace (S ch' - 1) with ch' by lia.
      rewrite Nat.eqb_refl. reflexivity.
    + intros i a b c Hi Ha Hb Hc. replace (S ch' - 1) with ch' by lia.
      destruct (Nat.eqb_spec c ch'); [lia|].
      destruct (Nat.eq_dec i k) as [->|Hne].
      * apply N2; assumption.
      * rewrite F2.
        -- apply N1; [lia | assumption..].
        -- intros (a' & b' & c' & [= -> -> -> ->] & _). congruence.
Qed.

End Loops.

(** C3. On an array of shape (n,h,w,ch) with at least one channel, for every
    noise mode, [apply_noise] returns an array of the same shape whose last
    channel equals the input's at every sample and pixel.  Every other
    channel [c] of every sample [i] holds the image [random_noise] returns
    for that channel of that sample alone, called with [var] for the modes
    gaussian and speckle and without it otherwise, at the generator state
    left by the calls for the samples before [i] and the channels of [i]
    before [c] ([generator_before]); the state returned is the one after
    all [n * (ch - 1)] calls.  The last position is the only thing that
    sets the copied channel apart. *)
Theorem apply_noise_keeps_wells_channel (image_array : tensor V)
  (n h w ch' : nat) (mode : noise_mode) (var : Q) (s : rng) :
  shape image_array = [n; h; w; S ch'] ->
  (exists noisy,
     apply_noise zero rng random_noise image_array mode var s
     = Ok (generator_before zero rng random_noise image_array h w ch' mode var s
             (n * ch'),
           noisy) /\
     shape noisy = shape image_array /\
     (forall i a b, i < n ->
        val noisy [i; a; b; ch'] = val image_array [i; a; b; ch']) /\
     (forall i a b c, i < n -> a < h -> b < w -> c < ch' ->
        val noisy [i; a; b; c]
        = val (snd (random_noise mode (var_passed mode var)
                      (generator_before zero rng random_noise image_array h w ch'
                         mode var s (i * ch' + c))
                      (sample_channel zero image_array h w i c)))
            [a; b])) /\
  (mode = gaussian \/ mode = speckle -> var_passed mode var = Some var) /\
  (mode <> gaussian -> mode <> speckle -> var_passed mode var = None).
Proof using random_noise_shape.
  intros Hs. split; [|split].
  - unfold apply_noise. rewrite Hs.
    destruct (sample_loop image_array h w ch' mode var s n
                (zeros_like zero image_array))
      as (noisy & E & S & L & N).
    exists noisy. split; [exact E|].
    split; [rewrite S; cbn; congruence|].
    split; [intros i a b Hi; apply L; lia | exact N].
  - intros [-> | ->]; reflexivity.
  - intros Hg Hk. destruct mode; try reflexivity; congruence.
Qed.

End NoiseFacts.

(** ** Min-max normalization *)

Section ScalerFacts.
Import MinMaxScaler.

Lemma qmin_le_l (a b : Q) : (qmin a b <= a)%Q.
Proof.
  unfold qmin. destruct (Qle_bool a b) eqn:E; [apply Qle_refl|].
  destruct (Qlt_le_dec b a) as [H|H]; [apply Qlt_le_weak, H|].
  apply Qle_bool_iff in H. congruence.
Qed.

Lemma qmin_le_r (a b : Q) : (qmin a b <= b)%Q.
Proof.
  unfold qmin. destruct (Qle_bool a b) eqn:E; [|apply Qle_refl].
  apply Qle_bool_iff, E.
Qed.

Lemma qmax_ge_l (a b : Q) : (a <= qmax a b)%Q.
Proof.
  unfold qmax. destruct (Qle_bool a b) eqn:E; [|apply Qle_refl].
  apply Qle_bool_iff, E.
Qed.

Lemma qmax_ge_r (a b : Q) : (b <= qmax a b)%Q.
Proof.
  unfold qmax. destruct (Qle_bool a b) eqn:E; [apply Qle_refl|].
  destruct (Qlt_le_dec b a) as [H|H]; [apply Qlt_le_weak, H|].
  apply Qle_bool_iff in H. congruence.
Qed.

Lemma fold_qmin_le (f : nat -> Q) (l : list nat) (a : Q) :
  (fold_left (fun acc r => qmin acc (f r)) l a <= a)%Q /\
  (forall r, In r l -> fold_left (fun acc r => qmin acc (f r)) l a <= f r)%Q.
Proof.
  revert a. induction l as [|x l IH]; intros a; simpl.
  - split; [apply Qle_refl | tauto].
  - destruct (IH (qmin a (f x))) as [H1 H2]. split.
    + eapply Qle_trans; [exact H1 | apply qmin_le_l].
    + intros r [<-|Hr]; [|apply H2, Hr].
      eapply Qle_trans; [exact H1 | apply qmin_le_r].
Qed.

Lemma fold_qmax_ge (f : nat -> Q) (l : list nat) (a : Q) :
  (a <= fold_left (fun acc r => qmax acc (f r)) l a)%Q /\
  (forall r, In r l -> f r <= fold_left (fun acc r => qmax acc (f r)) l a)%Q.
Proof.
  revert a. induction l as [|x l IH]; intros a; simpl.
  - split; [apply Qle_refl | tauto].
  - destruct (IH (qmax a (f x))) as [H1 H2]. split.
    + eapply Qle_trans; [apply qmax_ge_l | exact H1].
    + intros r [<-|Hr]; [|apply H2, Hr].
      eapply Qle_trans; [apply qmax_ge_r | exact H1].
Qed.

Lemma data_min_le (m : tensor Q) (rows c r : nat) :
  r < rows -> (data_min m rows c <= val m [r; c])%Q.
Proof.
  intros Hr. unfold data_min.
  destruct (fold_qmin_le (fun r => val m [r; c]) (seq 1 (rows - 1)) (val m [0; c]))
    as [H0 H1].
  destruct r as [|r]; [exact H0|]. apply H1, in_seq. lia.
Qed.

Lemma data_max_ge (m : tensor Q) (rows c r : nat) :
  r < rows -> (val m [r; c] <= data_max m rows c)%Q.
Proof.
  intros Hr. unfold data_max.
  destruct (fold_qmax_ge (fun r => val m [r; c]) (seq 1 (rows - 1)) (val m [0; c]))
    as [H0 H1].
  destruct r as [|r]; [exact H0|]. apply H1, in_seq. lia.
Qed.

Lemma handle_zeros_cases (a : Q) :
  ((10 * eps <= a)%Q /\ handle_zeros_in_scale a = a) \/
  ((a < 10 * eps)%Q /\ handle_zeros_in_scale a = 1%Q).
Proof.
  unfold handle_zeros_in_scale. destruct (Qle_bool (10 * eps) a) eqn:E.
  - left. split; [apply Qle_bool_iff, E | reflexivity].
  - right. split; [|reflexivity]. apply Qnot_le_lt. intros H.
    apply Qle_bool_iff in H. congruence.
Qed.

Lemma eps_small : (0 < 10 * eps /\ 10 * eps <= 1)%Q.
Proof. unfold eps. split; [reflexivity | discriminate]. Qed.

Lemma handle_zeros_positive (a : Q) : (0 < handle_zeros_in_scale a)%Q.
Proof.
  pose proof eps_small as [He _].
  destruct (handle_zeros_cases a) as [[H ->]|[_ ->]]; lra.
Qed.

(** In exact arithmetic the scaler maps every entry into [0,1]. *)
Lemma fit_transform_unit_range (m : tensor Q) (rows cols : nat) :
  shape m = [rows; cols] -> 0 < rows -> 0 < cols ->
  exists out,
    fit_transform m = Ok out /\ shape out = [rows; cols] /\
    forall r c, r < rows -> (0 <= val out [r; c] <= 1)%Q.
Proof.
  intros Hs Hr Hc. unfold fit_transform. rewrite Hs.
  destruct (Nat.eqb_spec rows 0); [lia|]. destruct (Nat.eqb_spec cols 0); [lia|].
  cbn [orb]. eexists. split; [reflexivity|]. split; [reflexivity|].
  intros r c Hrr. cbn [val]. unfold min_, scale_.
  pose proof (data_min_le m rows c r Hrr) as Hlo.
  pose proof (data_max_ge m rows c r Hrr) as Hhi.
  set (mn := data_min m rows c) in *. set (mx := data_max m rows c) in *.
  set (v := val m [r; c]) in *.
  pose proof eps_small as [He0 He1].
  destruct (handle_zeros_cases (mx - mn)) as [[E ->]|[E ->]].
  2:{ assert (Hv : (v * ((1 - 0) / 1) + (0 - mn * ((1 - 0) / 1)) == v - mn)%Q) by field.
      rewrite Hv. split; lra. }
  - assert (Hpos : (0 < mx - mn)%Q) by lra.
    assert (Hv : (v * ((1 - 0) / (mx - mn)) + (0 - mn * ((1 - 0) / (mx - mn)))
                  == (v - mn) / (mx - mn))%Q) by (field; lra).
    rewrite Hv. split.
    + apply Qle_shift_div_l; [exact Hpos | lra].
    + apply Qle_shift_div_r; [exact Hpos | lra].
Qed.

End ScalerFacts.

Section NormalizationFacts.
Import ProcessData Datasets.

(** C4. The input tensor is scaled channel by channel, but the target
    tensor is not: its scaler sees one column per pixel and channel, so
    every pixel is scaled by its own minimum and maximum over samples and
    frames.  On [targets] the code returns 0 for both pixels of the first
    frame and 1 for both of the second, where per-channel scaling (minimum
    0, maximum 30) gives 0, 1/3 and 2/15, 1; on [still_targets], whose one
    channel is not constant, the code returns zeros only, so the channel
    never attains 1. *)
Theorem normalize_targets_scales_per_pixel :
  entries_of (normalize_features features)
  = Some (entries (per_channel_minmax_spec features)) /\
  entries_of (normalize_targets targets)
  = Some [0; 0; 0; 0; 1; 1; 1; 1]%Q /\
  entries (per_channel_minmax_spec targets)
  = [0; 1 # 3; 0; 1 # 3; 2 # 15; 1; 2 # 15; 1]%Q /\
  entries_of (normalize_targets still_targets)
  = Some [0; 0; 0; 0; 0; 0; 0; 0]%Q /\
  entries (per_channel_minmax_spec still_targets)
  = [0; 1; 0; 1; 0; 1; 0; 1]%Q.
Proof. repeat split; vm_compute; reflexivity. Qed.

(** In exact arithmetic both normalised tensors lie in [0,1] everywhere. *)
Lemma normalize_features_unit_range (x : tensor Q) (n h w c : nat) :
  shape x = [n; h; w; c] -> 0 < n * h * w -> 0 < c ->
  exists out,
    normalize_features x = Ok out /\ shape out = shape x /\
    forall idx, (0 <= val out idx <= 1)%Q.
Proof.
  intros Hs Hr Hc. unfold normalize_features. rewrite Hs.
  unfold Numpy.reshape at 1. rewrite Hs.
  assert (Hz : Numpy.size [n; h; w; c] = Numpy.size [n * h * w; c])
    by (unfold Numpy.size; cbn [fold_right]; ring).
  rewrite Hz, Nat.eqb_refl. cbn [rbind].
  match goal with |- context [MinMaxScaler.fit_transform ?m] =>
    destruct (fit_transform_unit_range m (n * h * w) c eq_refl Hr Hc)
      as (sc & -> & Ss & Vs) end.
  cbn [rbind]. unfold Numpy.reshape. rewrite Ss, <- Hz, Nat.eqb_refl.
  eexists. split; [reflexivity|]. split; [reflexivity|].
  intros idx. cbn [val unravel]. apply Vs. apply Nat.mod_upper_bound. lia.
Qed.

Lemma normalize_targets_unit_range (y : tensor Q) (n t h w c : nat) :
  shape y = [n; t; h; w; c] -> 0 < n * t -> 0 < h * w * c ->
  exists out,
    normalize_targets y = Ok out /\ shape out = shape y /\
    forall idx, (0 <= val out idx <= 1)%Q.
Proof.
  intros Hs Hr Hc. unfold normalize_targets. rewrite Hs.
  unfold Numpy.reshape_rows. rewrite Hs.
  assert (Hz : Numpy.size [n; t; h; w; c] = (h * w * c) * (n * t))
    by (unfold Numpy.size; cbn [fold_right]; ring).
  rewrite Hz, Nat.Div0.mod_mul, Nat.div_mul by lia.
  destruct (Nat.eqb_spec (n * t) 0); [lia|]. cbn [Nat.eqb negb orb].
  unfold Numpy.reshape at 1. rewrite Hs.
  assert (Hz' : Numpy.size [n; t; h; w; c] = Numpy.size [n * t; h * w * c])
    by (unfold Numpy.size; cbn [fold_right]; ring).
  rewrite Hz', Nat.eqb_refl. cbn [rbind].
  match goal with |- context [MinMaxScaler.fit_transform ?m] =>
    destruct (fit_transform_unit_range m (n * t) (h * w * c) eq_refl Hr Hc)
      as (sc & -> & Ss & Vs) end.
  cbn [rbind]. unfold Numpy.reshape. rewrite Ss, <- Hz', Nat.eqb_refl.
  eexists. split; [reflexivity|]. split; [reflexivity|].
  intros idx. cbn [val unravel]. apply Vs. apply Nat.mod_upper_bound. lia.
Qed.

End NormalizationFacts.

(** ** Examples on concrete data *)

Lemma timestep_indices_shifted_example :
  ProcessData.adjust_timesteps [0; 6; 12]%Z = 0%Z :: map (fun t => (t - 1)%Z) [6; 12]%Z /\
  ProcessData.adjust_timesteps (t_samples (defaults []))
  = [0; 5; 11; 17; 23; 29; 35; 41; 47; 53; 59]%Z /\
  exists out,
    ProcessData.take_frames Datasets.y_sixty
      (ProcessData.adjust_timesteps (t_samples (defaults []))) = Ok out /\
    shape out = [1; 11; 1; 1; 1] /\
    forall b j i k l,
      val out [b; j; i; k; l]
      = val Datasets.y_sixty
          [b; nth j [0; 5; 11; 17; 23; 29; 35; 41; 47; 53; 59] 0; i; k; l].
Proof.
  apply (timestep_indices_shifted 0%Z [6; 12]%Z [] Datasets.y_sixty 1 1 1 1).
  - repeat constructor; lia.
  - reflexivity.
Defined.

Lemma apply_noise_keeps_wells_channel_example :
  (exists noisy,
     Noise.apply_noise 0 nat Datasets.counting_noise Datasets.images
       Noise.gaussian (1 # 1000000) 0
     = Ok (Noise.generator_before 0 nat Datasets.counting_noise Datasets.images 2 2 2
             Noise.gaussian (1 # 1000000) 0 (3 * 2),
           noisy) /\
     shape noisy = shape Datasets.images /\
     (forall i a b, i < 3 ->
        val noisy [i; a; b; 2] = val Datasets.images [i; a; b; 2]) /\
     (forall i a b c, i < 3 -> a < 2 -> b < 2 -> c < 2 ->
        val noisy [i; a; b; c]
        = val (snd (Datasets.counting_noise Noise.gaussian
                      (Noise.var_passed Noise.gaussian (1 # 1000000))
                      (Noise.generator_before 0 nat Datasets.counting_noise
                         Datasets.images 2 2 2 Noise.gaussian (1 # 1000000) 0
                         (i * 2 + c))
                      (Noise.sample_channel 0 Datasets.images 2 2 i c)))
            [a; b])) /\
  (Noise.gaussian = Noise.gaussian \/ Noise.gaussian = Noise.speckle ->
   Noise.var_passed Noise.gaussian (1 # 1000000) = Some (1 # 1000000)) /\
  (Noise.gaussian <> Noise.gaussian -> Noise.gaussian <> Noise.speckle ->
   Noise.var_passed Noise.gaussian (1 # 1000000) = None).
Proof.
  apply (apply_noise_keeps_wells_channel 0 nat Datasets.counting_noise
           (fun m v s img => eq_refl) Datasets.images 3 2 2 2
           Noise.gaussian (1 # 1000000) 0).
  reflexivity.
Defined.

Lemma custom_loss_convex_blend_example :
  (Loss.custom_loss (1 / 2) None [1; 2] [1; 3]
   = 1 / 2 * Loss.mean_absolute_error [1; 2] [1; 3]
     + (1 - 1 / 2) * Loss.mean_squared_error [1; 2] [1; 3] /\
   Rmin (Loss.mean_absolute_error [1; 2] [1; 3]) (Loss.mean_squared_error [1; 2] [1; 3])
   <= Loss.custom_loss (1 / 2) None [1; 2] [1; 3]
   <= Rmax (Loss.mean_absolute_error [1; 2] [1; 3]) (Loss.mean_squared_error [1; 2] [1; 3]) /\
   Loss.custom_loss (1 / 2) (Some (66 / 100, [3; 4])) [1; 2] [1; 3]
   = Loss.custom_loss (1 / 2) None [1; 2] [1; 3]
     + 66 / 100 * fold_right Rplus 0 (map (fun w => w * w) [3; 4]) /\
   0 <= Q2R (L1L2_split (defaults [])) <= 1)%R.
Proof.
  apply (custom_loss_convex_blend (1 / 2) (66 / 100) [3; 4] [1; 2] [1; 3] [])%R.
  lra.
Defined.

Lemma augmentation_doubles_example :
  exists x y,
    ProcessData.augment_data Datasets.X_small Datasets.y_small true 3 = Ok (x, y) /\
    shape x = [2 * 1; 2; 2; 1] /\
    shape y = [2 * 1; 2; 2; 2; 1] /\
    (forall i r, i < 1 -> val x (i :: r) = val Datasets.X_small (i :: r) /\
                          val y (i :: r) = val Datasets.y_small (i :: r)) /\
    (forall i h w ch,
       val x [1 + i; h; w; ch]
       = val Datasets.X_small
           [i; fst (ProcessData.rot_source 3 2 h w);
            snd (ProcessData.rot_source 3 2 h w); ch]) /\
    (forall i f h w ch,
       val y [1 + i; f; h; w; ch]
       = val Datasets.y_small
           [i; f; fst (ProcessData.rot_source 3 2 h w);
            snd (ProcessData.rot_source 3 2 h w); ch]).
Proof.
  apply (augmentation_doubles_with_matching_rotation
           Datasets.X_small Datasets.y_small 1 2 1 2 1 3); reflexivity.
Defined.

Lemma load_data_missing_file_example :
  exists e,
    DataLoading.load_data (defaults []) Datasets.one_sample_fs = Err e /\
    is_ok (DataLoading.load_data (defaults []) Datasets.one_sample_fs) = false /\
    (forall acc,
       for_each (DataLoading.load_sample (defaults []) Datasets.one_sample_fs) (seq 0 1)
         (DataLoading.zeros [n_samples (defaults []); x_channels (defaults []);
                             dim (defaults []); dim (defaults [])],
          DataLoading.zeros [n_samples (defaults []); timesteps (defaults []);
                             y_channels (defaults []); dim (defaults []);
                             dim (defaults [])])
       = Ok acc ->
       Datasets.one_sample_fs !! DataLoading.X_path (defaults []) 1 = None ->
       e = FileNotFoundError (DataLoading.X_path (defaults []) 1)).
Proof.
  apply (load_data_missing_file_raises (defaults []) Datasets.one_sample_fs 1).
  - cbn. lia.
  - left. vm_compute. reflexivity.
Defined.

(** * Further properties of the model graph *)

Section GraphShapes.
Variable W : weights.
Variable self : SpatiotemporalCO2.

Lemma bind_err {A B} (c : build A) (k : A -> build B) g e :
  c g = Err e -> bind c k g = Err e.
Proof. unfold bind. intros ->. reflexivity. Qed.

Lemma pool_extent (h : nat) : 2 <= h -> (h - 2) / 2 + 1 = h / 2.
Proof.
  intros H. replace h with (h - 2 + 1 * 2) at 2 by lia.
  rewrite Nat.div_add by lia. reflexivity.
Qed.

(** The three encoder stages on an input whose extents are at least 8. *)
Lemma encoder_stack_run (N H Wd C c0 c1 c2 : nat) (x : tensor R) (g : list layer) :
  shape x = [N; H; Wd; C] ->
  8 <= H -> 8 <= Wd -> 0 < c0 -> 0 < c1 -> 0 < c2 ->
  exists z1 z2 z3 g1 g2 g3,
    Model.encoder_layer W self x c0 g = Ok (z1, g1) /\
    Model.encoder_layer W self z1 c1 g1 = Ok (z2, g2) /\
    Model.encoder_layer W self z2 c2 g2 = Ok (z3, g3) /\
    shape z1 = [N; H / 2; Wd / 2; c0] /\
    shape z2 = [N; H / 2 / 2; Wd / 2 / 2; c1] /\
    shape z3 = [N; H / 2 / 2 / 2; Wd / 2 / 2 / 2; c2].
Proof.
  intros Hx HH HW H0 H1 H2.
  assert (A1 : 4 <= H / 2) by (apply Nat.div_le_lower_bound; lia).
  assert (B1 : 4 <= Wd / 2) by (apply Nat.div_le_lower_bound; lia).
  assert (A2 : 2 <= H / 2 / 2) by (apply Nat.div_le_lower_bound; lia).
  assert (B2 : 2 <= Wd / 2 / 2) by (apply Nat.div_le_lower_bound; lia).
  destruct (encoder_layer_run W self N H Wd C c0 x g Hx ltac:(lia) ltac:(lia) H0)
    as (z1 & E1 & S1).
  rewrite !pool_extent in S1 by lia.
  destruct (encoder_layer_run W self N _ _ c0 c1 z1
              (g ++ encoder_layers c0 (rnn_dropout self))
              S1 ltac:(lia) ltac:(lia) H1) as (z2 & E2 & S2).
  rewrite !pool_extent in S2 by lia.
  destruct (encoder_layer_run W self N _ _ c1 c2 z2
              ((g ++ encoder_layers c0 (rnn_dropout self))
               ++ encoder_layers c1 (rnn_dropout self))
              S2 ltac:(lia) ltac:(lia) H2) as (z3 & E3 & S3).
  rewrite !pool_extent in S3 by lia.
  exists z1, z2, z3. eexists _, _, _.
  repeat split; eassumption.
Qed.

End GraphShapes.

Section GeneralModel.
Variable W : weights.
Variable self : SpatiotemporalCO2.



End GeneralModel.

Section DecoderDataflow.
Variable W : weights.
Variable self : SpatiotemporalCO2.

(** The previous frames enter [recurrent_decoder] only in its last
    statement. *)
Lemma recurrent_decoder_prev (z : tensor R) (res : list (tensor R))
  (p : tensor R) (g : list layer) :
  Model.recurrent_decoder W self z res (Some p) g
  = match Model.recurrent_decoder W self z res None g with
    | Ok (x, g1) => Concatenate 1 p x g1
    | Err e => Err e
    end.
Proof.
  unfold Model.recurrent_decoder, bind.
  repeat match goal with
         | |- context [match ?c with Ok _ => _ | Err _ => _ end] =>
             lazymatch c with
             | context [match _ with Ok _ => _ | Err _ => _ end] => fail
             | _ => destruct c as [[? ?]|]; try reflexivity
             end
         end.
Qed.

Lemma Concatenate_time_frames (n k h w c : nat) (a b : tensor R) (g : list layer) :
  shape a = [n; k; h; w; c] -> shape b = [n; 1; h; w; c] ->
  exists out,
    Concatenate 1 a b g = Ok (out, g ++ [Concatenate_ 1]) /\
    (forall i j r, j < k -> val out (i :: j :: r) = val a (i :: j :: r)) /\
    (forall i r, val out (i :: k :: r) = val b (i :: 0 :: r)).
Proof.
  intros Ha Hb. unfold Concatenate, rank. rewrite Ha, Hb.
  cbn [length]. change (norm_axis 1 5) with 1.
  cbn [same_but shape_eqb]. rewrite !Nat.eqb_refl. cbn [andb Nat.ltb Nat.leb].
  eexists. split; [reflexivity|]. cbn [val]. unfold concat_val, axis_extent.
  rewrite Ha. cbn [nth]. split.
  - intros i j r Hj. apply Nat.ltb_lt in Hj. rewrite Hj. reflexivity.
  - intros i r. rewrite Nat.ltb_irrefl, Nat.sub_diag. reflexivity.
Qed.

(** X3. The decoder is not autoregressive in its values: with previous frames
    [p] it returns [p]'s frames unchanged followed by exactly the frame it
    computes without them, so no entry of the new frame depends on [p]. *)
Theorem recurrent_decoder_ignores_previous_frames
  (n h w c c2 c1 f0 f1 f2 k : nat) (z3 z2 z1 p : tensor R) (g : list layer) :
  rnn_filters self = [f0; f1; f2] ->
  shape z3 = [n; h; w; c] ->
  shape z2 = [n; h * 2; w * 2; c2] ->
  shape z1 = [n; h * 2 * 2; w * 2 * 2; c1] ->
  shape p = [n; k; h * 2 * 2 * 2; w * 2 * 2 * 2; y_channels self] ->
  exists frame g1 out,
    Model.recurrent_decoder W self z3 [z2; z1] None g = Ok (frame, g1) /\
    Model.recurrent_decoder W self z3 [z2; z1] (Some p) g
    = Ok (out, g1 ++ [Concatenate_ 1]) /\
    (forall i j r, j < k -> val out (i :: j :: r) = val p (i :: j :: r)) /\
    (forall i r, val out (i :: k :: r) = val frame (i :: 0 :: r)).
Proof.
  intros Hf H3 H2 H1 Hp.
  destruct (recurrent_decoder_run W self n h w c c2 c1 f0 f1 f2 0 z3 z2 z1 None g
              Hf H3 H2 H1 eq_refl) as (frame & g1 & E & S & _).
  cbn [Nat.add] in S.
  destruct (Concatenate_time_frames n k _ _ _ p frame g1 Hp S) as (out & Ec & A & B).
  exists frame, g1, out. split; [exact E|].
  rewrite recurrent_decoder_prev, E. auto.
Qed.

End DecoderDataflow.

Section SkipMismatch.
Variable W : weights.
Variable self : SpatiotemporalCO2.

Lemma Concatenate_channels_mismatch (n h w c1 h' w' c2 : nat) (a b : tensor R)
  (g : list layer) :
  shape a = [n; h; w; c1] -> shape b = [n; h'; w'; c2] ->
  h <> h' \/ w <> w' ->
  Concatenate (-1) a b g = Err (ValueError "Concatenate: mismatched shapes").
Proof.
  intros Ha Hb Hne. unfold Concatenate, rank. rewrite Ha, Hb.
  cbn [length]. change (norm_axis (-1) 4) with 3.
  cbn [same_but shape_eqb]. rewrite Nat.eqb_refl.
  destruct (Nat.eqb_spec h h'), (Nat.eqb_spec w w'); try reflexivity.
  destruct Hne; contradiction.
Qed.

Ltac chain lem :=
  let x := fresh "y" in
  let E := fresh "E" in
  let S := fresh "S" in
  destruct lem as (x & E & S);
  rewrite (bind_ok _ _ _ _ _ E); clear E.

(** A skip residual whose extents are not twice the incoming state's makes
    the decoder stage raise. *)
Lemma recurrent_step_mismatch (n t h w c h' w' cr filt : nat) (inp res : tensor R)
  (g : list layer) :
  shape inp = [n; t; h; w; c] ->
  shape res = [n; h'; w'; cr] ->
  h * 2 <> h' \/ w * 2 <> w' ->
  Model.recurrent_step W self inp filt res g
  = Err (ValueError "Concatenate: mismatched shapes").
Proof.
  intros Hs Hr Hne. unfold Model.recurrent_step.
  chain (ConvLSTM2D_run W filt n t h w c inp g Hs).
  chain (GroupNormalization_run W (-1) y (g ++ [ConvLSTM2D_ filt 3 same])).
  rewrite S in S0.
  match goal with |- context [bind (LeakyReLU ?s ?x) _ ?g0] =>
    chain (LeakyReLU_run s x g0) end.
  rewrite S0 in S1.
  match goal with |- context [bind (Conv2DTranspose _ _ _ _ _ ?x) _ ?g0] =>
    chain (Conv2DTranspose_run W filt 2 n h w filt x g0 S1) end.
  match goal with |- context [bind (SpatialDropout2D _ ?r ?x) _ ?g0] =>
    chain (SpatialDropout2D_run W r _ _ _ _ x g0 S2) end.
  apply bind_err.
  eapply Concatenate_channels_mismatch; eassumption.
Qed.

Lemma recurrent_decoder_mismatch (n h w c h2 w2 c2 h1 w1 c1 f0 f1 f2 : nat)
  (z3 z2 z1 : tensor R) (prev : option (tensor R)) (g : list layer) :
  rnn_filters self = [f0; f1; f2] ->
  shape z3 = [n; h; w; c] ->
  shape z2 = [n; h2; w2; c2] ->
  shape z1 = [n; h1; w1; c1] ->
  ~ (h2 = h * 2 /\ w2 = w * 2 /\ h1 = h * 2 * 2 /\ w1 = w * 2 * 2) ->
  Model.recurrent_decoder W self z3 [z2; z1] prev g
  = Err (ValueError "Concatenate: mismatched shapes").
Proof.
  intros Hf H3 H2 H1 Hne. unfold Model.recurrent_decoder.
  destruct (expand_dims_run (fun _ => True) n [h; w; c] z3 g H3 (fun _ => I))
    as (x0 & E0 & S0 & _).
  rewrite (bind_ok _ _ _ _ _ E0); clear E0.
  rewrite Hf. unfold index at 1 2. cbn [nth_error].
  unfold bind at 1 2. unfold ret at 1 2. cbn beta iota.
  destruct (Nat.eq_dec (h * 2) h2) as [<-|N1];
    [destruct (Nat.eq_dec (w * 2) w2) as [<-|N2]|].
  - match goal with |- context [bind (Model.recurrent_step _ _ ?x ?f ?r) _ ?g0] =>
      destruct (recurrent_step_run W self n 1 h w c c2 f x r g0 S0 H2)
        as (x1 & g1 & E1 & S1 & _);
      rewrite (bind_ok _ _ _ _ _ E1); clear E1 end.
    unfold index at 1 2. cbn [nth_error].
    unfold bind at 1 2. unfold ret at 1 2. cbn beta iota.
    apply bind_err. eapply recurrent_step_mismatch; [exact S1 | exact H1 | lia].
  - apply bind_err. eapply recurrent_step_mismatch; [exact S0 | exact H2 | lia].
  - apply bind_err. eapply recurrent_step_mismatch; [exact S0 | exact H2 | lia].
Qed.

(** X2. On inputs of extent at least 8 whose halved height or width is not a
    multiple of four, the skip residuals do not line up with the upsampled
    decoder state: [make_model] raises at the first concatenation that
    disagrees instead of cropping or padding. *)
Theorem make_model_rejects_misaligned_extents
  (N H Wd C c0 c1 c2 f0 f1 f2 : nat) (x : tensor R) :
  tl (X_train_shape self) = [H; Wd; C] ->
  cnn_filters self = [c0; c1; c2] ->
  rnn_filters self = [f0; f1; f2] ->
  0 < c0 -> 0 < c1 -> 0 < c2 ->
  shape x = [N; H; Wd; C] ->
  8 <= H -> 8 <= Wd ->
  (H / 2) mod 4 <> 0 \/ (Wd / 2) mod 4 <> 0 ->
  Model.make_model W self x [] = Err (ValueError "Concatenate: mismatched shapes").
Proof.
  intros HX Hc Hf P0 P1 P2 Hx H8 W8 Hm. unfold Model.make_model.
  assert (E0 : Input [H; Wd; C] x [] = Ok (x, [InputLayer [H; Wd; C]])).
  { unfold Input. rewrite Hx, shape_eqb_refl. reflexivity. }
  rewrite HX, (bind_ok _ _ _ _ _ E0), Hc; clear E0.
  destruct (encoder_stack_run W self N H Wd C c0 c1 c2 x [InputLayer [H; Wd; C]]
              Hx H8 W8 P0 P1 P2)
    as (z1 & z2 & z3 & g1 & g2 & g3 & E1 & E2 & E3 & S1 & S2 & S3).
  unfold index at 1. cbn [nth_error]. unfold bind at 1. unfold ret at 1.
  rewrite (bind_ok _ _ _ _ _ E1).
  unfold index at 1. cbn [nth_error]. unfold bind at 1. unfold ret at 1.
  rewrite (bind_ok _ _ _ _ _ E2).
  unfold index at 1. cbn [nth_error]. unfold bind at 1. unfold ret at 1.
  rewrite (bind_ok _ _ _ _ _ E3).
  apply bind_err.
  eapply recurrent_decoder_mismatch; [exact Hf | exact S3 | exact S2 | exact S1 |].
  intros (A & B & A' & B').
  assert ((H / 2) mod 4 = 0).
  { rewrite A'. replace (H / 2 / 2 / 2 * 2 * 2) with (H / 2 / 2 / 2 * 4) by lia.
    apply Nat.Div0.mod_mul. }
  assert ((Wd / 2) mod 4 = 0).
  { rewrite B'. replace (Wd / 2 / 2 / 2 * 2 * 2) with (Wd / 2 / 2 / 2 * 4) by lia.
    apply Nat.Div0.mod_mul. }
  destruct Hm; contradiction.
Qed.

End SkipMismatch.

Section SqueezeExciteRange.
Variable W : weights.

(** X4. On an input with a non-zero height and width the layer can only
    amplify, and by at most a factor of two: a non-negative activation comes
    out between itself and its double, a non-positive one between its double
    and itself (so zero stays zero and no activation changes sign). *)
Theorem SqueezeExcite_amplifies_up_to_double
  (r n h w c : nat) (inputs : tensor R) (g : list layer) :
  shape inputs = [n; h; w; c] ->
  0 < h -> 0 < w ->
  r <> 0 ->
  exists (out : tensor R) (g' : list layer),
    SqueezeExcite W r inputs g = Ok (out, g') /\
    forall b i j k, in_bounds [b; i; j; k] (shape inputs) ->
      let x := val inputs [b; i; j; k] in
      let y := val out [b; i; j; k] in
      ((0 <= x -> x <= y <= 2 * x) /\
       (x <= 0 -> 2 * x <= y <= x))%R.
Proof.
  intros Hs Hh Hw Hr.
  unfold SqueezeExcite, SqueezeExcite_build.
  rewrite Hs, last_shape4.
  destruct (Nat.eqb_spec r 0) as [->|_]; [congruence|].
  unfold SqueezeExcite_call, GlobalAveragePooling2D.
  rewrite Hs, (extents_nonzero h w Hh Hw).
  cbn [rbind Dense shape excite1_units excite2_units lift_last last map Reshape
       fold_right].
  replace (c * 1 =? 1 * (1 * (c * 1))) with true
    by (symmetry; apply Nat.eqb_eq; lia).
  unfold Multiply, Add, elementwise. cbn [rbind shape].
  rewrite Hs, bcast_shape_gate. cbn [rbind shape].
  rewrite ?Hs, bcast_shape_refl.
  eexists _, _. split; [reflexivity|]. cbn [shape val].
  intros b i j k Hb.
  rewrite !(bcast_index_in_bounds _ _ Hb).
  rewrite (bcast_index_gate _ _ _ _ _ _ _ _ Hb).
  cbn [ravel unravel fold_right].
  destruct Hb as (_ & _ & _ & Hk & _).
  replace ((0 * (1 * (c * 1)) + (0 * (c * 1) + (k * 1 + 0))) / 1 mod c) with k.
  2:{ rewrite Nat.div_1_r.
      replace (0 * (1 * (c * 1)) + (0 * (c * 1) + (k * 1 + 0))) with k by lia.
      symmetry; apply Nat.mod_small; exact Hk. }
  cbn zeta.
  match goal with |- context [sigmoid ?a] =>
    pose proof (sigmoid_bounds_le a) as Hg; set (gate := sigmoid a) in * end.
  set (x := val inputs [b; i; j; k]).
  repeat split; intros; nra.
Qed.

End SqueezeExciteRange.

(** * Further properties of the data pipeline *)

Section NoiseEdgeCases.
Import Noise.
Context {V : Type}.
Variable zero : V.
Variable rng : Type.
Variable random_noise : noise_mode -> option Q -> rng -> tensor V -> rng * tensor V.

Lemma single_channel_loop (image : tensor V) (h w : nat) (mode : noise_mode)
  (var : Q) (k : nat) (s : rng) (noisy : tensor V) :
  exists noisy',
    for_each (sample_body zero rng random_noise image h w 1 mode var) (seq 0 k)
      (s, noisy) = Ok (s, noisy') /\
    shape noisy' = shape noisy /\
    (0 < k -> forall i a b, val noisy' [i; a; b; 0] = val image [i; a; b; 0]).
Proof.
  induction k as [|k IH].
  - exists noisy. cbn. split; [reflexivity|]. split; [reflexivity | lia].
  - destruct IH as (n1 & E1 & S1 & L1).
    rewrite seq_S, for_each_app, E1. cbn.
    eexists. split; [reflexivity|]. cbn [shape val].
    split; [exact S1|]. intros _ i a b. reflexivity.
Qed.

(** X5. Degenerate channel counts.  With a single channel that channel is the
    wells channel: the array comes back unchanged, [random_noise] is never
    called and the generator state is the one passed in.  With no channel
    at all and at least one sample there is no last channel to copy and the
    call raises [IndexError]. *)
Theorem apply_noise_degenerate_channels (one none : tensor V)
  (n h w n0 h0 w0 : nat) (mode : noise_mode) (var : Q) (s : rng) :
  shape one = [n; h; w; 1] ->
  shape none = [S n0; h0; w0; 0] ->
  (exists noisy,
     apply_noise zero rng random_noise one mode var s = Ok (s, noisy) /\
     shape noisy = shape one /\
     forall i a b, i < n -> val noisy [i; a; b; 0] = val one [i; a; b; 0]) /\
  apply_noise zero rng random_noise none mode var s = Err IndexError.
Proof.
  intros H1 H0. split.
  - unfold apply_noise. rewrite H1.
    destruct (single_channel_loop one h w mode var n s (zeros_like zero one))
      as (noisy & E & S & L).
    exists noisy. split; [exact E|]. split; [rewrite S; cbn; congruence|].
    intros i a b Hi. apply L. lia.
  - unfold apply_noise. rewrite H0. reflexivity.
Qed.

End NoiseEdgeCases.

Section RotationLaws.
Import ProcessData Numpy.
Context {V : Type}.

Ltac four_coordinates idx H :=
  destruct idx as [|?i [|?p [|?q [|?ch [|]]]]]; cbn in H; try tauto.

Lemma rot90_4d (X : tensor V) (n h w c : nat) (k : Z) :
  shape X = [n; h; w; c] ->
  rot90 X k 1 2
  = if (k mod 4 =? 0)%Z then Ok X
    else if (k mod 4 =? 2)%Z then Ok (flip (flip X 1) 2)
    else if (k mod 4 =? 1)%Z then Ok (transpose (flip X 2) 1 2)
    else Ok (flip (transpose X 1 2) 2).
Proof. intros Hs. unfold rot90, rank. rewrite Hs. reflexivity. Qed.

(** X6. Quarter turns compose: turning by [k1] and then by [k2] is turning by
    [k1 + k2], on images of any extents; so turning back by the opposite
    count, or completing a multiple of four, returns the original array. *)
Theorem rot90_composes (X : tensor V) (n h w c : nat) (k1 k2 : Z) :
  shape X = [n; h; w; c] ->
  exists r1 r2 r12,
    rot90 X k1 1 2 = Ok r1 /\
    rot90 r1 k2 1 2 = Ok r2 /\
    rot90 X (k1 + k2) 1 2 = Ok r12 /\
    shape r2 = shape r12 /\
    (forall idx, in_bounds idx (shape r12) -> val r2 idx = val r12 idx) /\
    (((k1 + k2) mod 4 = 0)%Z ->
     shape r2 = shape X /\
     forall idx, in_bounds idx (shape X) -> val r2 idx = val X idx).
Proof.
  intros Hs.
  assert (E12 : ((k1 + k2) mod 4 = (k1 mod 4 + k2 mod 4) mod 4)%Z)
    by (apply Z.add_mod; lia).
  rewrite !(rot90_4d X n h w c _ Hs).
  destruct (mod4_cases k1) as [E1|[E1|[E1|E1]]];
    destruct (mod4_cases k2) as [E2|[E2|[E2|E2]]];
    rewrite E1, E2 in E12;
    match type of E12 with _ = ?r =>
      let v := eval vm_compute in r in change r with v in E12 end;
    rewrite E1, E12; cbn [Z.eqb Pos.eqb];
    eexists _, _, _; (split; [reflexivity|]);
    (split;
     [erewrite rot90_4d
        by (unfold flip, transpose, swap; cbn [shape]; rewrite Hs; reflexivity);
      rewrite E2; cbn [Z.eqb Pos.eqb]; reflexivity|]);
    (split; [reflexivity|]);
    unfold flip, transpose, swap, axis_extent; cbn [shape val];
    rewrite ?Hs; cbn;
    (split; [reflexivity|]);
    (split;
     [intros idx Hb; four_coordinates idx Hb; cbn; repeat f_equal; lia
     |intros Hz;
      first [discriminate Hz
            |split; [reflexivity|];
             intros idx Hb; four_coordinates idx Hb; cbn; repeat f_equal; lia]]).
Qed.

End RotationLaws.

Section AugmentNonSquare.
Import ProcessData Numpy.
Context {V : Type}.

Lemma rot90_5d (Y : tensor V) (n t h w c : nat) (k : Z) :
  shape Y = [n; t; h; w; c] ->
  rot90 Y k 2 3
  = if (k mod 4 =? 0)%Z then Ok Y
    else if (k mod 4 =? 2)%Z then Ok (flip (flip Y 2) 3)
    else if (k mod 4 =? 1)%Z then Ok (transpose (flip Y 3) 2 3)
    else Ok (flip (transpose Y 2 3) 3).
Proof. intros Hs. unfold rot90, rank. rewrite Hs. reflexivity. Qed.

(** X7. Images that are not square can only be augmented by an even number of
    quarter turns: an odd count exchanges height and width, the rotated
    copies no longer stack onto the originals and the call raises; an even
    count doubles the corpus as for square images. *)
Theorem augment_data_nonsquare (X_data y_data : tensor V)
  (n h w c t cy : nat) (k : Z) :
  shape X_data = [n; h; w; c] ->
  shape y_data = [n; t; h; w; cy] ->
  h <> w ->
  ((k mod 2 = 1)%Z ->
   augment_data X_data y_data true k
   = Err (ValueError "concatenate: dimensions must match")) /\
  ((k mod 2 = 0)%Z ->
   exists x y,
     augment_data X_data y_data true k = Ok (x, y) /\
     shape x = [2 * n; h; w; c] /\
     shape y = [2 * n; t; h; w; cy]).
Proof.
  intros HX HY Hne. unfold augment_data.
  rewrite (rot90_4d X_data n h w c k HX), (rot90_5d y_data n t h w cy k HY).
  replace (2 * n) with (n + n) by lia.
  assert (F : (h =? w) = false) by (apply Nat.eqb_neq; exact Hne).
  pose proof (Z.rem_mul_r k 2 2 ltac:(lia) ltac:(lia)) as P4.
  change (2 * 2)%Z with 4%Z in P4.
  pose proof (Z.mod_pos_bound (k / 2) 2 ltac:(lia)) as P2.
  split; intros Hk;
    destruct (mod4_cases k) as [E|[E|[E|E]]]; try (exfalso; lia);
    rewrite E; cbn [Z.eqb Pos.eqb rbind];
    unfold concatenate0, rank, flip, transpose, swap; cbn [shape];
    rewrite HX, ?HY; cbn [length same_but nth];
    cbn; rewrite ?F, ?Nat.eqb_refl; cbn;
    try reflexivity;
    eexists _, _; (split; [reflexivity|]); split; reflexivity.
Qed.

End AugmentNonSquare.

Section ScalerExtremes.
Import MinMaxScaler.

Lemma fold_qmin_attained (f : nat -> Q) (l : list nat) (a : Q) :
  fold_left (fun acc r => qmin acc (f r)) l a = a \/
  exists r, In r l /\ fold_left (fun acc r => qmin acc (f r)) l a = f r.
Proof.
  revert a. induction l as [|x l IH]; intros a; simpl; [left; reflexivity|].
  destruct (IH (qmin a (f x))) as [E|(r & Hr & E)].
  - rewrite E. unfold qmin. destruct (Qle_bool a (f x)); [left; reflexivity|].
    right. exists x. auto.
  - right. exists r. auto.
Qed.

Lemma fold_qmax_attained (f : nat -> Q) (l : list nat) (a : Q) :
  fold_left (fun acc r => qmax acc (f r)) l a = a \/
  exists r, In r l /\ fold_left (fun acc r => qmax acc (f r)) l a = f r.
Proof.
  revert a. induction l as [|x l IH]; intros a; simpl; [left; reflexivity|].
  destruct (IH (qmax a (f x))) as [E|(r & Hr & E)].
  - rewrite E. unfold qmax. destruct (Qle_bool a (f x)); [|left; reflexivity].
    right. exists x. auto.
  - right. exists r. auto.
Qed.

Lemma data_min_attained (m : tensor Q) (rows c : nat) :
  0 < rows -> exists r, r < rows /\ data_min m rows c = val m [r; c].
Proof.
  intros Hr. unfold data_min.
  destruct (fold_qmin_attained (fun r => val m [r; c]) (seq 1 (rows - 1)) (val m [0; c]))
    as [E|(r & Hin & E)].
  - exists 0. split; [lia | exact E].
  - exists r. apply in_seq in Hin. split; [lia | exact E].
Qed.

Lemma data_max_attained (m : tensor Q) (rows c : nat) :
  0 < rows -> exists r, r < rows /\ data_max m rows c = val m [r; c].
Proof.
  intros Hr. unfold data_max.
  destruct (fold_qmax_attained (fun r => val m [r; c]) (seq 1 (rows - 1)) (val m [0; c]))
    as [E|(r & Hin & E)].
  - exists 0. split; [lia | exact E].
  - exists r. apply in_seq in Hin. split; [lia | exact E].
Qed.

(** The scaled value of an entry, as [fit_transform] computes it. *)
Lemma scaled_value (v mn mx : Q) :
  (v * ((1 - 0) / handle_zeros_in_scale (mx - mn))
   + (0 - mn * ((1 - 0) / handle_zeros_in_scale (mx - mn)))
   == (v - mn) / handle_zeros_in_scale (mx - mn))%Q.
Proof.
  pose proof (handle_zeros_positive (mx - mn)) as H.
  field. lra.
Qed.

(** X8. Every column of the scaler's output has an entry equal to 0, at a
    row where the column is smallest; a constant column is mapped to zeros
    whatever its value; and scaling keeps the order of the entries of a
    column. *)
Theorem fit_transform_column_extremes (m : tensor Q) (rows cols c : nat) :
  shape m = [rows; cols] -> 0 < rows -> 0 < cols ->
  exists out,
    fit_transform m = Ok out /\
    (exists r, r < rows /\
       (forall r', r' < rows -> (val m [r; c] <= val m [r'; c])%Q) /\
       (val out [r; c] == 0)%Q) /\
    ((forall r r', r < rows -> r' < rows -> (val m [r; c] == val m [r'; c])%Q) ->
     forall r, r < rows -> (val out [r; c] == 0)%Q) /\
    (forall r r', r < rows -> r' < rows ->
       (val m [r; c] <= val m [r'; c])%Q -> (val out [r; c] <= val out [r'; c])%Q).
Proof.
  intros Hs Hr Hc. unfold fit_transform. rewrite Hs.
  destruct (Nat.eqb_spec rows 0); [lia|]. destruct (Nat.eqb_spec cols 0); [lia|].
  cbn [orb]. eexists. split; [reflexivity|]. cbn [val].
  unfold min_, scale_.
  destruct (data_min_attained m rows c Hr) as (rmin & Hrmin & Emin).
  destruct (data_max_attained m rows c Hr) as (rmax & Hrmax & Emax).
  set (mn := data_min m rows c) in *. set (mx := data_max m rows c) in *.
  assert (Hle : (mn <= mx)%Q).
  { eapply Qle_trans; [apply (data_min_le m rows c 0 Hr) | apply (data_max_ge m rows c 0 Hr)]. }
  pose proof (handle_zeros_positive (mx - mn)) as Hhz.
  split.
  { exists rmin. split; [exact Hrmin|]. split.
    - intros r' Hr'. rewrite <- Emin. apply (data_min_le m rows c r' Hr').
    - rewrite scaled_value, <- Emin. field. lra. }
  split.
  { intros Hconst r Hrr. rewrite scaled_value.
    assert (Hv : (val m [r; c] == mn)%Q) by (rewrite Emin; apply Hconst; assumption).
    rewrite Hv. field. lra. }
  intros r r' Hrr Hrr' Hv. rewrite !scaled_value.
  unfold Qdiv. apply Qmult_le_compat_r; [lra|].
  apply Qlt_le_weak, Qinv_lt_0_compat, Hhz.
Qed.

End ScalerExtremes.

Section FrameSelection.
Import ProcessData.

Lemma position_in_range (T : nat) (t : Z) :
  frame_in_range T t -> position T t = Ok (Z.to_nat (t mod Z.of_nat T)).
Proof.
  unfold frame_in_range, position. intros H.
  destruct (Z.leb_spec 0 t); destruct (Z.ltb_spec t (Z.of_nat T)); cbn [andb];
    try lia.
  - rewrite Z.mod_small by lia. reflexivity.
  - destruct (Z.leb_spec (- Z.of_nat T) t); destruct (Z.ltb_spec t 0); cbn [andb];
      try lia.
    replace (t mod Z.of_nat T)%Z with (t + Z.of_nat T)%Z; [reflexivity|].
    apply Z.mod_unique with (q := (-1)%Z); lia.
Qed.

Lemma position_out_of_range (T : nat) (t : Z) :
  ~ frame_in_range T t -> position T t = Err IndexError.
Proof.
  unfold frame_in_range, position. intros H.
  destruct (Z.leb_spec 0 t); destruct (Z.ltb_spec t (Z.of_nat T)); cbn [andb];
    try lia;
    destruct (Z.leb_spec (- Z.of_nat T) t); destruct (Z.ltb_spec t 0); cbn [andb];
    try lia; reflexivity.
Qed.

Lemma frame_in_range_dec (T : nat) (t : Z) :
  {frame_in_range T t} + {~ frame_in_range T t}.
Proof.
  unfold frame_in_range.
  destruct (Z_le_dec (- Z.of_nat T) t); destruct (Z_lt_dec t (Z.of_nat T));
    [left | right | right | right]; lia.
Qed.

Lemma positions_in_range (T : nat) (ts : list Z) :
  Forall (frame_in_range T) ts ->
  positions T ts = Ok (map (fun t => Z.to_nat (t mod Z.of_nat T)) ts).
Proof.
  induction 1 as [|t ts Ht _ IH]; [reflexivity|].
  cbn [positions map]. rewrite (position_in_range T t Ht), IH. reflexivity.
Qed.

Lemma positions_out_of_range (T : nat) (ts : list Z) :
  Exists (fun t => ~ frame_in_range T t) ts -> positions T ts = Err IndexError.
Proof.
  induction 1 as [t ts Ht|t ts _ IH]; cbn [positions].
  - rewrite (position_out_of_range T t Ht). reflexivity.
  - destruct (frame_in_range_dec T t) as [Hin|Hout].
    + rewrite (position_in_range T t Hin), IH. reflexivity.
    + rewrite (position_out_of_range T t Hout). reflexivity.
Qed.

(** X9. Frame selection checks every index against the number of frames [T]:
    for a non-empty list of indices that all lie in [-T, T) it returns one
    frame per index, a negative index counting from the last frame; a
    single index outside raises [IndexError] and nothing is selected, and
    so does an empty list of indices.  With the configured time samples
    [IndexError] is raised whenever the targets have fewer than 60 frames. *)
Theorem take_frames_checks_indices {V} (y : tensor V) (n T : nat) (s s0 : list nat)
  (ts : list Z) :
  shape y = n :: T :: s ->
  (ts <> [] -> Forall (frame_in_range T) ts ->
   exists out,
     take_frames y ts = Ok out /\
     shape out = n :: length ts :: s /\
     forall b j r, j < length ts ->
       val out (b :: j :: r)
       = val y (b :: Z.to_nat (nth j ts 0%Z mod Z.of_nat T) :: r)) /\
  (Exists (fun t => ~ frame_in_range T t) ts -> take_frames y ts = Err IndexError) /\
  take_frames y [] = Err IndexError /\
  (T < 60 ->
   take_frames y (adjust_timesteps (t_samples (defaults s0))) = Err IndexError).
Proof.
  intros Hs. unfold take_frames. rewrite Hs. split; [|split; [|split]].
  - intros Hne Hin. destruct ts as [|t0 ts0]; [congruence|].
    rewrite (positions_in_range T _ Hin). cbn [rbind].
    eexists. split; [reflexivity|]. cbn [shape val].
    split; [rewrite length_map; reflexivity|].
    intros b j r Hj.
    rewrite (nth_indep _ 0 (Z.to_nat (0 mod Z.of_nat T)))
      by (rewrite length_map; exact Hj).
    rewrite (map_nth (fun t => Z.to_nat (t mod Z.of_nat T))). reflexivity.
  - intros Hout. destruct ts as [|t0 ts0]; [reflexivity|].
    rewrite (positions_out_of_range T _ Hout). reflexivity.
  - reflexivity.
  - intros HT.
    change (adjust_timesteps (t_samples (defaults s0)))
      with [0; 5; 11; 17; 23; 29; 35; 41; 47; 53; 59]%Z.
    cbv iota. rewrite positions_out_of_range; [reflexivity|].
    do 10 apply Exists_cons_tl. apply Exists_cons_hd.
    unfold frame_in_range. lia.
Qed.

End FrameSelection.

Section LoadingSuccess.
Import DataLoading Numpy.

Lemma compat_rev_refl (l : list nat) : compat_rev l l = true.
Proof.
  induction l as [|d l IH]; cbn; [reflexivity|].
  rewrite Nat.eqb_refl, IH. reflexivity.
Qed.

Lemma assignable_refl (s : list nat) : assignable s s = true.
Proof.
  unfold assignable. rewrite Nat.sub_diag. cbn [strip_ones].
  destruct s; apply compat_rev_refl.
Qed.

Lemma in_bounds_length (idx shp : list nat) :
  in_bounds idx shp -> length idx = length shp.
Proof.
  revert shp. induction idx as [|i idx IH]; intros [|d shp]; cbn; try tauto.
  intros [_ H]. f_equal. apply IH, H.
Qed.

Lemma assigned_refl {V} (s : list nat) (src : tensor V) (r : list nat) :
  shape src = s -> in_bounds r s -> assigned s src r = val src r.
Proof.
  intros Hs Hb. unfold assigned. rewrite Hs, Nat.sub_diag.
  replace (strip_ones 0 s) with s by (destruct s; reflexivity).
  rewrite Nat.sub_diag, (in_bounds_length r s Hb), Nat.sub_diag.
  change (skipn 0 r) with r. cbn [repeat app].
  rewrite (bcast_index_in_bounds s r Hb). reflexivity.
Qed.

Lemma setitem0_run (t src : tensor Q) (i n : nat) (s : list nat) :
  shape t = n :: s -> i < n -> shape src = s ->
  exists t',
    setitem0 t i src = Ok t' /\
    shape t' = n :: s /\
    (forall r, in_bounds r s -> val t' (i :: r) = val src r) /\
    (forall j r, j <> i -> val t' (j :: r) = val t (j :: r)).
Proof.
  intros Ht Hi Hs. unfold setitem0. rewrite Ht.
  apply Nat.ltb_lt in Hi. rewrite Hi, Hs, assignable_refl.
  eexists. split; [reflexivity|]. split; [reflexivity|]. cbn [val]. split.
  - intros r Hb. rewrite Nat.eqb_refl. apply assigned_refl; assumption.
  - intros j r Hj. apply Nat.eqb_neq in Hj. rewrite Hj. reflexivity.
Qed.

Section Loop.
Variable self : SpatiotemporalCO2.
Variable fs : gmap string (tensor Q).
Variables fx fy : nat -> tensor Q.
Variables sx sy : list nat.
Variable n : nat.
Hypothesis features_present :
  forall i, i < n -> fs !! X_path self i = Some (fx i) /\ shape (fx i) = sx.
Hypothesis targets_present :
  forall i, i < n -> fs !! y_path self i = Some (fy i) /\ shape (fy i) = sy.

Lemma load_loop (k : nat) (X0 y0 : tensor Q) :
  k <= n -> shape X0 = n :: sx -> shape y0 = n :: sy ->
  exists Xk yk,
    for_each (load_sample self fs) (seq 0 k) (X0, y0) = Ok (Xk, yk) /\
    shape Xk = n :: sx /\ shape yk = n :: sy /\
    (forall i r, i < k -> in_bounds r sx -> val Xk (i :: r) = val (fx i) r) /\
    (forall i r, i < k -> in_bounds r sy -> val yk (i :: r) = val (fy i) r).
Proof using features_present targets_present.
  intros Hk HX Hy. induction k as [|k IH].
  - exists X0, y0. cbn. repeat split; try assumption; intros; lia.
  - destruct (IH ltac:(lia)) as (X1 & y1 & E & SX & Sy & VX & Vy).
    rewrite seq_S, for_each_app, E. cbn [rbind for_each Nat.add].
    unfold load_sample, np_load. cbn [fst snd].
    destruct (features_present k ltac:(lia)) as [-> Sfx].
    destruct (targets_present k ltac:(lia)) as [-> Sfy].
    cbn [rbind].
    destruct (setitem0_run X1 (fx k) k n sx SX ltac:(lia) Sfx)
      as (X2 & -> & SX2 & NX & OX).
    destruct (setitem0_run y1 (fy k) k n sy Sy ltac:(lia) Sfy)
      as (y2 & -> & Sy2 & Ny & Oy).
    cbn [rbind]. exists X2, y2. split; [reflexivity|].
    split; [exact SX2|]. split; [exact Sy2|]. split.
    + intros i r Hi Hb. destruct (Nat.eq_dec i k) as [->|Hne].
      * apply NX, Hb.
      * rewrite OX by exact Hne. apply VX; [lia | exact Hb].
    + intros i r Hi Hb. destruct (Nat.eq_dec i k) as [->|Hne].
      * apply Ny, Hb.
      * rewrite Oy by exact Hne. apply Vy; [lia | exact Hb].
Qed.

End Loop.

(** X10. When every sample has both files, each of the configured shape,
    [load_data] succeeds and its arrays are the files' contents with the
    channel axis moved last: shapes (n, dim, dim, x_channels) and
    (n, timesteps, dim, dim, y_channels), nothing left at zero. *)
Theorem load_data_reads_every_file (self : SpatiotemporalCO2)
  (fs : gmap string (tensor Q)) (fx fy : nat -> tensor Q) :
  (forall i, i < n_samples self ->
     fs !! X_path self i = Some (fx i) /\
     shape (fx i) = [x_channels self; dim self; dim self]) ->
  (forall i, i < n_samples self ->
     fs !! y_path self i = Some (fy i) /\
     shape (fy i) = [timesteps self; y_channels self; dim self; dim self]) ->
  exists X y,
    load_data self fs = Ok (X, y) /\
    shape X = [n_samples self; dim self; dim self; x_channels self] /\
    shape y = [n_samples self; timesteps self; dim self; dim self; y_channels self] /\
    (forall i a b c,
       i < n_samples self -> a < dim self -> b < dim self -> c < x_channels self ->
       val X [i; a; b; c] = val (fx i) [c; a; b]) /\
    (forall i t a b c,
       i < n_samples self -> t < timesteps self -> a < dim self -> b < dim self ->
       c < y_channels self ->
       val y [i; t; a; b; c] = val (fy i) [t; c; a; b]).
Proof.
  intros HX Hy. unfold load_data.
  destruct (load_loop self fs fx fy _ _ (n_samples self) HX Hy (n_samples self)
              (zeros [n_samples self; x_channels self; dim self; dim self])
              (zeros [n_samples self; timesteps self; y_channels self; dim self;
                      dim self])
              (Nat.le_refl _) eq_refl eq_refl)
    as (X1 & y1 & -> & SX & Sy & VX & Vy).
  cbn [rbind fst snd]. unfold moveaxis, rank. rewrite SX, Sy.
  cbn [length]. change (norm_axis (-1) 4) with 3. change (norm_axis (-1) 5) with 4.
  cbn [Nat.ltb Nat.leb andb rbind].
  eexists _, _. split; [reflexivity|]. cbn [shape val].
  split; [reflexivity|]. split; [reflexivity|]. split.
  - intros i a b c Hi Ha Hb Hc. cbn. apply VX; [exact Hi|]. cbn. tauto.
  - intros i t a b c Hi Ht Ha Hb Hc. cbn. apply Vy; [exact Hi|]. cbn. tauto.
Qed.

End LoadingSuccess.

(** A quarter of [m], rounded up. *)
Lemma ceil_quarter (m : nat) (q : Q) :
  (q == 1 # 4)%Q -> Z.to_nat (Qceiling (q * inject_Z (Z.of_nat m))) = (m + 3) / 4.
Proof.
  intros H. rewrite H. unfold Qceiling, Qfloor, Qmult, Qopp, inject_Z.
  cbn [Qnum Qden].
  apply Nat2Z.inj. rewrite Nat2Z.inj_div, Nat2Z.inj_add.
  change (Z.pos (4 * 1)) with 4%Z.
  change (Z.of_nat 3) with 3%Z. change (Z.of_nat 4) with 4%Z.
  rewrite Z2Nat.id; Z.to_euclidean_division_equations; lia.
Qed.

Section PipelineShapes.
Import ProcessData Numpy.
Variable rng : Type.
Variable random_noise :
  Noise.noise_mode -> option Q -> rng -> tensor Q -> rng * tensor Q.
Variable choice : rng -> nat -> nat -> rng * list nat.
Variable permutation : rng -> nat -> rng * list nat.

(** [rng.permutation(k)] returns the integers below [k] in some order. *)
Hypothesis permutation_spec :
  forall s k, Permutation (snd (permutation s k)) (seq 0 k).

Lemma adjust_timesteps_length (l : list Z) :
  length (adjust_timesteps l) = length l.
Proof. destruct l; cbn; [reflexivity|]. rewrite length_map. reflexivity. Qed.

Lemma augment_data_shapes (X_data y_data : tensor Q) (n d c t cy : nat)
  (augment : bool) (k : Z) :
  shape X_data = [n; d; d; c] ->
  shape y_data = [n; t; d; d; cy] ->
  exists x y,
    augment_data X_data y_data augment k = Ok (x, y) /\
    shape x = [(if augment then n + n else n); d; d; c] /\
    shape y = [(if augment then n + n else n); t; d; d; cy].
Proof.
  intros HX HY. unfold augment_data. destruct augment.
  - destruct (rot90_features X_data n d c k HX) as (xrot & -> & Sx & _).
    destruct (rot90_targets y_data n t d cy k HY) as (yrot & -> & Sy & _).
    cbn [rbind].
    destruct (concat0_run X_data xrot n n _ HX Sx) as (x & -> & Sx' & _).
    destruct (concat0_run y_data yrot n n _ HY Sy) as (y & -> & Sy' & _).
    cbn [rbind]. exists x, y. auto.
  - exists X_data, y_data. auto.
Qed.

Lemma validate_shuffle_split_quarter (m : nat) (q : Q) :
  (q == 1 # 4)%Q ->
  (2 <= m -> validate_shuffle_split m q = Ok (m - (m + 3) / 4, (m + 3) / 4)) /\
  (m <= 1 ->
   validate_shuffle_split m q = Err (ValueError "the resulting train set will be empty")).
Proof.
  intros H. unfold validate_shuffle_split.
  destruct (Qle_bool q 0) eqn:E0; [apply Qle_bool_iff in E0; lra|].
  destruct (Qle_bool 1 q) eqn:E1; [apply Qle_bool_iff in E1; lra|].
  cbn [orb]. rewrite (ceil_quarter m q H).
  pose proof (Nat.div_mod_eq (m + 3) 4) as Hd.
  pose proof (Nat.mod_upper_bound (m + 3) 4 ltac:(lia)) as Hm.
  split; intros Hle.
  - destruct (Nat.eqb_spec (m - (m + 3) / 4) 0); [lia | reflexivity].
  - destruct (Nat.eqb_spec (m - (m + 3) / 4) 0); [reflexivity | lia].
Qed.

Lemma take_rows_run (a : tensor Q) (n : nat) (s idx : list nat) :
  shape a = n :: s ->
  Forall (fun i => i < n) idx ->
  take_rows a idx
  = Ok (Tensor.mk (length idx :: s)
          (fun ix => match ix with
                     | j :: r => val a (nth j idx 0 :: r)
                     | [] => val a []
                     end)).
Proof.
  intros Hs Hall. unfold take_rows. rewrite Hs.
  replace (forallb (fun i => i <? n) idx) with true; [reflexivity|].
  symmetry. apply forallb_forall. intros i Hi.
  rewrite Forall_forall in Hall. apply Nat.ltb_lt, Hall, Hi.
Qed.

Lemma permutation_below (s : rng) (m : nat) :
  length (snd (permutation s m)) = m /\
  Forall (fun i => i < m) (snd (permutation s m)).
Proof using permutation_spec.
  pose proof (permutation_spec s m) as Hp. split.
  - rewrite (Permutation_length Hp). apply length_seq.
  - apply Permutation_sym in Hp. eapply Permutation_Forall; [exact Hp|].
    apply Forall_forall. intros i Hi. apply in_seq in Hi. lia.
Qed.

(** The split of [m >= 2] samples with a test size of one quarter. *)
Lemma train_test_split_quarter (X y : tensor Q) (m : nat) (sx sy : list nat)
  (q : Q) (s : rng) :
  shape X = m :: sx -> shape y = m :: sy -> (q == 1 # 4)%Q -> 2 <= m ->
  exists X_train X_test y_train y_test,
    train_test_split rng permutation X y q s
    = Ok (fst (permutation s m), (X_train, X_test, y_train, y_test)) /\
    shape X_train = (m - (m + 3) / 4) :: sx /\
    shape X_test = (m + 3) / 4 :: sx /\
    shape y_train = (m - (m + 3) / 4) :: sy /\
    shape y_test = (m + 3) / 4 :: sy /\
    (forall j r, j < (m + 3) / 4 ->
       val X_test (j :: r) = val X (nth j (snd (permutation s m)) 0 :: r) /\
       val y_test (j :: r) = val y (nth j (snd (permutation s m)) 0 :: r)) /\
    (forall j r, j < m - (m + 3) / 4 ->
       val X_train (j :: r)
       = val X (nth ((m + 3) / 4 + j) (snd (permutation s m)) 0 :: r) /\
       val y_train (j :: r)
       = val y (nth ((m + 3) / 4 + j) (snd (permutation s m)) 0 :: r)).
Proof using permutation_spec.
  intros HX Hy Hq Hm. unfold train_test_split. rewrite HX, Hy, Nat.eqb_refl.
  destruct (validate_shuffle_split_quarter m q Hq) as [Hv _]. rewrite (Hv Hm).
  cbn [rbind fst snd].
  destruct (permutation_below s m) as [Hlen Hall].
  set (perm := snd (permutation s m)) in Hlen, Hall |- *.
  set (n_test := (m + 3) / 4).
  assert (Hnt : n_test <= m).
  { subst n_test. pose proof (Nat.div_mod_eq (m + 3) 4).
    pose proof (Nat.mod_upper_bound (m + 3) 4 ltac:(lia)). lia. }
  assert (Htest : Forall (fun i => i < m) (firstn n_test perm))
    by (apply Forall_take, Hall).
  assert (Htrain : Forall (fun i => i < m) (firstn (m - n_test) (skipn n_test perm)))
    by (apply Forall_take, Forall_drop, Hall).
  rewrite (take_rows_run X m sx _ HX Htrain). cbn [rbind].
  rewrite (take_rows_run X m sx _ HX Htest). cbn [rbind].
  rewrite (take_rows_run y m sy _ Hy Htrain). cbn [rbind].
  rewrite (take_rows_run y m sy _ Hy Htest). cbn [rbind].
  eexists _, _, _, _. split; [reflexivity|]. cbn [shape val].
  assert (L1 : length (firstn n_test perm) = n_test)
    by (rewrite length_firstn; lia).
  assert (L2 : length (firstn (m - n_test) (skipn n_test perm)) = m - n_test)
    by (rewrite length_firstn, length_skipn; lia).
  rewrite L1, L2.
  repeat (split; [reflexivity|]).
  split.
  - intros j r Hj. rewrite !nth_firstn.
    destruct (Nat.ltb_spec j n_test); [|lia]. split; reflexivity.
  - intros j r Hj. rewrite !nth_firstn, !nth_skipn.
    destruct (Nat.ltb_spec j (m - n_test)); [|lia]. split; reflexivity.
Qed.

(** X11. End to end, without noise and without subsampling, for a test size
    of one quarter, on [n > 0] square samples whose targets have enough
    frames for the adjusted time samples, the configured time samples being
    a non-empty list of integers that fit 64 bits.  The corpus has
    [m = n] or, with augmentation, [m = 2n] samples.  With a single sample
    the train part would be empty and the call raises [ValueError].  With
    two or more it succeeds: the test part has a quarter of the samples,
    rounded up, the train part the rest; the first entries of the drawn
    permutation name the test samples, the following ones the train
    samples, inputs and targets being picked at the same positions; the
    targets keep one frame per configured time sample; no normalised value
    is negative; and the four arrays are the ones written to the archive
    when [save_model] is set. *)
Theorem process_data_shapes_and_ranges (self : SpatiotemporalCO2)
  (X_data y_data : tensor Q) (n d c T cy m : nat) (augment : bool) (k : Z)
  (s : rng) :
  shape X_data = [n; d; d; c] ->
  shape y_data = [n; T; d; d; cy] ->
  0 < n -> 0 < d -> 0 < c -> 0 < T -> 0 < cy ->
  t_samples self <> [] ->
  Forall (fun t => (- 2 ^ 63 <= t < 2 ^ 63)%Z) (t_samples self) ->
  Forall (frame_in_range T) (adjust_timesteps (t_samples self)) ->
  (test_size self == 1 # 4)%Q ->
  m = (if augment then 2 * n else n) ->
  (m = 1 ->
   process_data rng random_noise choice permutation self X_data y_data None
     augment k false s
   = Err (ValueError "the resulting train set will be empty")) /\
  (2 <= m ->
   exists p,
     process_data rng random_noise choice permutation self X_data y_data None
       augment k false s
     = Ok (fst (permutation s m), p) /\
     shape (X_norm p) = [m; d; d; c] /\
     shape (y_norm p) = [m; T; d; d; cy] /\
     shape (X_train p) = [m - (m + 3) / 4; d; d; c] /\
     shape (X_test p) = [(m + 3) / 4; d; d; c] /\
     shape (y_train p) = [m - (m + 3) / 4; length (t_samples self); d; d; cy] /\
     shape (y_test p) = [(m + 3) / 4; length (t_samples self); d; d; cy] /\
     (forall j f r, j < (m + 3) / 4 -> f < length (t_samples self) ->
        val (X_test p) (j :: r)
        = val (X_norm p) (nth j (snd (permutation s m)) 0 :: r) /\
        val (y_test p) (j :: f :: r)
        = val (y_norm p)
            (nth j (snd (permutation s m)) 0
             :: Z.to_nat (nth f (adjust_timesteps (t_samples self)) 0%Z
                          mod Z.of_nat T)
             :: r)) /\
     (forall j f r, j < m - (m + 3) / 4 -> f < length (t_samples self) ->
        val (X_train p) (j :: r)
        = val (X_norm p) (nth ((m + 3) / 4 + j) (snd (permutation s m)) 0 :: r) /\
        val (y_train p) (j :: f :: r)
        = val (y_norm p)
            (nth ((m + 3) / 4 + j) (snd (permutation s m)) 0
             :: Z.to_nat (nth f (adjust_timesteps (t_samples self)) 0%Z
                          mod Z.of_nat T)
             :: r)) /\
     (forall idx, (0 <= val (X_norm p) idx)%Q) /\
     (forall idx, (0 <= val (y_norm p) idx)%Q) /\
     xy_data_npz p
     = (if save_model self then
          Some (<["y_test" := y_test p]> (<["y_train" := y_train p]>
                (<["X_test" := X_test p]> (<["X_train" := X_train p]> ∅))))
        else None)).
Proof using permutation_spec.
  intros HX HY Pn Pd Pc PT Pcy Hne _ Hts Hq Hm. unfold process_data.
  destruct (augment_data_shapes X_data y_data n d c T cy augment k HX HY)
    as (x & y & -> & Sx & Sy).
  cbn [rbind fst snd].
  replace (if augment then n + n else n) with m in Sx, Sy
    by (subst m; destruct augment; lia).
  assert (Pm : 0 < m) by (subst m; destruct augment; lia).
  clear Hm.
  destruct (normalize_features_unit_range x m d d c Sx ltac:(nia) Pc)
    as (xn & -> & Sxn & Vxn).
  cbn [rbind fst snd].
  destruct (normalize_targets_unit_range y m T d d cy Sy ltac:(nia) ltac:(nia))
    as (yn & -> & Syn & Vyn).
  cbn [rbind]. unfold take_frames. rewrite Syn, Sy.
  rewrite <- (adjust_timesteps_length (t_samples self)).
  assert (Hne' : adjust_timesteps (t_samples self) <> []).
  { intros E. apply Hne. apply length_zero_iff_nil.
    rewrite <- adjust_timesteps_length, E. reflexivity. }
  set (ts := adjust_timesteps (t_samples self)) in *.
  destruct ts as [|t0 ts0] eqn:Ets; [congruence|]. rewrite <- Ets in *.
  rewrite (positions_in_range T _ Hts). cbn [rbind].
  rewrite Sx in Sxn.
  match goal with |- context [train_test_split _ _ xn ?yf _ _] =>
    set (y_frames := yf) end.
  split.
  - intros ->. unfold train_test_split. rewrite Sxn. subst y_frames. cbn [shape].
    rewrite Nat.eqb_refl.
    destruct (validate_shuffle_split_quarter 1 (test_size self) Hq) as [_ Hv].
    rewrite (Hv (le_n 1)). reflexivity.
  - intros Hm2.
    destruct (train_test_split_quarter xn y_frames m [d; d; c]
                (length (map (fun t => Z.to_nat (t mod Z.of_nat T)) ts) :: [d; d; cy])
                (test_size self) s Sxn eq_refl Hq Hm2)
      as (Xtr & Xte & ytr & yte & -> & S1 & S2 & S3 & S4 & Vte & Vtr).
    cbn [rbind]. eexists. split; [reflexivity|].
    cbn [X_norm y_norm X_train X_test y_train y_test xy_data_npz].
    rewrite length_map in S3, S4.
    repeat (split; [congruence|]).
    split.
    { intros j f r Hj Hf. destruct (Vte j r Hj) as [E1 _].
      destruct (Vte j (f :: r) Hj) as [_ E2]. split; [exact E1|].
      rewrite E2. subst y_frames. cbn [val].
      rewrite (nth_indep (map (fun t => Z.to_nat (t mod Z.of_nat T)) ts) 0
                 (Z.to_nat (0 mod Z.of_nat T)))
        by (rewrite length_map; exact Hf).
      rewrite (map_nth (fun t => Z.to_nat (t mod Z.of_nat T))). reflexivity. }
    split.
    { intros j f r Hj Hf. destruct (Vtr j r Hj) as [E1 _].
      destruct (Vtr j (f :: r) Hj) as [_ E2]. split; [exact E1|].
      rewrite E2. subst y_frames. cbn [val].
      rewrite (nth_indep (map (fun t => Z.to_nat (t mod Z.of_nat T)) ts) 0
                 (Z.to_nat (0 mod Z.of_nat T)))
        by (rewrite length_map; exact Hf).
      rewrite (map_nth (fun t => Z.to_nat (t mod Z.of_nat T))). reflexivity. }
    split; [intros idx; apply Vxn|].
    split; [intros idx; apply Vyn|].
    reflexivity.
Qed.

End PipelineShapes.

Section ReshapeRoundTrip.
Import Numpy.

Lemma ravel_lt (shp idx : list nat) :
  in_bounds idx shp -> ravel shp idx < size shp.
Proof.
  revert shp. induction idx as [|i idx IH]; intros [|d shp]; cbn; try tauto.
  - lia.
  - intros [Hi Hr]. specialize (IH shp Hr). unfold size in IH.
    set (sz := fold_right Nat.mul 1 shp) in *. nia.
Qed.

Lemma unravel_ravel (shp idx : list nat) :
  in_bounds idx shp -> unravel shp (ravel shp idx) = idx.
Proof.
  revert shp. induction idx as [|i idx IH]; intros [|d shp]; cbn; try tauto.
  intros [Hi Hr]. pose proof (ravel_lt shp idx Hr) as Hlt. unfold size in Hlt.
  set (sz := fold_right Nat.mul 1 shp) in *.
  rewrite Nat.div_add_l by lia. rewrite (Nat.div_small _ sz Hlt), Nat.add_0_r.
  rewrite (Nat.mod_small i d Hi).
  rewrite Nat.add_comm, Nat.Div0.mod_add, (Nat.mod_small _ sz Hlt).
  rewrite (IH shp Hr). reflexivity.
Qed.

Lemma unravel_in_bounds (shp : list nat) (f : nat) :
  f < size shp -> in_bounds (unravel shp f) shp.
Proof.
  revert f. induction shp as [|d shp IH]; intros f; cbn; [tauto|].
  unfold size in IH. set (sz := fold_right Nat.mul 1 shp) in *. intros Hf.
  assert (Hsz : 0 < sz) by nia. assert (Hd : 0 < d) by nia.
  split; [apply Nat.mod_upper_bound; lia|].
  apply IH, Nat.mod_upper_bound. lia.
Qed.

Lemma ravel_unravel (shp : list nat) (f : nat) :
  f < size shp -> ravel shp (unravel shp f) = f.
Proof.
  revert f. induction shp as [|d shp IH]; intros f; cbn; [lia|].
  unfold size in IH. set (sz := fold_right Nat.mul 1 shp) in *. intros Hf.
  assert (Hsz : 0 < sz) by nia.
  rewrite IH by (apply Nat.mod_upper_bound; lia).
  rewrite Nat.mod_small by (apply Nat.Div0.div_lt_upper_bound; lia).
  pose proof (Nat.div_mod_eq f sz). lia.
Qed.

(** X12. Reshaping to any shape with as many elements and back gives the array
    again: every entry returns to its index. *)
Theorem reshape_round_trip {V} (m : tensor V) (s : list nat) :
  size (shape m) = size s ->
  exists m1 m2,
    reshape m s = Ok m1 /\ shape m1 = s /\
    reshape m1 (shape m) = Ok m2 /\ shape m2 = shape m /\
    forall idx, in_bounds idx (shape m) -> val m2 idx = val m idx.
Proof.
  intros Hz. unfold reshape.
  rewrite Hz, Nat.eqb_refl. eexists _, _. split; [reflexivity|].
  cbn [shape]. split; [reflexivity|]. rewrite <- Hz, Nat.eqb_refl.
  split; [reflexivity|]. split; [reflexivity|].
  intros idx Hb. cbn [val].
  rewrite ravel_unravel by (rewrite <- Hz; apply ravel_lt, Hb).
  rewrite unravel_ravel by exact Hb. reflexivity.
Qed.

End ReshapeRoundTrip.

Section PerChannelFeatures.
Import ProcessData Numpy MinMaxScaler.

Lemma In_indices (s l : list nat) : In l (indices s) <-> in_bounds l s.
Proof.
  revert l. induction s as [|d s IH]; intros l; cbn.
  - destruct l; cbn; intuition congruence.
  - rewrite in_flat_map. split.
    + intros (i & Hi & Hl). apply in_map_iff in Hl as (l' & <- & Hl').
      apply in_seq in Hi. cbn. split; [lia | apply IH, Hl'].
    + destruct l as [|i l']; cbn; [tauto|]. intros [Hi Hl'].
      exists i. split; [apply in_seq; lia|].
      apply in_map, IH, Hl'.
Qed.

Lemma size_snoc (s : list nat) (C : nat) : size (s ++ [C]) = size s * C.
Proof.
  unfold size. induction s as [|d s IH]; cbn; [lia|]. rewrite IH. lia.
Qed.

Lemma unravel_snoc (s : list nat) (C r k : nat) :
  k < C -> unravel (s ++ [C]) (r * C + k) = unravel s r ++ [k].
Proof.
  intros Hk. revert r. induction s as [|d s IH]; intros r.
  - cbn [app unravel fold_right]. rewrite Nat.div_1_r, Nat.add_comm, Nat.Div0.mod_add.
    rewrite Nat.mod_small by exact Hk. reflexivity.
  - cbn [app unravel]. fold (size (s ++ [C])). fold (size s).
    rewrite size_snoc.
    assert (E1 : (r * C + k) / (size s * C) = r / size s).
    { rewrite (Nat.mul_comm (size s) C), <- Nat.Div0.div_div.
      rewrite Nat.div_add_l by lia. rewrite (Nat.div_small k C Hk), Nat.add_0_r.
      reflexivity. }
    assert (E2 : (r * C + k) mod (size s * C) = (r mod size s) * C + k).
    { rewrite (Nat.mul_comm (size s) C), Nat.Div0.mod_mul_r.
      rewrite Nat.div_add_l by lia. rewrite (Nat.div_small k C Hk), Nat.add_0_r.
      rewrite (Nat.add_comm (r * C) k), Nat.Div0.mod_add.
      rewrite (Nat.mod_small k C Hk). lia. }
    rewrite E1, E2, IH. reflexivity.
Qed.

Lemma ravel_snoc (s l : list nat) (C k : nat) :
  length l = length s -> ravel (s ++ [C]) (l ++ [k]) = ravel s l * C + k.
Proof.
  revert l. induction s as [|d s IH]; intros [|i l]; cbn; try discriminate.
  - intros _. lia.
  - intros [= Hl]. rewrite (IH l Hl). fold (size (s ++ [C])). fold (size s).
    rewrite size_snoc. lia.
Qed.

Lemma list_min_le (a : Q) (l : list Q) :
  (fold_left qmin l a <= a)%Q /\
  (forall v, In v l -> fold_left qmin l a <= v)%Q.
Proof.
  revert a. induction l as [|x l IH]; intros a; simpl.
  - split; [apply Qle_refl | tauto].
  - destruct (IH (qmin a x)) as [H1 H2]. split.
    + eapply Qle_trans; [exact H1 | apply qmin_le_l].
    + intros v [<-|Hv]; [|apply H2, Hv].
      eapply Qle_trans; [exact H1 | apply qmin_le_r].
Qed.

Lemma list_max_ge (a : Q) (l : list Q) :
  (a <= fold_left qmax l a)%Q /\
  (forall v, In v l -> v <= fold_left qmax l a)%Q.
Proof.
  revert a. induction l as [|x l IH]; intros a; simpl.
  - split; [apply Qle_refl | tauto].
  - destruct (IH (qmax a x)) as [H1 H2]. split.
    + eapply Qle_trans; [apply qmax_ge_l | exact H1].
    + intros v [<-|Hv]; [|apply H2, Hv].
      eapply Qle_trans; [apply qmax_ge_r | exact H1].
Qed.

Lemma list_min_in (a : Q) (l : list Q) : In (fold_left qmin l a) (a :: l).
Proof.
  revert a. induction l as [|x l IH]; intros a; simpl; [auto|].
  destruct (IH (qmin a x)) as [E|H]; [|auto].
  rewrite <- E. unfold qmin. destruct (Qle_bool a x); auto.
Qed.

Lemma list_max_in (a : Q) (l : list Q) : In (fold_left qmax l a) (a :: l).
Proof.
  revert a. induction l as [|x l IH]; intros a; simpl; [auto|].
  destruct (IH (qmax a x)) as [E|H]; [|auto].
  rewrite <- E. unfold qmax. destruct (Qle_bool a x); auto.
Qed.

End PerChannelFeatures.

Section PerChannelTheorem.
Import ProcessData Numpy MinMaxScaler.

Lemma fit_transform_values (m : tensor Q) (rows cols : nat) :
  shape m = [rows; cols] -> 0 < rows -> 0 < cols ->
  exists sc,
    fit_transform m = Ok sc /\ shape sc = [rows; cols] /\
    forall r k,
      (val sc [r; k]
       == (val m [r; k] - data_min m rows k)
          / handle_zeros_in_scale (data_max m rows k - data_min m rows k))%Q.
Proof.
  intros Hs Hr Hc. unfold fit_transform. rewrite Hs.
  destruct (Nat.eqb_spec rows 0); [lia|]. destruct (Nat.eqb_spec cols 0); [lia|].
  cbn [orb]. eexists. split; [reflexivity|]. split; [reflexivity|].
  intros r k. cbn [val]. unfold min_, scale_. apply scaled_value.
Qed.

Lemma handle_zeros_compat (a b : Q) :
  (a == b)%Q -> (handle_zeros_in_scale a == handle_zeros_in_scale b)%Q.
Proof.
  intros H.
  destruct (handle_zeros_cases a) as [[Ha ->]|[Ha ->]];
    destruct (handle_zeros_cases b) as [[Hb ->]|[Hb ->]];
    try reflexivity; try exact H; lra.
Qed.

Lemma handle_zeros_nonzero (a : Q) : ~ (handle_zeros_in_scale a == 0)%Q.
Proof.
  pose proof (handle_zeros_positive a) as H. lra.
Qed.

Section Channel.
Variable x : tensor Q.
Variables n h w c k : nat.
Hypothesis Hs : shape x = [n; h; w; c].
Hypothesis HR : 0 < n * h * w.
Hypothesis Hk : k < c.

Local Abbreviation m := (feature_rows x n h w c).

Lemma matrix_entry (r : nat) : val m [r; k] = val x (unravel [n; h; w] r ++ [k]).
Proof using All.
  unfold feature_rows. cbn [val].
  replace (ravel [n * h * w; c] [r; k]) with (r * c + k) by (cbn; lia).
  apply f_equal. apply (unravel_snoc [n; h; w] c r k Hk).
Qed.

Lemma size_lead : size [n; h; w] = n * h * w.
Proof using All. unfold size. cbn. lia. Qed.

(** Every entry of column [k] is a value of channel [k] and conversely. *)
Lemma column_in_channel (r : nat) :
  r < n * h * w -> In (val m [r; k]) (channel_values x [n; h; w] k).
Proof using All.
  intros Hr. rewrite matrix_entry. unfold channel_values.
  apply (in_map (fun idx => val x (idx ++ [k]))).
  apply In_indices, unravel_in_bounds. rewrite size_lead. exact Hr.
Qed.

Lemma channel_in_column (v : Q) :
  In v (channel_values x [n; h; w] k) ->
  exists r, r < n * h * w /\ v = val m [r; k].
Proof using All.
  unfold channel_values. intros Hv. apply in_map_iff in Hv as (l & <- & Hl).
  apply In_indices in Hl. exists (ravel [n; h; w] l). split.
  - rewrite <- size_lead. apply ravel_lt, Hl.
  - rewrite matrix_entry, (unravel_ravel _ _ Hl). reflexivity.
Qed.

Lemma channel_nonempty : channel_values x [n; h; w] k <> [].
Proof using All.
  intros E. pose proof (column_in_channel 0 ltac:(lia)) as H. rewrite E in H. exact H.
Qed.

Lemma column_min_is_channel_min :
  (data_min m (n * h * w) k == list_min (channel_values x [n; h; w] k))%Q.
Proof using All.
  pose proof channel_nonempty as Hne.
  destruct (channel_values x [n; h; w] k) as [|a l] eqn:E; [congruence|].
  cbn [list_min]. apply Qle_antisym.
  - destruct (list_min_in a l) as [Hin|Hin].
    + assert (Ha : In a (channel_values x [n; h; w] k)) by (rewrite E; left; reflexivity).
      destruct (channel_in_column a Ha) as (r & Hr & Er).
      rewrite <- Hin, Er. apply data_min_le, Hr.
    + assert (Ha : In (fold_left qmin l a) (channel_values x [n; h; w] k))
        by (rewrite E; right; exact Hin).
      destruct (channel_in_column _ Ha) as (r & Hr & Er).
      rewrite Er. apply data_min_le, Hr.
  - destruct (data_min_attained m (n * h * w) k HR) as (r & Hr & ->).
    pose proof (column_in_channel r Hr) as Hin. rewrite E in Hin.
    destruct (list_min_le a l) as [L0 L1].
    destruct Hin as [<-|Hin]; [exact L0 | apply L1, Hin].
Qed.

Lemma column_max_is_channel_max :
  (data_max m (n * h * w) k == list_max (channel_values x [n; h; w] k))%Q.
Proof using All.
  pose proof channel_nonempty as Hne.
  destruct (channel_values x [n; h; w] k) as [|a l] eqn:E; [congruence|].
  cbn [list_max]. apply Qle_antisym.
  - destruct (data_max_attained m (n * h * w) k HR) as (r & Hr & ->).
    pose proof (column_in_channel r Hr) as Hin. rewrite E in Hin.
    destruct (list_max_ge a l) as [L0 L1].
    destruct Hin as [<-|Hin]; [exact L0 | apply L1, Hin].
  - destruct (list_max_in a l) as [Hin|Hin].
    + assert (Ha : In a (channel_values x [n; h; w] k)) by (rewrite E; left; reflexivity).
      destruct (channel_in_column a Ha) as (r & Hr & Er).
      rewrite <- Hin, Er. apply data_max_ge, Hr.
    + assert (Ha : In (fold_left qmax l a) (channel_values x [n; h; w] k))
        by (rewrite E; right; exact Hin).
      destruct (channel_in_column _ Ha) as (r & Hr & Er).
      rewrite Er. apply data_max_ge, Hr.
Qed.

End Channel.
End PerChannelTheorem.

Section FeatureNormalization.
Import ProcessData Numpy MinMaxScaler.

(** X13. Feature normalisation is per-channel min-max scaling in full
    generality: on every non-empty input array each entry is mapped to
    (value - channel minimum) / (channel maximum - channel minimum), the
    extremes taken over all samples and pixels of that entry's channel (a
    channel whose range is below ten machine epsilons, a constant one
    among them, being divided by 1). *)
Theorem normalize_features_per_channel (x : tensor Q) (n h w c : nat) :
  shape x = [n; h; w; c] -> 0 < n * h * w -> 0 < c ->
  exists out,
    normalize_features x = Ok out /\
    shape out = shape x /\
    forall idx, in_bounds idx (shape x) ->
      (val out idx == val (per_channel_minmax_spec x) idx)%Q.
Proof.
  intros Hs HR Hc. unfold normalize_features. rewrite Hs.
  unfold reshape at 1. rewrite Hs.
  assert (Hz : size [n; h; w; c] = size [n * h * w; c])
    by (unfold size; cbn [fold_right]; ring).
  rewrite Hz, Nat.eqb_refl. cbn [rbind].
  match goal with |- context [fit_transform ?m] =>
    destruct (fit_transform_values m (n * h * w) c eq_refl HR Hc)
      as (sc & -> & Ss & Vs) end.
  cbn [rbind]. unfold reshape. rewrite Ss, <- Hz, Nat.eqb_refl.
  eexists. split; [reflexivity|]. split; [reflexivity|].
  intros idx Hb.
  destruct idx as [|i [|a [|b [|k [|]]]]]; cbn in Hb; try tauto.
  destruct Hb as (Hi & Ha & Hbb & Hk & _).
  assert (Hlead : in_bounds [i; a; b] [n; h; w]) by (cbn; tauto).
  pose proof (ravel_lt _ _ Hlead) as Hr0.
  assert (Hsz : size [n; h; w] = n * h * w) by (unfold size; cbn; lia).
  rewrite Hsz in Hr0.
  cbn [val].
  replace (ravel [n; h; w; c] [i; a; b; k])
    with (ravel [n * h * w; c] [ravel [n; h; w] [i; a; b]; k])
    by (cbn; lia).
  rewrite unravel_ravel by (cbn; tauto).
  rewrite Vs.
  pose proof (column_min_is_channel_min x n h w c k Hs HR Hk) as Emin.
  pose proof (column_max_is_channel_max x n h w c k Hs HR Hk) as Emax.
  unfold feature_rows in Emin, Emax.
  unfold per_channel_minmax_spec. cbn [val]. rewrite Hs.
  cbn [removelast last].
  replace (ravel [n * h * w; c] [ravel [n; h; w] [i; a; b]; k])
    with (ravel [n; h; w] [i; a; b] * c + k) by (cbn; lia).
  rewrite (unravel_snoc [n; h; w] c _ k Hk), (unravel_ravel _ _ Hlead).
  cbn [app].
  match type of Emin with (?a == ?b)%Q => set (mn1 := a) in *; set (mn2 := b) in * end.
  match type of Emax with (?a == ?b)%Q => set (mx1 := a) in *; set (mx2 := b) in * end.
  assert (Eh : (handle_zeros_in_scale (mx1 - mn1)
                == handle_zeros_in_scale (mx2 - mn2))%Q)
    by (apply handle_zeros_compat; rewrite Emin, Emax; reflexivity).
  pose proof (handle_zeros_nonzero (mx1 - mn1)) as N1.
  pose proof (handle_zeros_nonzero (mx2 - mn2)) as N2.
  set (h1 := handle_zeros_in_scale (mx1 - mn1)) in *.
  set (h2 := handle_zeros_in_scale (mx2 - mn2)) in *.
  rewrite Emin, Eh. reflexivity.
Qed.

End FeatureNormalization.

Section TargetNormalization.
Import ProcessData Numpy MinMaxScaler.

Lemma size_app (s1 s2 : list nat) : size (s1 ++ s2) = size s1 * size s2.
Proof.
  unfold size. induction s1 as [|d s IH]; cbn; [lia|]. rewrite IH. lia.
Qed.

Lemma unravel_periodic (s : list nat) (f r : nat) :
  unravel s (r * size s + f) = unravel s f.
Proof.
  revert f r. induction s as [|d s IH]; intros f r; [reflexivity|].
  cbn [unravel]. fold (size s).
  replace (size (d :: s)) with (d * size s) by reflexivity.
  destruct (Nat.eq_dec (size s) 0) as [Z|NZ].
  - rewrite Z, Nat.mul_0_r, Nat.mul_0_r. reflexivity.
  - replace (r * (d * size s) + f) with (f + (r * d) * size s) by lia.
    rewrite Nat.div_add by exact NZ. rewrite Nat.Div0.mod_add.
    rewrite Nat.Div0.mod_add. reflexivity.
Qed.

Lemma unravel_app (s1 s2 : list nat) (r q : nat) :
  q < size s2 -> unravel (s1 ++ s2) (r * size s2 + q) = unravel s1 r ++ unravel s2 q.
Proof.
  intros Hq. revert r. induction s1 as [|d s IH]; intros r.
  - cbn [app unravel]. apply unravel_periodic.
  - cbn [app unravel]. fold (size (s ++ s2)). fold (size s).
    rewrite size_app.
    assert (E1 : (r * size s2 + q) / (size s * size s2) = r / size s).
    { rewrite (Nat.mul_comm (size s) (size s2)), <- Nat.Div0.div_div.
      rewrite Nat.div_add_l by lia. rewrite (Nat.div_small q _ Hq), Nat.add_0_r.
      reflexivity. }
    assert (E2 : (r * size s2 + q) mod (size s * size s2)
                 = (r mod size s) * size s2 + q).
    { rewrite (Nat.mul_comm (size s) (size s2)), Nat.Div0.mod_mul_r.
      rewrite Nat.div_add_l by lia. rewrite (Nat.div_small q _ Hq), Nat.add_0_r.
      rewrite (Nat.add_comm (r * size s2) q), Nat.Div0.mod_add.
      rewrite (Nat.mod_small q _ Hq). lia. }
    rewrite E1, E2, IH. reflexivity.
Qed.

Section Column.
Variable y : tensor Q.
Variables lead tail : list nat.
Variable q : nat.
Hypothesis HR : 0 < size lead.
Hypothesis Hq : q < size tail.

Local Abbreviation m := (target_rows y lead tail).

Lemma column_entry (r : nat) :
  val m [r; q] = val y (unravel lead r ++ unravel tail q).
Proof using All.
  unfold target_rows. cbn [val].
  replace (ravel [size lead; size tail] [r; q]) with (r * size tail + q)
    by (cbn; lia).
  apply f_equal. apply unravel_app, Hq.
Qed.

Lemma column_in_position (r : nat) :
  r < size lead -> In (val m [r; q]) (position_values y lead (unravel tail q)).
Proof using All.
  intros Hr. rewrite column_entry. unfold position_values.
  apply (in_map (fun idx => val y (idx ++ unravel tail q))).
  apply In_indices, unravel_in_bounds, Hr.
Qed.

Lemma position_in_column (v : Q) :
  In v (position_values y lead (unravel tail q)) ->
  exists r, r < size lead /\ v = val m [r; q].
Proof using All.
  unfold position_values. intros Hv. apply in_map_iff in Hv as (l & <- & Hl).
  apply In_indices in Hl. exists (ravel lead l). split.
  - apply ravel_lt, Hl.
  - rewrite column_entry, (unravel_ravel _ _ Hl). reflexivity.
Qed.

Lemma column_min_is_position_min :
  (data_min m (size lead) q == list_min (position_values y lead (unravel tail q)))%Q.
Proof using All.
  pose proof (column_in_position 0 HR) as H0.
  destruct (position_values y lead (unravel tail q)) as [|a l] eqn:E; [destruct H0|].
  cbn [list_min]. apply Qle_antisym.
  - destruct (list_min_in a l) as [Hin|Hin].
    + assert (Ha : In a (position_values y lead (unravel tail q)))
        by (rewrite E; left; reflexivity).
      destruct (position_in_column a Ha) as (r & Hr & Er).
      rewrite <- Hin, Er. apply data_min_le, Hr.
    + assert (Ha : In (fold_left qmin l a) (position_values y lead (unravel tail q)))
        by (rewrite E; right; exact Hin).
      destruct (position_in_column _ Ha) as (r & Hr & Er).
      rewrite Er. apply data_min_le, Hr.
  - destruct (data_min_attained m (size lead) q HR) as (r & Hr & ->).
    pose proof (column_in_position r Hr) as Hin. rewrite E in Hin.
    destruct (list_min_le a l) as [L0 L1].
    destruct Hin as [<-|Hin]; [exact L0 | apply L1, Hin].
Qed.

Lemma column_max_is_position_max :
  (data_max m (size lead) q == list_max (position_values y lead (unravel tail q)))%Q.
Proof using All.
  pose proof (column_in_position 0 HR) as H0.
  destruct (position_values y lead (unravel tail q)) as [|a l] eqn:E; [destruct H0|].
  cbn [list_max]. apply Qle_antisym.
  - destruct (data_max_attained m (size lead) q HR) as (r & Hr & ->).
    pose proof (column_in_position r Hr) as Hin. rewrite E in Hin.
    destruct (list_max_ge a l) as [L0 L1].
    destruct Hin as [<-|Hin]; [exact L0 | apply L1, Hin].
  - destruct (list_max_in a l) as [Hin|Hin].
    + assert (Ha : In a (position_values y lead (unravel tail q)))
        by (rewrite E; left; reflexivity).
      destruct (position_in_column a Ha) as (r & Hr & Er).
      rewrite <- Hin, Er. apply data_max_ge, Hr.
    + assert (Ha : In (fold_left qmax l a) (position_values y lead (unravel tail q)))
        by (rewrite E; right; exact Hin).
      destruct (position_in_column _ Ha) as (r & Hr & Er).
      rewrite Er. apply data_max_ge, Hr.
Qed.

End Column.
End TargetNormalization.

Section TargetTheorem.
Import ProcessData Numpy MinMaxScaler.

(** X14. Target normalisation is per position, not per channel: on every
    non-empty target array each entry is mapped to (value - minimum) /
    (maximum - minimum), the extremes taken over all samples and frames at
    that entry's own pixel and channel (a range below ten machine epsilons
    being replaced by 1). *)
Theorem normalize_targets_per_position (y : tensor Q) (n t h w c : nat) :
  shape y = [n; t; h; w; c] -> 0 < n * t -> 0 < h * w * c ->
  exists out,
    normalize_targets y = Ok out /\
    shape out = shape y /\
    forall idx, in_bounds idx (shape y) ->
      (val out idx == val (per_position_minmax y) idx)%Q.
Proof.
  intros Hs HR HC. unfold normalize_targets. rewrite Hs.
  assert (ER : n * t = size [n; t]) by (unfold size; cbn; lia).
  assert (EC : h * w * c = size [h; w; c]) by (unfold size; cbn; lia).
  rewrite ER in *. rewrite EC in HC.
  set (R := size [n; t]) in *. set (C := size [h; w; c]) in *.
  assert (Hz : size [n; t; h; w; c] = C * R)
    by (change [n; t; h; w; c] with ([n; t] ++ [h; w; c]); rewrite size_app;
        subst R C; lia).
  unfold reshape_rows. rewrite Hs, Hz, Nat.Div0.mod_mul, Nat.div_mul by lia.
  destruct (Nat.eqb_spec R 0); [lia|]. cbn [Nat.eqb negb orb].
  unfold reshape at 1. rewrite Hs.
  assert (Hz' : size [n; t; h; w; c] = size [R; C])
    by (rewrite Hz; unfold size; cbn; lia).
  rewrite Hz', Nat.eqb_refl. cbn [rbind].
  match goal with |- context [fit_transform ?m] =>
    destruct (fit_transform_values m R C eq_refl HR HC)
      as (sc & -> & Ss & Vs) end.
  cbn [rbind]. unfold reshape. rewrite Ss, <- Hz', Nat.eqb_refl.
  eexists. split; [reflexivity|]. split; [reflexivity|].
  intros idx Hb.
  destruct idx as [|i [|f [|a [|b [|k [|]]]]]]; cbn in Hb; try tauto.
  destruct Hb as (Hi & Hf & Ha & Hbb & Hk & _).
  assert (Hlead : in_bounds [i; f] [n; t]) by (cbn; tauto).
  assert (Htail : in_bounds [a; b; k] [h; w; c]) by (cbn; tauto).
  pose proof (ravel_lt _ _ Hlead) as Hr0. pose proof (ravel_lt _ _ Htail) as Hq0.
  fold R in Hr0. fold C in Hq0.
  set (r0 := ravel [n; t] [i; f]) in *. set (q0 := ravel [h; w; c] [a; b; k]) in *.
  assert (EF : ravel [n; t; h; w; c] [i; f; a; b; k] = ravel [R; C] [r0; q0]).
  { subst r0 q0 R C. unfold size. cbn. lia. }
  cbn [val]. rewrite EF, unravel_ravel by (cbn; tauto).
  rewrite Vs.
  pose proof (column_min_is_position_min y [n; t] [h; w; c] q0 HR Hq0) as Emin.
  pose proof (column_max_is_position_max y [n; t] [h; w; c] q0 HR Hq0) as Emax.
  unfold target_rows in Emin, Emax. fold R C in Emin, Emax.
  change ([n; t] ++ [h; w; c]) with [n; t; h; w; c] in Emin, Emax.
  subst q0. rewrite (unravel_ravel _ _ Htail) in Emin, Emax.
  set (q0 := ravel [h; w; c] [a; b; k]) in *.
  unfold per_position_minmax. cbn [val]. rewrite Hs.
  cbn [firstn skipn].
  replace (ravel [R; C] [r0; q0]) with (r0 * size [h; w; c] + q0)
    by (unfold C, size; cbn; lia).
  change [n; t; h; w; c] with ([n; t] ++ [h; w; c]).
  rewrite (unravel_app [n; t] [h; w; c] r0 q0 Hq0).
  subst r0 q0. rewrite (unravel_ravel _ _ Hlead), (unravel_ravel _ _ Htail).
  cbn [app].
  match type of Emin with (?a == ?b)%Q => set (mn1 := a) in *; set (mn2 := b) in * end.
  match type of Emax with (?a == ?b)%Q => set (mx1 := a) in *; set (mx2 := b) in * end.
  assert (Eh : (handle_zeros_in_scale (mx1 - mn1)
                == handle_zeros_in_scale (mx2 - mn2))%Q)
    by (apply handle_zeros_compat; rewrite Emin, Emax; reflexivity).
  set (h1 := handle_zeros_in_scale (mx1 - mn1)) in *.
  set (h2 := handle_zeros_in_scale (mx2 - mn2)) in *.
  rewrite Emin, Eh. reflexivity.
Qed.

End TargetTheorem.

(** * Further properties: reporting and the main script *)

Section CumulativeFacts.
Import CumulativeCO2.

Lemma above_cons (thresh v : Q) (l : list Q) :
  above thresh (v :: l)
  = if Qle_bool v thresh then above thresh l else v :: above thresh l.
Proof. unfold above. cbn [filter]. destruct (Qle_bool v thresh); reflexivity. Qed.

Lemma qsum_cons (v : Q) (l : list Q) : qsum (v :: l) = (v + qsum l)%Q.
Proof. reflexivity. Qed.

Lemma not_le_bool (v t : Q) : Qle_bool v t = false -> (t < v)%Q.
Proof.
  intros E. destruct (Qlt_le_dec t v) as [H|H]; [exact H|].
  apply Qle_bool_iff in H. congruence.
Qed.

Lemma qsum_above_nonneg (thresh : Q) (l : list Q) :
  (0 <= thresh)%Q -> (0 <= qsum (above thresh l))%Q.
Proof.
  intros Ht. induction l as [|v l IH]; [apply Qle_refl|].
  rewrite above_cons. destruct (Qle_bool v thresh) eqn:E; [exact IH|].
  rewrite qsum_cons. apply not_le_bool in E. lra.
Qed.

Lemma qsum_above_antitone (t1 t2 : Q) (l : list Q) :
  (0 <= t1)%Q -> (t1 <= t2)%Q -> (qsum (above t2 l) <= qsum (above t1 l))%Q.
Proof.
  intros H0 H12. induction l as [|v l IH]; [apply Qle_refl|].
  rewrite !above_cons.
  destruct (Qle_bool v t2) eqn:E2; destruct (Qle_bool v t1) eqn:E1;
    rewrite ?qsum_cons.
  - exact IH.
  - apply not_le_bool in E1. lra.
  - apply Qle_bool_iff in E1.
    assert (Hv : (v <= t2)%Q) by lra. apply Qle_bool_iff in Hv. congruence.
  - lra.
Qed.

Lemma qsum_above_none (thresh : Q) (l : list Q) :
  Forall (fun v => (v <= thresh)%Q) l -> above thresh l = [].
Proof.
  induction 1 as [|v l Hv _ IH]; [reflexivity|].
  rewrite above_cons. apply Qle_bool_iff in Hv. rewrite Hv. exact IH.
Qed.

Lemma co2_loop (true pred : tensor Q) (thresh : Q) (n d np dp : nat)
  (s sp : list nat) (k : nat) :
  shape true = n :: d :: s -> shape pred = np :: dp :: sp -> k <= np ->
  for_each (co2_body true pred thresh) (seq 0 k) ([], [])
  = Ok (map (co2_of true thresh) (seq 0 k), map (co2_of pred thresh) (seq 0 k)).
Proof.
  intros Ht Hp. induction k as [|k IH]; intros Hk; [reflexivity|].
  rewrite seq_S, for_each_app, IH by lia. cbn [rbind for_each Nat.add].
  unfold co2_body. rewrite Ht, Hp. destruct (Nat.ltb_spec k np); [|lia].
  cbn [fst snd rbind]. rewrite !map_app. reflexivity.
Qed.

(** X15. The per-sample totals, on arrays with at least two axes: one total
    per sample of [true] in either list, the first list holding the sum of
    the entries of that sample of [true] above the threshold, the second
    the same sum for that sample of [pred].  For a non-negative threshold
    no total is negative, a sample with nothing above the threshold totals
    0, and raising the threshold can only lower a total.  Predictions with
    fewer samples than the ground truth raise [IndexError]. *)
Theorem compare_cumulative_co2_totals (true pred : tensor Q) (n d np dp : nat)
  (s sp : list nat) (t1 t2 : Q) :
  shape true = n :: d :: s -> shape pred = np :: dp :: sp ->
  (0 <= t1)%Q -> (t1 <= t2)%Q ->
  (n <= np ->
   exists tl pl tl2 pl2,
     compare_cumulative_co2 true pred t1 = Ok (tl, pl) /\
     compare_cumulative_co2 true pred t2 = Ok (tl2, pl2) /\
     length tl = n /\ length pl = n /\
     forall i, i < n ->
       nth i tl 0%Q = co2_of true t1 i /\
       nth i pl 0%Q = co2_of pred t1 i /\
       (0 <= nth i tl 0)%Q /\ (0 <= nth i pl 0)%Q /\
       (nth i tl2 0 <= nth i tl 0)%Q /\ (nth i pl2 0 <= nth i pl 0)%Q /\
       (Forall (fun v => (v <= t1)%Q) (sample_entries true i) -> (nth i tl 0 == 0)%Q)) /\
  (np < n -> compare_cumulative_co2 true pred t1 = Err IndexError).
Proof.
  intros Ht Hp H0 H12. unfold compare_cumulative_co2. rewrite Ht. split.
  - intros Hn. rewrite !(co2_loop true pred _ n d np dp s sp n Ht Hp Hn).
    eexists _, _, _, _. split; [reflexivity|]. split; [reflexivity|].
    rewrite !length_map, length_seq. split; [reflexivity|]. split; [reflexivity|].
    intros i Hi.
    assert (E : forall (t : tensor Q) th,
               nth i (map (co2_of t th) (seq 0 n)) 0%Q = co2_of t th i).
    { intros t th. rewrite (nth_indep _ 0%Q (co2_of t th 0))
        by (rewrite length_map, length_seq; exact Hi).
      rewrite (map_nth (co2_of t th)), seq_nth by exact Hi. reflexivity. }
    rewrite !E. unfold co2_of.
    split; [reflexivity|].
    split; [reflexivity|].
    split; [apply qsum_above_nonneg, H0|].
    split; [apply qsum_above_nonneg, H0|].
    split; [apply qsum_above_antitone; assumption|].
    split; [apply qsum_above_antitone; assumption|].
    intros Hall. rewrite (qsum_above_none _ _ Hall). reflexivity.
  - intros Hn.
    rewrite (seq_split_at np n Hn), for_each_app.
    rewrite (co2_loop true pred t1 n d np dp s sp np Ht Hp (Nat.le_refl _)).
    cbn [rbind for_each]. unfold co2_body at 1. rewrite Ht, Hp.
    rewrite Nat.ltb_irrefl. reflexivity.
Qed.

End CumulativeFacts.

Section MainFacts.
Import Instance Main.

(** X16. On any instance that does not shadow them with attributes of its own,
    three of the eleven methods the script calls cannot be found:
    [check_tensorflow_gpu] (the class defines [check_tf]), [training] and
    [predictions]; looking them up raises [AttributeError].  The other
    eight resolve to methods of the class. *)
Theorem main_calls_undefined_methods (self : gmap string value) :
  (forall name, In name main_calls -> self !! name = None) ->
  resolves self
  = [("check_tensorflow_gpu", false); ("load_data", true); ("process_data", true);
     ("plot_data", true); ("plot_features", true); ("plot_targets", true);
     ("make_model", true); ("training", false); ("predictions", false);
     ("plot_single_results", true); ("cumulative_co2", true)] /\
  getattr self "check_tensorflow_gpu" = Err (AttributeError "check_tensorflow_gpu") /\
  getattr self "training" = Err (AttributeError "training") /\
  getattr self "predictions" = Err (AttributeError "predictions").
Proof.
  intros Hnone.
  assert (G : forall name, In name main_calls ->
            getattr self name
            = if existsb (String.eqb name) class_methods then Ok (VMethod name)
              else Err (AttributeError name)).
  { intros name Hin. unfold getattr. rewrite (Hnone name Hin). reflexivity. }
  unfold resolves, main_calls. cbn [map].
  rewrite !G by (cbn; tauto). split; [reflexivity|].
  split; [|split]; reflexivity.
Qed.

End MainFacts.

(** * Further examples on concrete inputs *)


Lemma make_model_rejects_misaligned_example :
  Model.make_model Examples.zero_weights (defaults [750; 60; 60; 4])
    Examples.batch60 [] = Err (ValueError "Concatenate: mismatched shapes").
Proof.
  apply (make_model_rejects_misaligned_extents Examples.zero_weights
           (defaults [750; 60; 60; 4]) 2 60 60 4 64 128 256 256 128 64
           Examples.batch60);
    try reflexivity; try lia.
  left. vm_compute. discriminate.
Defined.

Lemma recurrent_decoder_ignores_previous_frames_example :
  exists frame g1 out,
    Model.recurrent_decoder Examples.zero_weights (defaults [])
      Examples.latent3 [Examples.latent2; Examples.latent1] None [] = Ok (frame, g1) /\
    Model.recurrent_decoder Examples.zero_weights (defaults [])
      Examples.latent3 [Examples.latent2; Examples.latent1] (Some Examples.frames3) []
    = Ok (out, g1 ++ [Concatenate_ 1]) /\
    (forall i j r, j < 3 -> val out (i :: j :: r) = val Examples.frames3 (i :: j :: r)) /\
    (forall i r, val out (i :: 3 :: r) = val frame (i :: 0 :: r)).
Proof.
  apply (recurrent_decoder_ignores_previous_frames Examples.zero_weights (defaults [])
           1 1 1 8 4 2 256 128 64 3
           Examples.latent3 Examples.latent2 Examples.latent1 Examples.frames3 []);
    reflexivity.
Defined.

Lemma SqueezeExcite_amplifies_example :
  exists (out : tensor R) (g' : list layer),
    SqueezeExcite Examples.zero_weights 4 Examples.feature_map [] = Ok (out, g') /\
    forall b i j k, in_bounds [b; i; j; k] (shape Examples.feature_map) ->
      let x := val Examples.feature_map [b; i; j; k] in
      let y := val out [b; i; j; k] in
      ((0 <= x -> x <= y <= 2 * x) /\
       (x <= 0 -> 2 * x <= y <= x))%R.
Proof.
  apply (SqueezeExcite_amplifies_up_to_double Examples.zero_weights 4 1 2 2 8
           Examples.feature_map []); [reflexivity | lia | lia | discriminate].
Defined.

Lemma apply_noise_degenerate_channels_example :
  (exists noisy,
     Noise.apply_noise 0 nat Datasets.counting_noise Datasets.wells_only
       Noise.gaussian (1 # 1000000) 7 = Ok (7, noisy) /\
     shape noisy = shape Datasets.wells_only /\
     forall i a b, i < 2 ->
       val noisy [i; a; b; 0] = val Datasets.wells_only [i; a; b; 0]) /\
  Noise.apply_noise 0 nat Datasets.counting_noise Datasets.no_channels
    Noise.gaussian (1 # 1000000) 7 = Err IndexError.
Proof.
  apply (apply_noise_degenerate_channels 0 nat Datasets.counting_noise
           Datasets.wells_only Datasets.no_channels 2 2 2 0 2 2
           Noise.gaussian (1 # 1000000) 7); reflexivity.
Defined.

Lemma rot90_composes_example :
  exists r1 r2 r12,
    Numpy.rot90 Datasets.wide 1 1 2 = Ok r1 /\
    Numpy.rot90 r1 3 1 2 = Ok r2 /\
    Numpy.rot90 Datasets.wide (1 + 3) 1 2 = Ok r12 /\
    shape r2 = shape r12 /\
    (forall idx, in_bounds idx (shape r12) -> val r2 idx = val r12 idx) /\
    (((1 + 3) mod 4 = 0)%Z ->
     shape r2 = shape Datasets.wide /\
     forall idx, in_bounds idx (shape Datasets.wide) ->
       val r2 idx = val Datasets.wide idx).
Proof.
  apply (rot90_composes Datasets.wide 1 2 3 1 1 3). reflexivity.
Defined.

Lemma augment_data_nonsquare_example :
  ((3 mod 2 = 1)%Z ->
   ProcessData.augment_data Datasets.wide Datasets.wide_targets true 3
   = Err (ValueError "concatenate: dimensions must match")) /\
  ((3 mod 2 = 0)%Z ->
   exists x y,
     ProcessData.augment_data Datasets.wide Datasets.wide_targets true 3 = Ok (x, y) /\
     shape x = [2 * 1; 2; 3; 1] /\
     shape y = [2 * 1; 1; 2; 3; 1]).
Proof.
  apply (augment_data_nonsquare Datasets.wide Datasets.wide_targets 1 2 3 1 1 1 3);
    [reflexivity | reflexivity | lia].
Defined.

Lemma fit_transform_column_extremes_example :
  exists out,
    MinMaxScaler.fit_transform Datasets.column = Ok out /\
    (exists r, r < 3 /\
       (forall r', r' < 3 ->
          (val Datasets.column [r; 0%nat] <= val Datasets.column [r'; 0%nat])%Q) /\
       (val out [r; 0%nat] == 0)%Q) /\
    ((forall r r', r < 3 -> r' < 3 ->
        (val Datasets.column [r; 0%nat] == val Datasets.column [r'; 0%nat])%Q) ->
     forall r, r < 3 -> (val out [r; 0%nat] == 0)%Q) /\
    (forall r r', r < 3 -> r' < 3 ->
       (val Datasets.column [r; 0%nat] <= val Datasets.column [r'; 0%nat])%Q ->
       (val out [r; 0%nat] <= val out [r'; 0%nat])%Q).
Proof.
  apply (fit_transform_column_extremes Datasets.column 3 1 0);
    [reflexivity | lia | lia].
Defined.

Lemma take_frames_checks_indices_example :
  ([0; -1]%Z <> [] -> Forall (ProcessData.frame_in_range 60) [0; -1]%Z ->
   exists out,
     ProcessData.take_frames Datasets.y_sixty [0; -1]%Z = Ok out /\
     shape out = 1 :: length [0; -1]%Z :: [1; 1; 1] /\
     forall b j r, j < length [0; -1]%Z ->
       val out (b :: j :: r)
       = val Datasets.y_sixty
           (b :: Z.to_nat (nth j [0; -1]%Z 0%Z mod Z.of_nat 60) :: r)) /\
  (Exists (fun t => ~ ProcessData.frame_in_range 60 t) [0; -1]%Z ->
   ProcessData.take_frames Datasets.y_sixty [0; -1]%Z = Err IndexError) /\
  ProcessData.take_frames Datasets.y_sixty [] = Err IndexError /\
  (60 < 60 ->
   ProcessData.take_frames Datasets.y_sixty
     (ProcessData.adjust_timesteps (t_samples (defaults []))) = Err IndexError).
Proof.
  apply (take_frames_checks_indices Datasets.y_sixty 1 60 [1; 1; 1] [] [0; -1]%Z).
  reflexivity.
Defined.

Lemma load_data_reads_every_file_example :
  exists X y,
    DataLoading.load_data Datasets.tiny_config Datasets.tiny_fs = Ok (X, y) /\
    shape X = [2; 1; 1; 2] /\
    shape y = [2; 2; 1; 1; 1] /\
    (forall i a b c, i < 2 -> a < 1 -> b < 1 -> c < 2 ->
       val X [i; a; b; c] = val (Datasets.tiny_X i) [c; a; b]) /\
    (forall i t a b c, i < 2 -> t < 2 -> a < 1 -> b < 1 -> c < 1 ->
       val y [i; t; a; b; c] = val (Datasets.tiny_y i) [t; c; a; b]).
Proof.
  apply (load_data_reads_every_file Datasets.tiny_config Datasets.tiny_fs
           Datasets.tiny_X Datasets.tiny_y).
  - intros i Hi. destruct i as [|[|i]]; [split; reflexivity | split; reflexivity|].
    cbn in Hi. lia.
  - intros i Hi. destruct i as [|[|i]]; [split; reflexivity | split; reflexivity|].
    cbn in Hi. lia.
Defined.

Lemma process_data_shapes_and_ranges_example :
  (2 = 1 ->
   ProcessData.process_data nat Datasets.counting_noise_Q Datasets.first_indices
     Datasets.reversed_order Datasets.tiny_config Datasets.square_features
     Datasets.targets None true 3 false 0
   = Err (ValueError "the resulting train set will be empty")) /\
  (2 <= 2 ->
   exists p,
     ProcessData.process_data nat Datasets.counting_noise_Q Datasets.first_indices
       Datasets.reversed_order Datasets.tiny_config Datasets.square_features
       Datasets.targets None true 3 false 0
     = Ok (fst (Datasets.reversed_order 0 2), p) /\
     shape (ProcessData.X_norm p) = [2; 2; 2; 1] /\
     shape (ProcessData.y_norm p) = [2; 2; 2; 2; 1] /\
     shape (ProcessData.X_train p) = [2 - (2 + 3) / 4; 2; 2; 1] /\
     shape (ProcessData.X_test p) = [(2 + 3) / 4; 2; 2; 1] /\
     shape (ProcessData.y_train p)
     = [2 - (2 + 3) / 4; length (t_samples Datasets.tiny_config); 2; 2; 1] /\
     shape (ProcessData.y_test p)
     = [(2 + 3) / 4; length (t_samples Datasets.tiny_config); 2; 2; 1] /\
     (forall j f r, j < (2 + 3) / 4 -> f < length (t_samples Datasets.tiny_config) ->
        val (ProcessData.X_test p) (j :: r)
        = val (ProcessData.X_norm p)
            (nth j (snd (Datasets.reversed_order 0 2)) 0 :: r) /\
        val (ProcessData.y_test p) (j :: f :: r)
        = val (ProcessData.y_norm p)
            (nth j (snd (Datasets.reversed_order 0 2)) 0
             :: Z.to_nat
                  (nth f (ProcessData.adjust_timesteps (t_samples Datasets.tiny_config))
                     0%Z mod Z.of_nat 2)
             :: r)) /\
     (forall j f r, j < 2 - (2 + 3) / 4 ->
        f < length (t_samples Datasets.tiny_config) ->
        val (ProcessData.X_train p) (j :: r)
        = val (ProcessData.X_norm p)
            (nth ((2 + 3) / 4 + j) (snd (Datasets.reversed_order 0 2)) 0 :: r) /\
        val (ProcessData.y_train p) (j :: f :: r)
        = val (ProcessData.y_norm p)
            (nth ((2 + 3) / 4 + j) (snd (Datasets.reversed_order 0 2)) 0
             :: Z.to_nat
                  (nth f (ProcessData.adjust_timesteps (t_samples Datasets.tiny_config))
                     0%Z mod Z.of_nat 2)
             :: r)) /\
     (forall idx, (0 <= val (ProcessData.X_norm p) idx)%Q) /\
     (forall idx, (0 <= val (ProcessData.y_norm p) idx)%Q) /\
     ProcessData.xy_data_npz p
     = (if save_model Datasets.tiny_config then
          Some (<["y_test" := ProcessData.y_test p]>
                (<["y_train" := ProcessData.y_train p]>
                 (<["X_test" := ProcessData.X_test p]>
                  (<["X_train" := ProcessData.X_train p]> ∅))))
        else None)).
Proof.
  apply (process_data_shapes_and_ranges nat Datasets.counting_noise_Q
           Datasets.first_indices Datasets.reversed_order
           (fun s k => Permutation_sym (Permutation_rev (seq 0 k)))
           Datasets.tiny_config Datasets.square_features Datasets.targets
           1 2 1 2 1 2 true 3 0); try reflexivity; try lia.
  - discriminate.
  - repeat constructor; lia.
  - change (Forall (ProcessData.frame_in_range 2) [0; 1]%Z).
    apply Forall_cons; [unfold ProcessData.frame_in_range; lia|].
    apply Forall_cons; [unfold ProcessData.frame_in_range; lia|].
    apply Forall_nil.
Defined.

Lemma reshape_round_trip_example :
  exists m1 m2,
    Numpy.reshape Datasets.features [4; 2] = Ok m1 /\ shape m1 = [4; 2] /\
    Numpy.reshape m1 (shape Datasets.features) = Ok m2 /\
    shape m2 = shape Datasets.features /\
    forall idx, in_bounds idx (shape Datasets.features) ->
      val m2 idx = val Datasets.features idx.
Proof.
  apply (reshape_round_trip Datasets.features [4; 2]). reflexivity.
Defined.

Lemma normalize_features_per_channel_example :
  exists out,
    ProcessData.normalize_features Datasets.features = Ok out /\
    shape out = shape Datasets.features /\
    forall idx, in_bounds idx (shape Datasets.features) ->
      (val out idx == val (ProcessData.per_channel_minmax_spec Datasets.features) idx)%Q.
Proof.
  apply (normalize_features_per_channel Datasets.features 2 1 2 2);
    [reflexivity | lia | lia].
Defined.

Lemma normalize_targets_per_position_example :
  exists out,
    ProcessData.normalize_targets Datasets.targets = Ok out /\
    shape out = shape Datasets.targets /\
    forall idx, in_bounds idx (shape Datasets.targets) ->
      (val out idx == val (ProcessData.per_position_minmax Datasets.targets) idx)%Q.
Proof.
  apply (normalize_targets_per_position Datasets.targets 1 2 2 2 1);
    [reflexivity | lia | lia].
Defined.

Lemma compare_cumulative_co2_totals_example :
  (1 <= 1 ->
   exists tl pl tl2 pl2,
     CumulativeCO2.compare_cumulative_co2 Datasets.targets Datasets.still_targets
       (2 # 100) = Ok (tl, pl) /\
     CumulativeCO2.compare_cumulative_co2 Datasets.targets Datasets.still_targets
       5 = Ok (tl2, pl2) /\
     length tl = 1 /\ length pl = 1 /\
     forall i, i < 1 ->
       nth i tl 0%Q = CumulativeCO2.co2_of Datasets.targets (2 # 100) i /\
       nth i pl 0%Q = CumulativeCO2.co2_of Datasets.still_targets (2 # 100) i /\
       (0 <= nth i tl 0)%Q /\ (0 <= nth i pl 0)%Q /\
       (nth i tl2 0 <= nth i tl 0)%Q /\ (nth i pl2 0 <= nth i pl 0)%Q /\
       (Forall (fun v => (v <= 2 # 100)%Q)
          (CumulativeCO2.sample_entries Datasets.targets i) ->
        (nth i tl 0 == 0)%Q)) /\
  (1 < 1 ->
   CumulativeCO2.compare_cumulative_co2 Datasets.targets Datasets.still_targets
     (2 # 100) = Err IndexError).
Proof.
  apply (compare_cumulative_co2_totals Datasets.targets Datasets.still_targets
           1 2 1 2 [2; 2; 1] [2; 2; 1] (2 # 100) 5);
    [reflexivity | reflexivity | lra | lra].
Defined.

Lemma main_calls_undefined_methods_example :
  Main.resolves ∅
  = [("check_tensorflow_gpu", false); ("load_data", true); ("process_data", true);
     ("plot_data", true); ("plot_features", true); ("plot_targets", true);
     ("make_model", true); ("training", false); ("predictions", false);
     ("plot_single_results", true); ("cumulative_co2", true)] /\
  Instance.getattr ∅ "check_tensorflow_gpu"
  = Err (AttributeError "check_tensorflow_gpu") /\
  Instance.getattr ∅ "training" = Err (AttributeError "training") /\
  Instance.getattr ∅ "predictions" = Err (AttributeError "predictions").
Proof.
  apply (main_calls_undefined_methods ∅). intros name _. apply lookup_empty.
Defined.

(** * Further properties: file shapes *)

Section FileShapes.
Import DataLoading Numpy.

(** X17. [load_data] does not validate the shape of a feature file beyond what
    the assignment into the preallocated array tolerates: a file holding a
    single channel plane is accepted and silently replicated into every
    channel of the sample, while a file whose height differs from [dim]
    (and is not 1) raises [ValueError]. *)
Theorem load_sample_broadcasts_or_rejects (self : SpatiotemporalCO2)
  (fs : gmap string (tensor Q)) (X y plane tall target : tensor Q)
  (n xc d d' T yc i : nat) :
  shape X = [n; xc; d; d] -> shape y = [n; T; yc; d; d] -> i < n ->
  shape plane = [1; d; d] ->
  shape tall = [xc; d'; d] -> d' <> d -> d' <> 1 ->
  shape target = [T; yc; d; d] ->
  fs !! y_path self i = Some target ->
  (fs !! X_path self i = Some plane ->
   exists X' y',
     load_sample self fs (X, y) i = Ok (X', y') /\
     forall c a b, c < xc -> a < d -> b < d ->
       val X' [i; c; a; b] = val plane [0; a; b]) /\
  (fs !! X_path self i = Some tall ->
   load_sample self fs (X, y) i
   = Err (ValueError "could not broadcast input array")).
Proof.
  intros HX Hy Hi Hp Ht Hd Hd1 Htg Hfy. split; intros Hfx;
    unfold load_sample, np_load; rewrite Hfx; cbn [rbind fst snd];
    unfold setitem0 at 1; rewrite HX; apply Nat.ltb_lt in Hi; rewrite Hi.
  - rewrite Hp. unfold assignable. cbn. rewrite !Nat.eqb_refl.
    cbn [orb andb rbind]. rewrite (Bool.orb_true_r). cbn [andb rbind].
    rewrite Hfy. cbn [rbind].
    destruct (setitem0_run y target i n [T; yc; d; d] Hy
                ltac:(apply Nat.ltb_lt; exact Hi) Htg) as (y' & -> & _).
    cbn [rbind]. eexists _, _. split; [reflexivity|].
    intros c a b Hc Ha Hb. cbn [val]. rewrite Nat.eqb_refl.
    unfold assigned. rewrite Hp. cbn.
    destruct (Nat.eqb_spec d 1); repeat f_equal; lia.
  - rewrite Ht. unfold assignable. cbn. rewrite !Nat.eqb_refl.
    apply Nat.eqb_neq in Hd, Hd1. rewrite Hd, Hd1. reflexivity.
Qed.

End FileShapes.

Lemma load_sample_broadcasts_or_rejects_example :
  (Datasets.plane_fs !! DataLoading.X_path Datasets.tiny_config 0
   = Some (Datasets.constant_file [1; 1; 1] 4%Q) ->
   exists X' y',
     DataLoading.load_sample Datasets.tiny_config Datasets.plane_fs
       (DataLoading.zeros [2; 2; 1; 1], DataLoading.zeros [2; 2; 1; 1; 1]) 0
     = Ok (X', y') /\
     forall c a b, c < 2 -> a < 1 -> b < 1 ->
       val X' [0; c; a; b] = val (Datasets.constant_file [1; 1; 1] 4%Q) [0; a; b]) /\
  (Datasets.plane_fs !! DataLoading.X_path Datasets.tiny_config 0
   = Some (Datasets.constant_file [2; 3; 1] 4%Q) ->
   DataLoading.load_sample Datasets.tiny_config Datasets.plane_fs
     (DataLoading.zeros [2; 2; 1; 1], DataLoading.zeros [2; 2; 1; 1; 1]) 0
   = Err (ValueError "could not broadcast input array")).
Proof.
  apply (load_sample_broadcasts_or_rejects Datasets.tiny_config Datasets.plane_fs
           (DataLoading.zeros [2; 2; 1; 1]) (DataLoading.zeros [2; 2; 1; 1; 1])
           (Datasets.constant_file [1; 1; 1] 4%Q)
           (Datasets.constant_file [2; 3; 1] 4%Q)
           (Datasets.constant_file [2; 1; 1; 1] 7%Q)
           2 2 1 3 2 1 0);
    try reflexivity; lia.
Defined.
